(** * GravurefitSCRAPER: a shallow embedding of the two scrapers

    Sources embedded here:
    - [src/scrapers/Gravurefit_python.py]  (the stand-alone Gravurefit scraper)
    - [src/JavLibrary_python.py]           (the JavLibrary scraper with the
                                            Gravurefit helpers copied in)

    Python values are the values [json.loads] produces; text is a sequence of
    Unicode code points, as a Python [str] is; an exception is a result of its
    own, next to the normal one. What the scripts do not compute themselves is
    the environment they are run in: the proxy behind [requests.post], the
    clock, the session file and the two debug directories, the lxml parser
    and its XPath queries, the Unicode tables of the interpreter, and the
    settings read from the process environment.

    The file has the program first (text, values, regular expressions, then
    the functions of the two sources in a section over the environment), then
    the vocabulary of the properties and a concrete environment, then the
    properties, and last the runs in the concrete environment. *)

From Stdlib Require Import ZArith NArith QArith Qround Lqa List Ascii String Lia Bool.
From stdpp Require Import base option list gmap strings.

Set Default Proof Using "Type".
Local Set Warnings "-register-all".
Local Open Scope N_scope.

(** ** Text *)

(** A Python [str]: its code points. *)
Definition pystr := list N.

(** Reading a source literal: the UTF-8 bytes of a literal of this file are
    decoded to the code points of the Python literal. *)
Fixpoint utf8_decode (bs : list N) : pystr :=
  match bs with
  | [] => []
  | b0 :: r0 =>
    if b0 <? 128 then b0 :: utf8_decode r0
    else match r0 with
    | [] => []
    | b1 :: r1 =>
      if b0 <? 224 then ((b0 - 192) * 64 + (b1 - 128)) :: utf8_decode r1
      else match r1 with
      | [] => []
      | b2 :: r2 =>
        if b0 <? 240
        then ((b0 - 224) * 4096 + (b1 - 128) * 64 + (b2 - 128)) :: utf8_decode r2
        else match r2 with
        | [] => []
        | b3 :: r3 =>
          ((b0 - 240) * 262144 + (b1 - 128) * 4096 + (b2 - 128) * 64 + (b3 - 128))
            :: utf8_decode r3
        end
      end
    end
  end.

Fixpoint string_bytes (s : string) : list N :=
  match s with
  | EmptyString => []
  | String a s' => N_of_ascii a :: string_bytes s'
  end.

Definition u8 (s : string) : pystr := utf8_decode (string_bytes s).
Arguments u8 : simpl never.

Fixpoint pystr_eqb (a b : pystr) : bool :=
  match a, b with
  | [], [] => true
  | x :: a', y :: b' => (x =? y) && pystr_eqb a' b'
  | _, _ => false
  end.

Definition is_empty {A} (l : list A) : bool :=
  match l with [] => true | _ => false end.

(** [sep.join(parts)] *)
Fixpoint join (sep : pystr) (parts : list pystr) : pystr :=
  match parts with
  | [] => []
  | [p] => p
  | p :: ps => p ++ sep ++ join sep ps
  end.

(** [Py_UNICODE_ISSPACE]: the characters [str.strip()] removes and the
    pattern [\s] matches on a [str]. *)
Definition is_space (c : N) : bool :=
  ((9 <=? c) && (c <=? 13)) || ((28 <=? c) && (c <=? 32))
  || (c =? 133) || (c =? 160) || (c =? 5760)
  || ((8192 <=? c) && (c <=? 8202))
  || (c =? 8232) || (c =? 8233) || (c =? 8239) || (c =? 8287) || (c =? 12288).

Fixpoint lstrip (s : pystr) : pystr :=
  match s with
  | c :: s' => if is_space c then lstrip s' else s
  | [] => []
  end.

Definition rstrip (s : pystr) : pystr := rev (lstrip (rev s)).

(** [s.strip()] *)
Definition strip (s : pystr) : pystr := rstrip (lstrip s).

(** [s.startswith(p)] *)
Fixpoint startswith (p s : pystr) : bool :=
  match p, s with
  | [], _ => true
  | x :: p', y :: s' => (x =? y) && startswith p' s'
  | _ :: _, [] => false
  end.

(** ** Python values *)

Inductive pyfloat :=
  | FNaN
  | FInf (negative : bool)
  | FFinite (q : Q).

(** The values [json.loads] and [r.json()] produce. A dict is the list of its
    items; [get] reads the first item of a key. *)
Inductive pyval :=
  | PNone
  | PBool (b : bool)
  | PInt (z : Z)
  | PFloat (f : pyfloat)
  | PStr (s : pystr)
  | PList (l : list pyval)
  | PDict (d : list (pystr * pyval)).

Definition pydict := list (pystr * pyval).

(** [bool(v)] *)
Definition truthy (v : pyval) : bool :=
  match v with
  | PNone => false
  | PBool b => b
  | PInt z => negb (z =? 0)%Z
  | PFloat FNaN => true
  | PFloat (FInf _) => true
  | PFloat (FFinite q) => negb (Qnum q =? 0)%Z
  | PStr s => negb (is_empty s)
  | PList l => negb (is_empty l)
  | PDict d => negb (is_empty d)
  end.

(** [a or b] *)
Definition py_or (a b : pyval) : pyval := if truthy a then a else b.

Fixpoint dict_lookup (d : pydict) (k : pystr) : option pyval :=
  match d with
  | [] => None
  | (k', v) :: d' => if pystr_eqb k' k then Some v else dict_lookup d' k
  end.

(** [d.get(k, default)] on a dict *)
Definition dict_get_default (d : pydict) (k : pystr) (default : pyval) : pyval :=
  match dict_lookup d k with Some v => v | None => default end.

(** [d.get(k)] on a dict *)
Definition dict_get (d : pydict) (k : string) : pyval :=
  dict_get_default d (u8 k) PNone.

(** ** Exceptions *)

Inductive exn :=
  | AttributeError
  | TypeError
  | ValueError
  | OverflowError
  | JSONDecodeError.

Inductive res (A : Type) :=
  | Ok (a : A)
  | Raise (e : exn).
Arguments Ok {A} a.
Arguments Raise {A} e.

#[global] Instance res_ret : MRet res := fun _ a => Ok a.
#[global] Instance res_bind : MBind res := fun _ _ f m =>
  match m with Ok a => f a | Raise e => Raise e end.

(** [o.get(k, default)] on any value: only a dict has [get]. *)
Definition py_get_default (o : pyval) (k : string) (default : pyval) : res pyval :=
  match o with
  | PDict d => Ok (dict_get_default d (u8 k) default)
  | _ => Raise AttributeError
  end.

Definition py_get (o : pyval) (k : string) : res pyval := py_get_default o k PNone.

(** ** Decimal numerals *)

Fixpoint dec_digits (fuel : nat) (n : N) (acc : pystr) : pystr :=
  match fuel with
  | O => acc
  | S fuel' =>
    if n <? 10 then (48 + n) :: acc
    else dec_digits fuel' (n / 10) ((48 + n mod 10) :: acc)
  end.

(** [str(n)] for a natural number *)
Definition str_of_N (n : N) : pystr := dec_digits (S (N.size_nat n)) n [].

(** [str(z)] for an integer *)
Definition str_of_Z (z : Z) : pystr :=
  if (z <? 0)%Z then 45 :: str_of_N (Z.to_N (- z)) else str_of_N (Z.to_N z).

(** [f"{z:0<w>d}"] for a non-negative integer: zero-padded to width [w]. *)
Definition zero_pad (w : nat) (s : pystr) : pystr :=
  repeat 48 (w - length s)%nat ++ s.

(** ** Regular expressions

    Every pattern of the two scrapers is a sequence of anchors and of
    repetitions of one character class, so that is what a pattern is here.
    Matching is the backtracking search of [re]: the items are matched left
    to right, a greedy repetition tries its longest run first, a lazy one its
    shortest, and the first way that lets the rest of the pattern match wins.
    A match is the list of the pieces of text its items consumed. *)

Inductive item :=
  | Bol
  | Eol
  | Rep (cls : N -> bool) (lo : nat) (hi : option nat) (greedy : bool).

Definition regex := list item.

Definition chr (c : N) : item := Rep (N.eqb c) 1 (Some 1%nat) true.
Definition one (cls : N -> bool) : item := Rep cls 1 (Some 1%nat) true.
Definition star (cls : N -> bool) : item := Rep cls 0 None true.
Definition lazy_star (cls : N -> bool) : item := Rep cls 0 None false.
Definition plus (cls : N -> bool) : item := Rep cls 1 None true.
Definition between (cls : N -> bool) (lo hi : nat) : item := Rep cls lo (Some hi) true.

Definition hi_allows (hi : option nat) : bool :=
  match hi with Some O => false | _ => true end.

Definition first_of {R} (a b : option R) : option R :=
  match a with Some r => Some r | None => b end.

Fixpoint rep {R} (cls : N -> bool) (greedy : bool) (lo : nat) (hi : option nat)
    (k : pystr -> pystr -> option R) (acc s : pystr) : option R :=
  let stop := match lo with O => k (rev acc) s | S _ => None end in
  match s with
  | c :: s' =>
    if hi_allows hi && cls c then
      let more := rep cls greedy (pred lo) (pred <$> hi) k (c :: acc) s' in
      if greedy then first_of more stop else first_of stop more
    else stop
  | [] => stop
  end.

(** [$] without [re.MULTILINE]: the end, or just before a final newline. *)
Definition at_eol (s : pystr) : bool :=
  match s with [] => true | [10] => true | _ => false end.

Definition with_piece (p : pystr) (r : option (list pystr * pystr))
    : option (list pystr * pystr) :=
  match r with Some (ps, rest) => Some (p :: ps, rest) | None => None end.

(** The pattern matched at the current position; [at_bol]: that position is
    the start of the text. *)
Fixpoint match_items (its : regex) (at_bol : bool) (s : pystr)
    : option (list pystr * pystr) :=
  match its with
  | [] => Some ([], s)
  | Bol :: its' =>
    if at_bol then with_piece [] (match_items its' at_bol s) else None
  | Eol :: its' =>
    if at_eol s then with_piece [] (match_items its' at_bol s) else None
  | Rep cls lo hi greedy :: its' =>
    rep cls greedy lo hi
      (fun piece rest =>
         with_piece piece (match_items its' (at_bol && is_empty piece) rest))
      [] s
  end.

(** [pattern.search]: the leftmost position at which the pattern matches;
    the text before the match, the pieces, the text after. *)
Fixpoint search_from (its : regex) (at_bol : bool) (skipped s : pystr)
    : option (pystr * list pystr * pystr) :=
  match match_items its at_bol s with
  | Some (pieces, rest) => Some (rev skipped, pieces, rest)
  | None =>
    match s with
    | c :: s' => search_from its false (c :: skipped) s'
    | [] => None
    end
  end.

Definition re_search (its : regex) (s : pystr) : option (list pystr) :=
  match search_from its true [] s with
  | Some (_, pieces, _) => Some pieces
  | None => None
  end.

(** The matches of [pattern.finditer(text)], left to right, without overlap.
    (After a match that consumed nothing the scan moves one character on.) *)
Fixpoint finditer_go (fuel : nat) (its : regex) (at_bol : bool) (s : pystr)
    : list (list pystr) :=
  match fuel with
  | O => []
  | S fuel' =>
    match search_from its at_bol [] s with
    | None => []
    | Some (_, pieces, rest) =>
      if is_empty (concat pieces) then
        match rest with
        | _ :: rest' => pieces :: finditer_go fuel' its false rest'
        | [] => [pieces]
        end
      else pieces :: finditer_go fuel' its false rest
    end
  end.

Definition re_finditer (its : regex) (s : pystr) : list (list pystr) :=
  finditer_go (S (length s)) its true s.

(** [re.sub(pattern, '', text)]: every match is removed. *)
Fixpoint sub_go (fuel : nat) (its : regex) (at_bol : bool) (s : pystr) : pystr :=
  match fuel with
  | O => s
  | S fuel' =>
    match search_from its at_bol [] s with
    | None => s
    | Some (before, pieces, rest) =>
      if is_empty (concat pieces) then
        match rest with
        | c :: rest' => before ++ c :: sub_go fuel' its false rest'
        | [] => before
        end
      else before ++ sub_go fuel' its false rest
    end
  end.

Definition re_sub_empty (its : regex) (s : pystr) : pystr :=
  sub_go (S (length s)) its true s.

(** The text of the groups of a match: group [i] spans [n] items from item [i]. *)
Definition pieces_span (pieces : list pystr) (i n : nat) : pystr :=
  concat (take n (drop i pieces)).

(** *** Character classes of the patterns *)

Definition in_range (a b c : N) : bool := (a <=? c) && (c <=? b).

(** [A-Za-z] *)
Definition is_ascii_alpha (c : N) : bool := in_range 65 90 c || in_range 97 122 c.

(** [A-Za-z0-9_\-] *)
Definition is_code_char (c : N) : bool :=
  is_ascii_alpha c || in_range 48 57 c || (c =? 95) || (c =? 45).

(** [A-Za-z0-9_\-()] *)
Definition is_code_char_paren (c : N) : bool :=
  is_code_char c || (c =? 40) || (c =? 41).

(** The three dashes of the performer separator: U+FF0D, [-], U+2014. *)
Definition is_dash (c : N) : bool := (c =? 65293) || (c =? 45) || (c =? 8212).

(** [ \t] *)
Definition is_blank (c : N) : bool := (c =? 32) || (c =? 9).

(** [:] and U+FF1A *)
Definition is_colon (c : N) : bool := (c =? 58) || (c =? 65306).

(** [.] without [re.DOTALL] *)
Definition is_dot (c : N) : bool := negb (c =? 10).

(** ** Title normalization *)

(** [^[^－\-\—]+[ \t]*[-－\—][ \t]*] *)
Definition PERFORMER_PREFIX : regex :=
  [Bol; plus (fun c => negb (is_dash c)); star is_blank; one is_dash; star is_blank].

(** [\s*/\s*[A-Za-z0-9_\-()]+$] *)
Definition CODE_SUFFIX : regex :=
  [star is_space; chr 47; star is_space; plus is_code_char_paren; Eol].

(** [^[A-Za-z0-9_\-]+[:：]\s*] *)
Definition CODE_PREFIX : regex :=
  [Bol; plus is_code_char; one is_colon; star is_space].

(** [t or None] *)
Definition nonempty (t : pystr) : option pystr :=
  if is_empty t then None else Some t.

Definition normalize_title (raw_title : option pystr) : option pystr :=
  match raw_title with
  | None => None
  | Some raw =>
    if is_empty raw then None else
    let t := strip raw in
    let t := strip (re_sub_empty PERFORMER_PREFIX t) in
    let t := strip (re_sub_empty CODE_SUFFIX t) in
    let t := strip (re_sub_empty CODE_PREFIX t) in
    nonempty t
  end.

(** [normalize_gravure_title] of JavLibrary_python.py is the same text. *)
Definition normalize_gravure_title := normalize_title.

(** ** The interpreter and its surroundings *)

(** What the proxy request of [fetch_via_flaresolverr] comes back with:
    [requests.post] or [raise_for_status] raised [e] (a connection error, a
    timeout, a status that is not 2xx; [message] is [str(e)]), or a response
    with its [r.text] and what [r.json()] gives ([None]: it raised). *)
Inductive http_outcome :=
  | PostRaises (message : pystr)
  | PostBody (text : pystr) (json : option pyval).

(** The result dict of [fetch_via_flaresolverr]: always the same five keys. *)
Record FetchResult := mkFetchResult {
  ok : bool;
  status : pyval;
  html : pyval;
  cookies : pyval;
  raw : pyval
}.

(** The session file on disk: absent, present but not readable as JSON, or
    holding a JSON value. *)
Inductive session_file :=
  | NoFile
  | Unreadable
  | Holds (v : pyval).

(** A directory of JSON files: file name to modification time and content. *)
Abbreviation directory := (gmap pystr (Q * pyval)).

(** What a run can change and show: the session file, the directories [raw/]
    and [outputs/] under the configuration root, whether files can be opened
    there for writing, and the values printed on standard output. *)
Record world := mkWorld {
  session : session_file;
  raw_dir : directory;
  out_dir : directory;
  writable : bool;
  stdout : list pyval
}.

(** The clock of a run: what [time.time()] returns in [prune_old_raws], in
    [prune_old_outputs], at the freshness test and in
    [save_flaresolverr_session], and the modification times the two debug
    files get. *)
Record clock := mkClock {
  at_prune_raws : Q;
  at_prune_outputs : Q;
  at_check : Q;
  at_raw_write : Q;
  at_save : Q;
  at_output_write : Q
}.

Definition is_none (v : pyval) : bool :=
  match v with PNone => true | _ => false end.

(** The elements a [for] loop over a value visits. *)
Definition py_iter (v : pyval) : res (list pyval) :=
  match v with
  | PList l => Ok l
  | PStr s => Ok (map (fun c => PStr [c]) s)
  | PDict d => Ok (map (fun kv => PStr (fst kv)) d)
  | _ => Raise TypeError
  end.

Section Scraper.

(** [repr] of a float, a list and a dict: the interpreter's. *)
Variable py_repr : pyval -> pystr.

(** The network: endpoint and JSON payload to the outcome of the request. *)
Variable requests_post : pystr -> pyval -> http_outcome.

(** The decimal digits outside ASCII (Unicode category Nd) and their values:
    the interpreter's Unicode database. *)
Variable uni_digit : N -> option N.

(** Whether the platform's [strftime] pads [%Y] to four digits. *)
Variable strftime_pads_year : bool.

(** [c.upper()] of a character outside ASCII: the Unicode database again. *)
Variable uni_upper : N -> pystr.

(** [int(s)] of a string; [None]: it raised [ValueError]. *)
Variable int_of_str : pystr -> option Z.

(** lxml: [lxml.html.fromstring] ([None]: it raised), [doc.xpath(query)] for
    queries that select text nodes and attribute values, and
    [lxml.html.tostring(doc, encoding="unicode", method="text")]. *)
Variable document : Type.
Variable fromstring : pyval -> option document.
Variable xpath : document -> string -> list pystr.
Variable tostring_text : document -> option pystr.

(** The configuration read from the process environment, with defaults. *)
Variable FLARESOLVERR_URL : pystr.
Variable FLARESOLVERR_TIMEOUT_MAX : Z.
Variable FLARE_COOKIE_AGE_SECONDS : Z.
Variable GRAVURE_USER_AGENT : pystr.
Variable OUTPUT_RETENTION_DAYS : Z.

(** [str(v)], which is also [f"{v}"] *)
Definition py_str (v : pyval) : pystr :=
  match v with
  | PNone => u8 "None"
  | PBool true => u8 "True"
  | PBool false => u8 "False"
  | PInt z => str_of_Z z
  | PStr s => s
  | _ => py_repr v
  end.

(** ** Session cookies *)

(** The loop of [build_cookie_header_from_list]. *)
Fixpoint cookie_parts (cs : list pyval) (parts : list pystr) : res (list pystr) :=
  match cs with
  | [] => Ok parts
  | c :: cs' =>
    name ← py_get c "name";
    val ← py_get c "value";
    if truthy name && negb (is_none val)
    then cookie_parts cs' (parts ++ [py_str name ++ u8 "=" ++ py_str val])
    else cookie_parts cs' parts
  end.

Definition build_cookie_header_from_list (cookies : pyval) : res (option pystr) :=
  cs ← py_iter cookies;
  parts ← cookie_parts cs [];
  mret (if is_empty parts then None else Some (join (u8 "; ") parts)).

(** ** The fetch client *)

(** Lines 165-183: the answer is looked for under [solution], else under
    [response], else in the body itself. The result is [html_content],
    [cookies] and [status] as they stand after the block. *)
Definition probe_solution (data : pyval) (d : pydict) : pyval * pyval * pyval :=
  let html_content := PNone in
  let cookies := PList [] in
  let status := PNone in
  let sol := py_or (dict_get d "solution") (py_or (dict_get d "response") data) in
  match sol with
  | PDict sd =>
    let resp := dict_get sd "response" in
    match resp with
    | PDict rd =>
      (py_or (dict_get rd "data") (py_or (dict_get rd "content")
         (py_or (dict_get rd "html") html_content)),
       py_or (dict_get rd "cookies") (py_or (dict_get sd "cookies") cookies),
       py_or (dict_get rd "status") (py_or (dict_get sd "status") status))
    | PStr _ =>
      (resp,
       py_or (dict_get sd "cookies") cookies,
       py_or (dict_get sd "status") status)
    | _ =>
      (py_or (dict_get sd "data") (py_or (dict_get sd "content")
         (py_or (dict_get sd "html") html_content)),
       py_or (dict_get sd "cookies") cookies,
       py_or (dict_get sd "status") status)
    end
  | PStr _ => (sol, cookies, status)
  | _ => (html_content, cookies, status)
  end.

(** Lines 185-192: a second look at the top-level [response] when the first
    block found no html. *)
Definition probe_response (d : pydict) (found : pyval * pyval * pyval)
    : pyval * pyval * pyval :=
  let '(html_content, cookies, status) := found in
  if negb (truthy html_content) then
    let resp2 := dict_get d "response" in
    match resp2 with
    | PDict r2 =>
      (py_or (dict_get r2 "content") (py_or (dict_get r2 "data")
         (py_or (dict_get r2 "html") html_content)),
       py_or (dict_get r2 "cookies") cookies,
       py_or (dict_get r2 "status") status)
    | PStr _ => (resp2, cookies, status)
    | _ => (html_content, cookies, status)
    end
  else (html_content, cookies, status).

(** Lines 161-194: the shapes of the proxy's JSON body. *)
Definition shape_fallback (data : pyval) : FetchResult :=
  let '(html_content, cookies, status) :=
    match data with
    | PDict d => probe_response d (probe_solution data d)
    | _ => (PNone, PList [], PNone)
    end in
  {| ok := truthy html_content; status := status; html := html_content;
     cookies := cookies; raw := data |}.

(** The payload of the proxy request. *)
Definition request_payload (url : pyval) (headers : option pydict)
    (cookie_header : option pystr) (timeout : Z) : pyval :=
  let safe_headers :=
    match headers with
    | Some h => if is_empty h then [] else h
    | None => []
    end in
  let safe_headers :=
    match cookie_header with
    | Some c =>
      if negb (is_empty c) && is_empty (option_list (dict_lookup safe_headers (u8 "Cookie")))
      then safe_headers ++ [(u8 "Cookie", PStr c)]
      else safe_headers
    | None => safe_headers
    end in
  let payload :=
    [(u8 "cmd", PStr (u8 "request.get")); (u8 "url", url); (u8 "maxTimeout", PInt timeout)] in
  PDict (if is_empty safe_headers then payload
         else payload ++ [(u8 "headers", PDict safe_headers)]).

Definition fetch_via_flaresolverr (url : pyval) (flaresolverr_url : pystr)
    (headers : option pydict) (cookie_header : option pystr) (timeout : Z)
    : FetchResult :=
  let payload := request_payload url headers cookie_header timeout in
  match requests_post flaresolverr_url payload with
  | PostRaises e =>
    {| ok := false; status := PNone; html := PNone; cookies := PList [];
       raw := PDict [(u8 "error", PStr e)] |}
  | PostBody text None =>
    {| ok := false; status := PNone; html := PStr text; cookies := PList [];
       raw := PStr text |}
  | PostBody text (Some data) => shape_fallback data
  end.

(** ** Dates *)

(** What [\d] matches on a [str], and the value [int] gives the digit. *)
Definition digit_value (c : N) : option N :=
  if in_range 48 57 c then Some (c - 48)
  else if c <? 128 then None
  else uni_digit c.

Definition is_digit (c : N) : bool :=
  match digit_value c with Some _ => true | None => false end.

(** [int(s)] for a run of digits [s] *)
Definition int_of_digits (s : pystr) : Z :=
  fold_left (fun acc c => acc * 10 + Z.of_N (default 0%N (digit_value c)))%Z s 0%Z.

(** [(\d{4})年\s*(\d{1,2})月\s*(\d{1,2})日]; the groups are items 0, 3 and 6. *)
Definition DATE_REGEX : regex :=
  [between is_digit 4 4; chr 24180; star is_space;
   between is_digit 1 2; chr 26376; star is_space;
   between is_digit 1 2; chr 26085].

(** [(\d{4}-\d{2}-\d{2})]; the group is the whole match. *)
Definition ISO_REGEX : regex :=
  [between is_digit 4 4; chr 45; between is_digit 2 2; chr 45; between is_digit 2 2].

(** A calendar date: year, month, day. *)
Definition date := (Z * Z * Z)%type.

Definition is_leap (y : Z) : bool :=
  ((y mod 4 =? 0) && negb (y mod 100 =? 0) || (y mod 400 =? 0))%Z.

Definition days_in_month (y m : Z) : Z :=
  if (m =? 2)%Z then (if is_leap y then 29 else 28)%Z
  else if ((m =? 4) || (m =? 6) || (m =? 9) || (m =? 11))%Z then 30%Z
  else 31%Z.

(** The dates [datetime(y, m, d)] accepts. *)
Definition valid_date (y m d : Z) : bool :=
  ((1 <=? y) && (y <=? 9999) && (1 <=? m) && (m <=? 12)
   && (1 <=? d) && (d <=? days_in_month y m))%Z.

(** [datetime(y, m, d, tzinfo=timezone.utc)]; [None]: it raised [ValueError]. *)
Definition datetime_new (y m d : Z) : option date :=
  if valid_date y m d then Some (y, m, d) else None.

(** [datetime.fromisoformat(iso)] on ten characters: it reads ASCII digits
    only, and raises on anything else. *)
Definition ascii_digits (s : pystr) : option Z :=
  if forallb (in_range 48 57) s then Some (int_of_digits s) else None.

Definition fromisoformat (iso : pystr) : option date :=
  match iso with
  | [y1; y2; y3; y4; s1; m1; m2; s2; d1; d2] =>
    if (s1 =? 45) && (s2 =? 45) then
      y ← ascii_digits [y1; y2; y3; y4];
      m ← ascii_digits [m1; m2];
      d ← ascii_digits [d1; d2];
      datetime_new y m d
    else None
  | _ => None
  end.

(** The order of [datetime] values at midnight UTC, and of tuples. *)
Definition date_ltb (a b : date) : bool :=
  let '(ya, ma, da) := a in
  let '(yb, mb, db) := b in
  ((ya <? yb) || ((ya =? yb) && ((ma <? mb) || ((ma =? mb) && (da <? db)))))%Z.

(** [min(dates)]: the first of the least elements. *)
Definition min_date (d0 : date) (rest : list date) : date :=
  fold_left (fun best d => if date_ltb d best then d else best) rest d0.

(** [earliest.strftime("%Y-%m-%d")] *)
Definition strftime_ymd (dt : date) : pystr :=
  let '(y, m, d) := dt in
  (if strftime_pads_year then zero_pad 4 (str_of_Z y) else str_of_Z y)
  ++ u8 "-" ++ zero_pad 2 (str_of_Z m) ++ u8 "-" ++ zero_pad 2 (str_of_Z d).

(** The groups [y, mo, d] of a match of [DATE_REGEX]. *)
Definition date_groups (pieces : list pystr) : pystr * pystr * pystr :=
  (pieces_span pieces 0 1, pieces_span pieces 3 1, pieces_span pieces 6 1).

(** The first loop of [find_earliest_date_in_text]. *)
Definition localized_dates (text : pystr) : list date :=
  omap (fun pieces =>
          let '(y, mo, d) := date_groups pieces in
          datetime_new (int_of_digits y) (int_of_digits mo) (int_of_digits d))
       (re_finditer DATE_REGEX text).

(** [re.findall] of the ISO pattern, and the second loop. *)
Definition iso_matches (text : pystr) : list pystr :=
  map (fun pieces => concat pieces) (re_finditer ISO_REGEX text).

Definition iso_dates (text : pystr) : list date :=
  omap fromisoformat (iso_matches text).

(** Gravurefit_python.py *)
Definition find_earliest_date_in_text (text : pystr) : option pystr :=
  let dates := localized_dates text ++ iso_dates text in
  match dates with
  | [] => None
  | d0 :: rest => Some (strftime_ymd (min_date d0 rest))
  end.

(** [time.strptime(f"{y}-{int(mo):02d}-{int(d):02d}", "%Y-%m-%d")] returns
    for the dates [datetime.date] accepts and raises [ValueError] for the
    others. *)
Definition strptime_accepts (y : pystr) (mo d : Z) : bool :=
  valid_date (int_of_digits y) mo d.

(** [iso.split("-")] of a match of the ISO pattern: its three runs of digits. *)
Definition iso_fields (pieces : list pystr) : pystr * pystr * pystr :=
  (pieces_span pieces 0 1, pieces_span pieces 2 1, pieces_span pieces 4 1).

(** JavLibrary_python.py: the same two loops, on tuples; the second loop
    appends every match. *)
Definition find_earliest_date_from_text (text : pystr) : option pystr :=
  if is_empty text then None else
  let localized :=
    omap (fun pieces =>
            let '(y, mo, d) := date_groups pieces in
            if strptime_accepts y (int_of_digits mo) (int_of_digits d)
            then Some (int_of_digits y, int_of_digits mo, int_of_digits d)
            else None)
         (re_finditer DATE_REGEX text) in
  let iso :=
    map (fun pieces =>
           let '(yy, mm, dd) := iso_fields pieces in
           (int_of_digits yy, int_of_digits mm, int_of_digits dd))
        (re_finditer ISO_REGEX text) in
  let dates : list date := localized ++ iso in
  match dates with
  | [] => None
  | d0 :: rest =>
    let '(y, m, d) := min_date d0 rest in
    Some (str_of_Z y ++ u8 "-" ++ zero_pad 2 (str_of_Z m) ++ u8 "-" ++ zero_pad 2 (str_of_Z d))
  end.

(** ** The field extractor *)

(** [.*?([A-Za-z]{3,6}-\d{2,6}).*]; the group spans items 1 to 3. *)
Definition CODE_REGEX : regex :=
  [lazy_star is_dot; between is_ascii_alpha 3 6; chr 45; between is_digit 2 6;
   star is_dot].

Definition upper_char (c : N) : pystr :=
  if in_range 97 122 c then [c - 32] else if c <? 128 then [c] else uni_upper c.

(** [s.upper()] *)
Definition upper (s : pystr) : pystr := concat (map upper_char s).

(** [s.split(sep)] for a separator of one character *)
Fixpoint split_go (sep : N) (cur s : pystr) : list pystr :=
  match s with
  | [] => [rev cur]
  | c :: s' =>
    if c =? sep then rev cur :: split_go sep [] s' else split_go sep (c :: cur) s'
  end.

Definition split (sep : N) (s : pystr) : list pystr := split_go sep [] s.

(** [[p for p in s.split("/") if p]] *)
Definition path_segments (s : pystr) : list pystr :=
  filter (fun p => p <> []) (split 47 s).

(** [[t.strip() for t in xs if t.strip()]] *)
Definition stripped_nonempty (xs : list pystr) : list pystr :=
  filter (fun t => t <> []) (map strip xs).

(** The loop that removes repeated tags and keeps the order. *)
Fixpoint dedupe (tags : list pystr) (seen : gset pystr) (dedup : list pystr)
    : list pystr :=
  match tags with
  | [] => dedup
  | t :: tags' =>
    if decide (t ∈ seen) then dedupe tags' seen dedup
    else dedupe tags' ({[t]} ∪ seen) (dedup ++ [t])
  end.

(** [a or b] on two lists *)
Definition list_or {A} (a b : list A) : list A :=
  match a with [] => b | _ => a end.

Definition opt_str (o : option pystr) : pyval :=
  match o with Some s => PStr s | None => PNone end.

Definition str_list (l : list pystr) : pyval := PList (map PStr l).

Definition BASE_SITE : pystr := u8 "https://www.gravurefit.com".

(** The code of the canonical URL. *)
Definition code_of_url (canon : pystr) : option pystr :=
  match re_search CODE_REGEX canon with
  | Some pieces => Some (upper (pieces_span pieces 1 3))
  | None =>
    match last (path_segments canon) with
    | Some seg => Some (upper seg)
    | None => None
    end
  end.

(** The body of [extract_gravure_fields]. The two files differ in the query
    of the performers, the query of the studio and the date finder, which are
    the three arguments. *)
Definition extract_fields (performers_query studio_query : string)
    (find_date : pystr -> option pystr) (html_content : pyval)
    : gmap string pyval :=
  let parsed :=
    match fromstring html_content with
    | Some doc => Some doc
    | None => fromstring (PStr (py_str html_content))
    end in
  match parsed with
  | None => ∅
  | Some doc =>
    let out : gmap string pyval := ∅ in
    (* Title *)
    let raw_title_list := xpath doc "//h1/text()" in
    let raw_title := strip <$> head raw_title_list in
    let out := <["title_raw" := opt_str raw_title]> out in
    let out := <["title" := opt_str (normalize_title raw_title)]> out in
    (* Details / description *)
    let details :=
      list_or (xpath doc "//meta[@name='description']/@content")
              (xpath doc "//p[@class='description']/text()") in
    let out := <["details" := opt_str (strip <$> head details)]> out in
    (* Date - earliest *)
    let text := default [] (tostring_text doc) in
    let out := <["date" := opt_str (find_date text)]> out in
    (* Performers *)
    let performers :=
      list_or (xpath doc performers_query)
              (xpath doc "//a[contains(@href,'/profile')]/text()") in
    let out := <["performers" := str_list (stripped_nonempty performers)]> out in
    (* Tags: Themes and Plays *)
    let themes :=
      xpath doc "//h2[contains(normalize-space(.),'テーマ')]/following-sibling::ul[1]//a/text()" in
    let tags := stripped_nonempty themes in
    let plays :=
      xpath doc "//h2[contains(normalize-space(.),'プレイ')]/following-sibling::ul[1]//a/text() | //h2[contains(normalize-space(.),'服装')]/following-sibling::ul[1]//a/text()" in
    let tags := tags ++ stripped_nonempty plays in
    let out := <["tags" := str_list (dedupe tags ∅ [])]> out in
    (* Image *)
    let image :=
      match xpath doc "//div[contains(@class,'photopc')]//img[1]/@src" with
      | i :: _ => Some i
      | [] =>
        match xpath doc "//img[contains(@class,'package')][1]/@src | //div[contains(@class,'video')]//img[1]/@src" with
        | i :: _ => Some i
        | [] => head (xpath doc "//meta[@property='og:image']/@content")
        end
      end in
    let out :=
      match image with
      | Some ((_ :: _) as image) =>
        let image :=
          if startswith (u8 "//") image then u8 "https:" ++ image
          else if startswith (u8 "/") image then BASE_SITE ++ image
          else image in
        <["image" := PStr image]> out
      | _ => <["image" := PNone]> out
      end in
    (* Studio / maker *)
    let manu := xpath doc studio_query in
    let out := <["studio" := opt_str (strip <$> head manu)]> out in
    (* Code *)
    let canon :=
      list_or (xpath doc "//link[@rel='canonical']/@href")
              (xpath doc "//meta[@property='og:url']/@content") in
    let code :=
      match canon with
      | c :: _ => code_of_url c
      | [] => None
      end in
    let out := <["code" := opt_str code]> out in
    out
  end.

(** Gravurefit_python.py *)
Definition extract_gravure_fields : pyval -> gmap string pyval :=
  extract_fields
    "//table//th[contains(text(),'女優')]/following-sibling::td//a/text()"
    "//table//th[contains(text(),'メーカー')]/following-sibling::td//text()"
    find_earliest_date_in_text.

(** JavLibrary_python.py *)
Definition extract_gravure_fields_javlibrary : pyval -> gmap string pyval :=
  extract_fields
    "//table//th[text()[contains(.,'女優')]]/following-sibling::td//a/text()"
    "//table//th[text()[contains(.,'メーカー')]]/following-sibling::td//text()"
    find_earliest_date_from_text.

(** ** The session file and the orchestrator *)

(** [int(v)] *)
Definition py_int (v : pyval) : res Z :=
  match v with
  | PInt z => Ok z
  | PBool b => Ok (if b then 1 else 0)%Z
  | PFloat (FFinite q) => Ok (Z.quot (Qnum q) (Zpos (Qden q)))
  | PFloat FNaN => Raise ValueError
  | PFloat (FInf _) => Raise OverflowError
  | PStr s => match int_of_str s with Some z => Ok z | None => Raise ValueError end
  | _ => Raise TypeError
  end.

(** [load_flaresolverr_session]: the parsed file, or [None] when there is no
    file or reading it raised. *)
Definition load_flaresolverr_session (f : session_file) : pyval :=
  match f with
  | Holds v => v
  | NoFile | Unreadable => PNone
  end.

Definition set_session (f : session_file) (w : world) : world :=
  {| session := f; raw_dir := raw_dir w; out_dir := out_dir w;
     writable := writable w; stdout := stdout w |}.

Definition set_raw_dir (d : directory) (w : world) : world :=
  {| session := session w; raw_dir := d; out_dir := out_dir w;
     writable := writable w; stdout := stdout w |}.

Definition set_out_dir (d : directory) (w : world) : world :=
  {| session := session w; raw_dir := raw_dir w; out_dir := d;
     writable := writable w; stdout := stdout w |}.

(** [save_flaresolverr_session]: the file is rewritten; a failure to open it
    is logged and leaves it as it was. *)
Definition save_flaresolverr_session (w : world) (now : Q) (cookies : pyval) : world :=
  if writable w then
    set_session
      (Holds (PDict [(u8 "timestamp", PInt (Qfloor now)); (u8 "cookies", cookies)])) w
  else w.

(** [prune_old_raws] and [prune_old_outputs]: the files whose modification
    time is before [now - days * 86400] are removed. *)
Definition prune (dir : directory) (now : Q) (days : Z) : directory :=
  let cutoff := (now - inject_Z (days * 86400))%Q in
  filter (fun kv => Qle_bool cutoff (fst (snd kv)) = true) dir.

(** [save_json(path, obj)] for a file of a directory, written at [mtime]. *)
Definition save_json (dir : directory) (can_write : bool) (name : pystr)
    (mtime : Q) (obj : pyval) : directory :=
  if can_write then <[name := (mtime, obj)]> dir else dir.

(** "Load saved FlareSolverr cookies if fresh": lines 344-349 of [main], and
    with the same text lines 319-324 ([bypass_protection]) and 674-675 of
    JavLibrary_python.py. [now] is what [time.time()] returns there. *)
Definition fresh_cookie_header (session_data : pyval) (now : Q) : res (option pystr) :=
  if truthy session_data then
    ts ← py_get_default session_data "timestamp" (PInt 0);
    t ← py_int ts;
    if Qle_bool (now - inject_Z t) (inject_Z FLARE_COOKIE_AGE_SECONDS) then
      cs ← py_get_default session_data "cookies" (PList []);
      build_cookie_header_from_list cs
    else mret None
  else mret None.

Definition HEADERS_BROWSER_LIKE : pydict :=
  [(u8 "User-Agent", PStr GRAVURE_USER_AGENT);
   (u8 "Accept", PStr (u8 "text/html,application/xhtml+xml,application/xml;q=0.9,image/avif,image/webp,image/apng,*/*;q=0.8"));
   (u8 "Accept-Language", PStr (u8 "ja-JP,ja;q=0.9,en-US;q=0.8,en;q=0.7"));
   (u8 "Referer", PStr (BASE_SITE ++ u8 "/"))].

(** [print(json.dumps(v))]: the value is put on standard output. *)
Definition print (v : pyval) (w : world) : world :=
  {| session := session w; raw_dir := raw_dir w; out_dir := out_dir w;
     writable := writable w; stdout := stdout w ++ [v] |}.

(** [parsed.get(k)] *)
Definition field (parsed : gmap string pyval) (k : string) : pyval :=
  default PNone (parsed !! k).

(** The result record of [main]. *)
Definition result_record (parsed : gmap string pyval) (SCENE_URL : pyval)
    (fs : FetchResult) : pyval :=
  PDict
    [(u8 "code", field parsed "code");
     (u8 "title", field parsed "title");
     (u8 "date", field parsed "date");
     (u8 "performers", py_or (field parsed "performers") (PList []));
     (u8 "tags", py_or (field parsed "tags") (PList []));
     (u8 "image", field parsed "image");
     (u8 "studio", field parsed "studio");
     (u8 "details", field parsed "details");
     (u8 "url", SCENE_URL);
     (u8 "_flaresolverr_raw", raw fs)].

(** Lines 358-365: the stem of the two debug files, from the URL the proxy
    reports or else from the scene URL. An exception in there is caught by
    the [try] around the block and leaves [raw_basename] at [None]. *)
Definition raw_basename_of (fs : FetchResult) (SCENE_URL : pyval) : option pystr :=
  let raw_url :=
    match raw fs with
    | PDict rd =>
      if truthy (dict_get rd "solution")
      then py_get (py_or (dict_get rd "solution") (PDict [])) "url"
      else Ok PNone
    | _ => Ok PNone
    end in
  match raw_url with
  | Raise _ => None
  | Ok raw_url =>
    let raw_url := if truthy raw_url then raw_url else SCENE_URL in
    match raw_url with
    | PStr u => Some (default (u8 "result") (last (path_segments u)))
    | _ => None
    end
  end.

(** Lines 366-367: the proxy answer is copied to [raw/]. *)
Definition save_raw (raw_basename : option pystr) (mtime : Q) (fs : FetchResult)
    (w : world) : world :=
  match raw_basename with
  | Some b =>
    set_raw_dir
      (save_json (raw_dir w) (writable w) (b ++ u8 "_flaresolverr_raw.json")
         mtime (raw fs)) w
  | None => w
  end.

(** Lines 405-409: the result is copied to [outputs/], under the same stem. *)
Definition save_output (raw_basename : option pystr) (mtime : Q) (result : pyval)
    (w : world) : world :=
  match raw_basename with
  | Some ((_ :: _) as b) =>
    set_out_dir (save_json (out_dir w) (writable w) (b ++ u8 ".json") mtime result) w
  | _ => w
  end.

(** [main] of Gravurefit_python.py. [stdin] is what [json.loads] makes of the
    standard input ([None]: it raised). The result is how [main] ends and the
    world it leaves. *)
Definition main (stdin : option pyval) (clk : clock) (w : world)
    : res unit * world :=
  match stdin with
  | None => (Ok (), print (PDict []) w)
  | Some FRAGMENT =>
    match py_get FRAGMENT "url" with
    | Raise e => (Raise e, w)
    | Ok SCENE_URL =>
      if negb (truthy SCENE_URL) then (Ok (), print (PDict []) w)
      else
        (* Prune old files *)
        let w := set_raw_dir (prune (raw_dir w) (at_prune_raws clk) OUTPUT_RETENTION_DAYS) w in
        let w := set_out_dir (prune (out_dir w) (at_prune_outputs clk) OUTPUT_RETENTION_DAYS) w in
        (* Load saved FlareSolverr cookies if fresh *)
        let session_data := load_flaresolverr_session (session w) in
        match fresh_cookie_header session_data (at_check clk) with
        | Raise e => (Raise e, w)
        | Ok cookie_header =>
          (* Fetch via FlareSolverr only *)
          let fs :=
            fetch_via_flaresolverr SCENE_URL FLARESOLVERR_URL
              (Some HEADERS_BROWSER_LIKE) cookie_header FLARESOLVERR_TIMEOUT_MAX in
          (* Save raw for debugging *)
          let raw_basename := raw_basename_of fs SCENE_URL in
          let w := save_raw raw_basename (at_raw_write clk) fs w in
          (* Save cookies returned by FlareSolverr for future reuse *)
          let fl_cookies := py_or (cookies fs) (PList []) in
          let w :=
            if truthy fl_cookies then save_flaresolverr_session w (at_save clk) fl_cookies
            else w in
          (* Parse if HTML present *)
          let parsed :=
            if ok fs && truthy (html fs) then extract_gravure_fields (html fs)
            else ∅ in
          let result := result_record parsed SCENE_URL fs in
          (* Save to OUT_DIR for traceability *)
          let w := save_output raw_basename (at_output_write clk) result w in
          (Ok (), print result w)
      end
    end
  end.

(** How a run of a script ends: with an exit status and what it printed, or
    with an exception nobody caught (a traceback and a status that is not 0). *)
Inductive run :=
  | Exits (status : Z) (printed : list pyval)
  | Uncaught (e : exn).

(** Running Gravurefit_python.py. *)
Definition run_gravurefit (stdin : option pyval) (clk : clock) (w : world) : run :=
  match main stdin clk w with
  | (Ok _, w') => Exits 0 (stdout w')
  | (Raise e, _) => Uncaught e
  end.

(** [cleanup_title]: [REPLACE_TITLE] is empty, its loop has nothing to do. *)
Definition cleanup_title (title : pyval) : pyval := title.

(** Running JavLibrary_python.py, from the reading of the fragment (line 523).
    The search and page functions the file calls further down
    ([send_request], [jav_search], ...) are not in the file; [rest] stands for
    the run from line 538 on. *)
Definition run_javlibrary (argv : list pystr) (stdin : option pyval)
    (rest : pyval -> pyval -> pyval -> run) : run :=
  match stdin with
  | None => Uncaught JSONDecodeError
  | Some FRAGMENT =>
    match
      name ← py_get FRAGMENT "name";
      url ← py_get FRAGMENT "url";
      title ← py_get FRAGMENT "title";
      mret (name, url, title)
    with
    | Raise e => Uncaught e
    | Ok (name, SCENE_URL, title) =>
      let SEARCH_TITLE := cleanup_title name in
      let SCENE_TITLE := if truthy title then cleanup_title title else PNone in
      if bool_decide (u8 "validSearch" ∈ argv) && is_none SCENE_URL then Exits 0 []
      else rest SEARCH_TITLE SCENE_URL SCENE_TITLE
    end
  end.

(** ** The other functions of JavLibrary_python.py *)

(** [c.isalnum()] of a character outside ASCII: the Unicode database. *)
Variable uni_alnum : N -> bool.

(** [urlparse(url).netloc]; it can raise [ValueError]. *)
Variable urlparse_netloc : pystr -> res pystr.

(** The table of banned words is empty in this file. *)
Definition BANNED_WORDS : list (pystr * pystr) := [].

Fixpoint table_lookup (table : list (pystr * pystr)) (k : pystr) : option pystr :=
  match table with
  | [] => None
  | (k', v) :: table' => if pystr_eqb k' k then Some v else table_lookup table' k
  end.

(** [replace_banned_words], on the text of the match. *)
Definition replace_banned_words (word : pystr) : pystr :=
  match table_lookup BANNED_WORDS word with
  | Some replacement => replacement
  | None => word
  end.

(** [pattern.sub(repl, text)] with a function [repl] of the matched text. *)
Fixpoint sub_fn_go (fuel : nat) (its : regex) (repl : pystr -> pystr)
    (at_bol : bool) (s : pystr) : pystr :=
  match fuel with
  | O => s
  | S fuel' =>
    match search_from its at_bol [] s with
    | None => s
    | Some (before, pieces, rest) =>
      if is_empty (concat pieces) then
        match rest with
        | c :: rest' => before ++ repl [] ++ c :: sub_fn_go fuel' its repl false rest'
        | [] => before ++ repl []
        end
      else before ++ repl (concat pieces) ++ sub_fn_go fuel' its repl false rest
    end
  end.

Definition re_sub_fn (its : regex) (repl : pystr -> pystr) (s : pystr) : pystr :=
  sub_fn_go (S (length s)) its repl true s.

(** [\w] on a [str]: a letter, a digit or the underscore. *)
Definition is_word (c : N) : bool :=
  if c <? 128 then is_ascii_alpha c || in_range 48 57 c || (c =? 95)
  else uni_alnum c.

(** [word_pattern]: a run of word characters and asterisks. *)
Definition WORD_PATTERN : regex := [plus (fun c => is_word c || (c =? 42))].

(** The two square brackets and the double quote. *)
Definition is_bracket_or_quote (c : N) : bool := (c =? 91) || (c =? 93) || (c =? 34).

Definition BRACKETS_AND_QUOTES : regex := [one is_bracket_or_quote].

Definition regexreplace (input_replace : pystr) : pystr :=
  let output := re_sub_fn WORD_PATTERN replace_banned_words input_replace in
  re_sub_empty BRACKETS_AND_QUOTES output.

(** What an XPath query of node sets returns: elements, and the strings of
    text nodes and attributes. An element is its [text_content()]. *)
Inductive xnode :=
  | XElement (text_content : pystr)
  | XText (s : pystr).

Fixpoint mapM_res {A B} (f : A -> res B) (l : list A) : res (list B) :=
  match l with
  | [] => Ok []
  | x :: l' => y ← f x; ys ← mapM_res f l'; mret (y :: ys)
  end.

(** [getxpath(xpath, tree)]; [tree] is its [xpath] method, which can raise. *)
Definition getxpath (xpath : option pystr) (tree : pystr -> res (list xnode))
    : res (option (list pystr)) :=
  match xpath with
  | None | Some [] => Ok None
  | Some xpath =>
    xpath_result ←
      (if bool_decide (124 ∈ xpath)
       then sublists ← mapM_res tree (split 124 xpath); mret (concat sublists)
       else tree xpath);
    let list_tmp :=
      map (fun x_res =>
             match x_res with
             | XElement text_content => strip text_content
             | XText s => strip s
             end)
          xpath_result in
    mret (Some (filter (fun x => x <> []) list_tmp))
  end.

(** *** The Gravurefit branch of the script, lines 674-718 *)


(** The freshness test of lines 319-324 and 674-675; in this file the window
    is the constant 3600. *)
Definition jav_cookie_header (session_data : pyval) (now : Q) : res (option pystr) :=
  if truthy session_data then
    ts ← py_get_default session_data "timestamp" (PInt 0);
    t ← py_int ts;
    if Qle_bool (now - inject_Z t) 3600 then
      cs ← py_get_default session_data "cookies" (PList []);
      build_cookie_header_from_list cs
    else mret None
  else mret None.




(** *** [bypass_protection] *)

Definition SITE_JAVLIB : list pystr := [u8 "javlibrary"; u8 "o58c"; u8 "e59f"].

(** [re.sub(r"www\.|\.com", "", s)]; [skip] counts the characters of a match
    still to be dropped. *)
Fixpoint remove_www_com (skip : nat) (s : pystr) : pystr :=
  match s with
  | [] => []
  | c :: s' =>
    match skip with
    | S k => remove_www_com k s'
    | O =>
      if startswith (u8 "www.") s || startswith (u8 ".com") s
      then remove_www_com 3 s'
      else c :: remove_www_com 0 s'
    end
  end.

(** [s.replace(old, new)] *)
Fixpoint replace_go (old new : pystr) (skip : nat) (s : pystr) : pystr :=
  match s with
  | [] => []
  | c :: s' =>
    match skip with
    | S k => replace_go old new k s'
    | O =>
      if startswith old s then new ++ replace_go old new (pred (length old)) s'
      else c :: replace_go old new 0 s'
    end
  end.

Definition py_replace (old new s : pystr) : pystr :=
  match old with
  | [] => new ++ concat (map (fun c => c :: new) s)
  | _ => replace_go old new 0 s
  end.

(** [needle in hay] for two strings *)
Fixpoint is_infix (needle hay : pystr) : bool :=
  startswith needle hay
  || match hay with
     | [] => false
     | _ :: hay' => is_infix needle hay'
     end.

(** [needle in hay] for a string and any value: a substring of a string, a
    member of a list, a key of a dict; other values are not containers. *)
Definition str_in (needle : pystr) (hay : pyval) : res bool :=
  match hay with
  | PStr s => Ok (is_infix needle s)
  | PList l =>
    Ok (existsb (fun v => match v with PStr t => pystr_eqb needle t | _ => false end) l)
  | PDict d => Ok (existsb (fun kv => pystr_eqb needle (fst kv)) d)
  | _ => Raise TypeError
  end.

(** [v == 200] *)
Definition is_200 (v : pyval) : bool :=
  match v with
  | PInt z => (z =? 200)%Z
  | PFloat (FFinite q) => Qeq_bool q 200
  | _ => false
  end.

(** The attributes of [ResponseHTML] after an attempt. *)
Record ResponseHTML := mkResponseHTML {
  rh_content : pyval;
  rh_html : pyval;
  rh_status_code : pyval;
  rh_url : pystr
}.

Definition CAPTCHA_MARK : pystr := u8 "Why do I have to complete a CAPTCHA?".
Definition BROWSER_CHECK_MARK : pystr := u8 "Checking your browser before accessing".

(** The test of lines 350-351: one of the two marks is in the page. *)
Definition cloudflare_marks (page : pyval) : res bool :=
  match str_in CAPTCHA_MARK page with
  | Ok false => str_in BROWSER_CHECK_MARK page
  | found => found
  end.

(** The loop over the sites, from site number [i] on. [times i] is what
    [time.time()] returns at the freshness test and at the saving of the
    cookies of that attempt. The result is what the function returns ([None]
    for the pair [None, None]), the flag [PROTECTION_CLOUDFLARE] and the
    world. An exception inside the [try] returns [None, None]; one in the
    tests behind it is not caught. *)
Fixpoint bypass_sites (url url_domain : pystr) (sites : list pystr) (i : nat)
    (times : nat -> Q * Q) (cloudflare : bool) (w : world)
    : res (option (pystr * ResponseHTML)) * bool * world :=
  match sites with
  | [] => (Ok None, cloudflare, w)
  | site :: sites' =>
    let url_n := py_replace url_domain site url in
    let session_data := load_flaresolverr_session (session w) in
    match jav_cookie_header session_data (fst (times i)) with
    | Raise _ => (Ok None, cloudflare, w)
    | Ok cookie_header =>
      let fs_res :=
        fetch_via_flaresolverr (PStr url_n) FLARESOLVERR_URL
          (Some [(u8 "Content-Type", PStr (u8 "application/json"))])
          cookie_header 60000 in
      let response_html :=
        {| rh_content := py_or (html fs_res) (PStr []);
           rh_html := py_or (html fs_res) (PStr []);
           rh_status_code :=
             py_or (status fs_res) (PInt (if ok fs_res then 200 else 0));
           rh_url := url_n |} in
      let returned_cookies := py_or (cookies fs_res) (PList []) in
      let w :=
        if truthy returned_cookies
        then save_flaresolverr_session w (snd (times i)) returned_cookies
        else w in
      match cloudflare_marks (rh_html response_html) with
      | Raise e => (Raise e, cloudflare, w)
      | Ok true => bypass_sites url url_domain sites' (S i) times true w
      | Ok false =>
        if negb (is_200 (rh_status_code response_html))
        then bypass_sites url url_domain sites' (S i) times cloudflare w
        else (Ok (Some (site, response_html)), cloudflare, w)
      end
    end
  end.

Definition bypass_protection (url : pystr) (times : nat -> Q * Q) (w : world)
    : res (option (pystr * ResponseHTML)) * bool * world :=
  match urlparse_netloc url with
  | Raise e => (Raise e, false, w)
  | Ok netloc =>
    let url_domain := remove_www_com 0 netloc in
    bypass_sites url url_domain SITE_JAVLIB 0 times false w
  end.

(** * The vocabulary of the properties *)

(** An entry the loop keeps: a truthy [name] and a [value] that is not [None]. *)
Definition cookie_valid (c : pydict) : bool :=
  truthy (dict_get c "name") && negb (is_none (dict_get c "value")).

(** The [name=value] text of an entry. *)
Definition cookie_pair (c : pydict) : pystr :=
  py_str (dict_get c "name") ++ u8 "=" ++ py_str (dict_get c "value").

(** The two body shapes of the shape-invariance property. *)
Definition body_solution (h : pystr) : pyval :=
  PDict [(u8 "solution", PDict [(u8 "response", PDict [(u8 "data", PStr h)])])].

Definition body_response (h : pystr) : pyval :=
  PDict [(u8 "response", PStr h)].



(** What the extractor puts in its lists: texts that are not empty and that
    [strip] leaves as they are. *)
Definition clean (p : pystr) : Prop := p <> [] /\ strip p = p.

(** The nine keys of an extracted record. *)
Definition nine_keys : gset string :=
  {[ "title_raw"; "title"; "details"; "date"; "performers"; "tags"; "image";
     "studio"; "code" ]}.

(** An extracted record: the nine keys, performers and tags lists of clean
    texts, no tag twice. *)
Definition well_shaped (out : gmap string pyval) : Prop :=
  dom out = nine_keys
  /\ (exists ps, out !! "performers" = Some (str_list ps) /\ Forall clean ps)
  /\ (exists ts, out !! "tags" = Some (str_list ts) /\ Forall clean ts /\ NoDup ts).

(** What an item lets through: a run of its class, at least [lo] long. *)
Definition piece_ok (it : item) (p : pystr) : Prop :=
  match it with
  | Rep cls lo _ _ => Forall (fun c => cls c = true) p /\ (lo <= length p)%nat
  | Bol | Eol => p = []
  end.

(** The first character of a text is outside a class (or the text is empty). *)
Definition stops (cls : N -> bool) (s : pystr) : Prop :=
  match s with c :: _ => cls c = false | [] => True end.

(** The three steps of [normalize_title], each followed by [strip]. *)
Definition strip_performer_prefix (t : pystr) : pystr :=
  strip (re_sub_empty PERFORMER_PREFIX t).

Definition strip_code_suffix (t : pystr) : pystr :=
  strip (re_sub_empty CODE_SUFFIX t).

Definition strip_code_prefix (t : pystr) : pystr :=
  strip (re_sub_empty CODE_PREFIX t).

(** A date [datetime] accepts. *)
Definition valid (dt : date) : Prop :=
  let '(y, m, d) := dt in valid_date y m d = true.

(** A run of [w] ASCII digits. *)
Definition digits_of_width (w : nat) (s : pystr) : bool :=
  (length s =? w)%nat && forallb (in_range 48 57) s.


(** The image URL the extractor makes of the [src] it found: lines 293-297. *)
Definition absolute_image (src : pystr) : pystr :=
  if startswith (u8 "//") src then u8 "https:" ++ src
  else if startswith (u8 "/") src then BASE_SITE ++ src
  else src.

(** A run of [w] ASCII digits that [int] reads as [z]. *)
Definition reads_back (w : nat) (s : pystr) (z : Z) : bool :=
  (length s =? w)%nat
  && match ascii_digits s with Some z' => (z' =? z)%Z | None => false end.

(** The year of a date. *)
Definition year_of (dt : date) : Z := fst (fst dt).

(** A text that occurs in another as one piece. *)
Definition part_of (t s : pystr) : Prop := exists a b, s = a ++ t ++ b.

(** What a run that started in [w] and ended in [w'] put on standard output. *)
Definition printed (w w' : world) : list pyval :=
  drop (length (stdout w)) (stdout w').

(** The record [main] prints after a fetch. *)
Definition scene_record (code title date : pyval) (performers tags : list pyval)
    (image studio details url answer : pyval) : pyval :=
  PDict
    [(u8 "code", code); (u8 "title", title); (u8 "date", date);
     (u8 "performers", PList performers); (u8 "tags", PList tags);
     (u8 "image", image); (u8 "studio", studio); (u8 "details", details);
     (u8 "url", url); (u8 "_flaresolverr_raw", answer)].

(** The oldest modification time [prune_old_raws] and [prune_old_outputs]
    leave in place when they run at [now]. *)
Definition cutoff (now : Q) : Q := (now - inject_Z (OUTPUT_RETENTION_DAYS * 86400))%Q.

(** The fetch of [main] (line 353) and the record it builds from the answer
    (lines 382-402). *)
Definition main_fetch (url : pyval) (cookie_header : option pystr) : FetchResult :=
  fetch_via_flaresolverr url FLARESOLVERR_URL (Some HEADERS_BROWSER_LIKE)
    cookie_header FLARESOLVERR_TIMEOUT_MAX.

Definition main_result (url : pyval) (fs : FetchResult) : pyval :=
  result_record
    (if ok fs && truthy (html fs) then extract_gravure_fields (html fs) else ∅)
    url fs.

(** A value that is its default [dflt] or truthy: what a chain
    [a or b or dflt] evaluates to. *)
Definition default_or_truthy (dflt v : pyval) : Prop := v = dflt \/ truthy v = true.

(** A JSON object. *)
Definition is_dict (v : pyval) : bool :=
  match v with PDict _ => true | _ => false end.

(** The content of a session file written at [now] with [cookies]. *)
Definition session_payload (now : Q) (cookies : pyval) : pyval :=
  PDict [(u8 "timestamp", PInt (Qfloor now)); (u8 "cookies", cookies)].

(** * A concrete environment

    An interpreter and surroundings to run the definitions in: ASCII digits
    and letters only, a parser that knows one page, given as the table of the
    results of its queries. *)

Definition sample_repr (v : pyval) : pystr := u8 "<object>".
Definition sample_uni_digit (c : N) : option N := None.
Definition sample_uni_upper (c : N) : pystr := [c].

Definition sample_int_of_str (s : pystr) : option Z :=
  if forallb (in_range 48 57) s && negb (is_empty s)
  then Some (fold_left (fun acc c => acc * 10 + Z.of_N (c - 48))%Z s 0%Z)
  else None.

Definition page := string -> list pystr.

Definition lulu_page : page := fun query =>
  if String.eqb query "//h1/text()"
  then [u8 " 本田瞳 - LULU-255：Scene Title / LULU255 "]
  else if String.eqb query "//link[@rel='canonical']/@href"
  then [u8 "https://www.gravurefit.com/videos/lulu-255"]
  else if String.eqb query "//h2[contains(normalize-space(.),'テーマ')]/following-sibling::ul[1]//a/text()"
  then [u8 "A"; u8 " B "; u8 "  "]
  else if String.eqb query "//h2[contains(normalize-space(.),'プレイ')]/following-sibling::ul[1]//a/text() | //h2[contains(normalize-space(.),'服装')]/following-sibling::ul[1]//a/text()"
  then [u8 "A"; u8 "C"]
  else if String.eqb query "//meta[@property='og:image']/@content"
  then [u8 "//img.gravurefit.com/lulu-255.jpg"]
  else [].

Definition sample_fromstring (v : pyval) : option page :=
  match v with
  | PStr (_ :: _) => Some lulu_page
  | _ => None
  end.

Definition sample_xpath (doc : page) (query : string) : list pystr := doc query.

Definition sample_tostring (doc : page) : option pystr :=
  Some (u8 "Scene Title 配信開始日 2019-05-01 発売日 2019年3月1日").

Definition DEFAULT_URL : pystr := u8 "http://127.0.0.1:8191/v1".

(** A proxy that cannot be reached. *)
Definition proxy_down (endpoint : pystr) (payload : pyval) : http_outcome :=
  PostRaises (u8 "Connection refused").

(** A proxy that answers every request with the JSON value [data]. *)
Definition proxy_answers (data : pyval) (endpoint : pystr) (payload : pyval)
    : http_outcome :=
  PostBody (u8 "(the JSON text)") (Some data).

(** Two deployments of the proxy: the default endpoint wraps the page in
    [solution.response.data], any other one puts it under [response]. *)
Definition two_proxies (h : pystr) (endpoint : pystr) (payload : pyval)
    : http_outcome :=
  if pystr_eqb endpoint DEFAULT_URL
  then PostBody (u8 "(the JSON text)") (Some (body_solution h))
  else PostBody (u8 "(the JSON text)") (Some (body_response h)).

Definition scene_url : pyval := PStr (u8 "https://www.gravurefit.com/videos/lulu-255").

Definition other_endpoint : pystr := u8 "http://10.0.0.2:8191/v1".


(** A session saved at second 1000 with one cookie. *)
Definition saved_session : pydict :=
  [(u8 "timestamp", PInt 1000);
   (u8 "cookies", PList [PDict [(u8 "name", PStr (u8 "cf_clearance"));
                                (u8 "value", PStr (u8 "abc"))]])].

(** A world with that session and nothing else, and a clock. *)
Definition sample_world : world :=
  {| session := Holds (PDict saved_session); raw_dir := ∅; out_dir := ∅;
     writable := true; stdout := [] |}.

Definition sample_clock : clock :=
  {| at_prune_raws := 2000; at_prune_outputs := 2000; at_check := 2000;
     at_raw_write := 2003; at_save := 2003; at_output_write := 2004 |}.

(** A world with the same session, other files, and no right to write; and a
    clock that differs in all but the time of the freshness test. *)
Definition read_only_world : world :=
  {| session := Holds (PDict saved_session);
     raw_dir := {[ u8 "old_flaresolverr_raw.json" := (0%Q, PNone) ]};
     out_dir := ∅; writable := false; stdout := [PStr (u8 "(earlier output)")] |}.

Definition late_clock : clock :=
  {| at_prune_raws := 9000000; at_prune_outputs := 9000000; at_check := 2000;
     at_raw_write := 9000001; at_save := 9000002; at_output_write := 9000003 |}.



Definition plain_answer : pyval :=
  PDict [(u8 "solution",
          PDict [(u8 "status", PInt 200);
                 (u8 "response", PStr (u8 "<html>(the page)</html>"))])].

(** A URL parser that knows one host, a JavLibrary URL, and the times of the
    attempts of [bypass_protection]. *)
Definition sample_netloc (url : pystr) : res pystr := Ok (u8 "www.javlibrary.com").

Definition javlibrary_url : pystr := u8 "https://www.javlibrary.com/en/?v=abc".

Definition sample_times (i : nat) : Q * Q := (2000%Q, 2003%Q).

Definition javlibrary_response : ResponseHTML :=
  {| rh_content := PStr (u8 "<html>(the page)</html>");
     rh_html := PStr (u8 "<html>(the page)</html>");
     rh_status_code := PInt 200;
     rh_url := javlibrary_url |}.

(** A tree that answers two queries. *)
Definition sample_tree (query : pystr) : res (list xnode) :=
  if pystr_eqb query (u8 "//h3/a")
  then Ok [XText (u8 " ABC-123 Title "); XElement (u8 "  ")]
  else if pystr_eqb query (u8 "//h3/b")
  then Ok [XElement (u8 "Maker ")]
  else Ok [].

(** * Properties *)

(** ** The cookie header *)

Lemma py_get_dict d k : py_get (PDict d) k = Ok (dict_get d k).
Proof. reflexivity. Qed.

Lemma cookie_parts_dicts (cs : list pydict) (acc : list pystr) :
  cookie_parts (PDict <$> cs) acc
  = Ok (acc ++ (cookie_pair <$> List.filter cookie_valid cs)).
Proof.
  revert acc. induction cs as [|c cs IH]; intros acc.
  - cbn. by rewrite app_nil_r.
  - rewrite fmap_cons. cbn [cookie_parts]. rewrite !py_get_dict.
    cbn [mbind res_bind]. cbn [List.filter].
    fold (cookie_valid c). destruct (cookie_valid c).
    + rewrite IH. rewrite fmap_cons. unfold cookie_pair at 2.
      by rewrite <- app_assoc.
    + apply IH.
Qed.

Lemma join_nil_inv sep (ps : list pystr) :
  join sep ps = [] -> Forall (fun p => p = []) ps.
Proof.
  induction ps as [|p ps IH]; [constructor|].
  destruct ps as [|q ps]; cbn [join].
  - intros ->. by constructor.
  - intros H. apply app_eq_nil in H as [-> H]. constructor; [done|].
    apply app_eq_nil in H as [_ H]. by apply IH.
Qed.

Lemma cookie_parts_nonempty (cs : list pyval) (acc parts : list pystr) :
  Forall (fun p => p <> []) acc ->
  cookie_parts cs acc = Ok parts -> Forall (fun p => p <> []) parts.
Proof.
  revert acc. induction cs as [|c cs IH]; intros acc Hacc; cbn [cookie_parts].
  - by intros [= <-].
  - destruct (py_get c "name") as [name|]; [|done].
    destruct (py_get c "value") as [val|]; [|done].
    cbn [mbind res_bind].
    destruct (truthy name && negb (is_none val)); [|by apply IH].
    apply IH. apply Forall_app. split; [done|].
    constructor; [|constructor].
    intros H. apply app_eq_nil in H as [_ H]. by apply app_eq_nil in H as [H _].
Qed.

Lemma filter_nil_Forall {A} (f : A -> bool) (l : list A) :
  List.filter f l = [] <-> Forall (fun x => f x = false) l.
Proof.
  induction l as [|x l IH]; cbn.
  - split; [constructor|done].
  - destruct (f x) eqn:E.
    + split; [done|]. intros H. inversion H; congruence.
    + rewrite IH. split.
      * intros H; by constructor.
      * intros H; by inversion H.
Qed.

(** C6. On a list of cookie records [build_cookie_header_from_list] returns
    the [name=value] texts of the entries it keeps (truthy name, value not
    [None]), in the order of the list and joined by "; "; it returns [None]
    exactly when it keeps no entry, that is on the empty list and on a list
    whose entries all have an empty or missing name or a null value; and it
    never returns the empty string. *)
Theorem build_cookie_header_from_list_spec (cookies : list pydict) :
  let kept := List.filter cookie_valid cookies in
  let header := build_cookie_header_from_list (PList (PDict <$> cookies)) in
  header = Ok (if is_empty kept then None
               else Some (join (u8 "; ") (cookie_pair <$> kept)))
  /\ (header = Ok None <->
      Forall (fun c => truthy (dict_get c "name") = false
                       \/ dict_get c "value" = PNone) cookies)
  /\ header <> Ok (Some []).
Proof.
  intros kept header.
  assert (Hh : header = Ok (if is_empty kept then None
               else Some (join (u8 "; ") (cookie_pair <$> kept)))).
  { unfold header, build_cookie_header_from_list. cbn [py_iter mbind res_bind].
    rewrite cookie_parts_dicts. cbn [app mret res_ret].
    subst kept. by destruct (List.filter cookie_valid cookies). }
  split; [exact Hh|]. split.
  - rewrite Hh. subst kept. split.
    + intros H.
      assert (Hnil : List.filter cookie_valid cookies = [])
        by (destruct (List.filter cookie_valid cookies); [done|discriminate H]).
      apply filter_nil_Forall in Hnil.
      eapply Forall_impl; [exact Hnil|]. intros c. unfold cookie_valid.
      destruct (truthy (dict_get c "name")); [|by left].
      destruct (dict_get c "value"); cbn; try discriminate. by right.
    + intros H.
      assert (Hnil : List.filter cookie_valid cookies = []).
      { apply filter_nil_Forall. eapply Forall_impl; [exact H|].
        intros c [Hn|Hv]; unfold cookie_valid; [by rewrite Hn|].
        rewrite Hv. cbn. by rewrite andb_false_r. }
      by rewrite Hnil.
  - rewrite Hh. destruct kept as [|c kept']; [done|].
    cbn [is_empty]. intros H.
    assert (H' : join (u8 "; ") (cookie_pair <$> c :: kept') = []) by congruence.
    apply join_nil_inv in H'.
    rewrite fmap_cons in H'. inversion H' as [|? ? Hc _]; subst.
    unfold cookie_pair in Hc. apply app_eq_nil in Hc as [_ Hc].
    by apply app_eq_nil in Hc as [Hc _].
Qed.

(** Whatever it is given, the function does not return the empty string. *)
Lemma build_cookie_header_never_empty (v : pyval) :
  build_cookie_header_from_list v <> Ok (Some []).
Proof.
  unfold build_cookie_header_from_list.
  destruct (py_iter v) as [cs|]; [|done]. cbn [mbind res_bind].
  destruct (cookie_parts cs []) as [parts|] eqn:E; [|done].
  cbn [mbind res_bind mret res_ret].
  apply cookie_parts_nonempty in E; [|constructor].
  destruct parts as [|p parts]; [done|]. cbn [is_empty].
  intros H. unfold mret, res_ret in H.
  assert (H' : join (u8 "; ") (p :: parts) = []) by congruence.
  apply join_nil_inv in H'.
  inversion H'; subst. by inversion E.
Qed.

(** ** The fetch client *)


Lemma fetch_json (url : pyval) (flaresolverr_url : pystr)
    (headers : option pydict) (cookie_header : option pystr) (timeout : Z)
    (text : pystr) (data : pyval) :
  requests_post flaresolverr_url
    (request_payload url headers cookie_header timeout)
  = PostBody text (Some data) ->
  fetch_via_flaresolverr url flaresolverr_url headers cookie_header timeout
  = shape_fallback data.
Proof. intros H. unfold fetch_via_flaresolverr. by rewrite H. Qed.

Lemma shape_fallback_solution (h : pystr) :
  shape_fallback (body_solution h)
  = {| ok := negb (is_empty h); status := PNone;
       html := if is_empty h then PNone else PStr h;
       cookies := PList []; raw := body_solution h |}.
Proof. destruct h; vm_compute; reflexivity. Qed.

Lemma shape_fallback_response (h : pystr) :
  shape_fallback (body_response h)
  = {| ok := negb (is_empty h); status := PNone; html := PStr h;
       cookies := PList []; raw := body_response h |}.
Proof. destruct h; vm_compute; reflexivity. Qed.

(** C2 (amended). For every HTML string [h], the fetch client gives the same
    [ok] flag on a body shaped [{solution:{response:{data:h}}}] and on one
    shaped [{response:h}], namely whether [h] is non-empty; and for every
    non-empty [h] both give [h] as their html. (On the empty string the first
    shape gives no html and the second gives the empty string.) *)
Theorem fetch_shape_invariant (h : pystr)
    (url1 url2 : pyval) (endpoint1 endpoint2 : pystr)
    (headers1 headers2 : option pydict) (cookie1 cookie2 : option pystr)
    (timeout1 timeout2 : Z) (text1 text2 : pystr) :
  requests_post endpoint1 (request_payload url1 headers1 cookie1 timeout1)
    = PostBody text1 (Some (body_solution h)) ->
  requests_post endpoint2 (request_payload url2 headers2 cookie2 timeout2)
    = PostBody text2 (Some (body_response h)) ->
  let r1 := fetch_via_flaresolverr url1 endpoint1 headers1 cookie1 timeout1 in
  let r2 := fetch_via_flaresolverr url2 endpoint2 headers2 cookie2 timeout2 in
  ok r1 = ok r2
  /\ ok r1 = negb (is_empty h)
  /\ (h <> [] -> html r1 = PStr h /\ html r2 = PStr h).
Proof.
  intros H1 H2 r1 r2. subst r1 r2.
  rewrite (fetch_json _ _ _ _ _ _ _ H1), (fetch_json _ _ _ _ _ _ _ H2).
  rewrite shape_fallback_solution, shape_fallback_response. cbn [ok html].
  repeat split; by destruct h.
Qed.

Lemma pystr_eqb_eq (a b : pystr) : pystr_eqb a b = true <-> a = b.
Proof.
  revert b. induction a as [|x a IH]; intros [|y b]; cbn; try (split; congruence).
  rewrite andb_true_iff, N.eqb_eq, IH. split; [intros [-> ->]; done|].
  intros [= -> ->]; done.
Qed.












(** ** The field extractor *)

Lemma lstrip_fixed (s : pystr) :
  match s with c :: _ => is_space c = false | [] => True end -> lstrip s = s.
Proof. destruct s as [|c s]; [done|]. cbn. by intros ->. Qed.

Lemma lstrip_head (s : pystr) :
  match lstrip s with c :: _ => is_space c = false | [] => True end.
Proof.
  induction s as [|c s IH]; [done|]. cbn.
  destruct (is_space c) eqn:E; [exact IH|exact E].
Qed.

Lemma lstrip_split (s : pystr) :
  exists w, s = w ++ lstrip s /\ Forall (fun c => is_space c = true) w.
Proof.
  induction s as [|c s (w & Hw & Hf)].
  - by exists [].
  - cbn. destruct (is_space c) eqn:E.
    + exists (c :: w). split; [by rewrite Hw at 1|by constructor].
    + by exists [].
Qed.

Lemma rstrip_split (s : pystr) :
  exists w, s = rstrip s ++ w /\ Forall (fun c => is_space c = true) w.
Proof.
  destruct (lstrip_split (rev s)) as (w & Hw & Hf).
  exists (rev w). split.
  - unfold rstrip. rewrite <- rev_app_distr, <- Hw. by rewrite rev_involutive.
  - by apply List.Forall_rev.
Qed.

Lemma rstrip_idem (s : pystr) : rstrip (rstrip s) = rstrip s.
Proof.
  unfold rstrip. rewrite rev_involutive. f_equal.
  apply lstrip_fixed, lstrip_head.
Qed.

Lemma rstrip_keeps_head (s : pystr) :
  match s with c :: _ => is_space c = false | [] => True end ->
  match rstrip s with c :: _ => is_space c = false | [] => True end.
Proof.
  intros H. destruct (rstrip_split s) as (w & Hw & Hf).
  destruct (rstrip s) as [|c r]; [done|].
  rewrite Hw in H. exact H.
Qed.

Lemma strip_idem (s : pystr) : strip (strip s) = strip s.
Proof.
  unfold strip at 1.
  rewrite (lstrip_fixed (strip s)).
  - unfold strip. apply rstrip_idem.
  - unfold strip. apply rstrip_keeps_head, lstrip_head.
Qed.

Lemma stripped_nonempty_clean (xs : list pystr) : Forall clean (stripped_nonempty xs).
Proof.
  apply Forall_forall. intros p Hp. unfold stripped_nonempty in Hp.
  apply list_elem_of_filter in Hp as [Hne Hp].
  apply list_elem_of_fmap in Hp as (x & -> & _).
  split; [exact Hne|apply strip_idem].
Qed.

Lemma dedupe_inv (P : pystr -> Prop) (tags : list pystr) (seen : gset pystr)
    (dedup : list pystr) :
  (forall t, t ∈ seen <-> t ∈ dedup) -> NoDup dedup ->
  Forall P dedup -> Forall P tags ->
  NoDup (dedupe tags seen dedup) /\ Forall P (dedupe tags seen dedup).
Proof.
  revert seen dedup. induction tags as [|t tags IH]; intros seen dedup Hs Hn Hd Ht.
  - done.
  - cbn [dedupe]. inversion Ht as [|? ? Hpt Ht']; subst.
    destruct (decide (t ∈ seen)) as [Hin|Hin]; [by apply IH|].
    apply IH; [| | |done].
    + intros x. rewrite elem_of_union, elem_of_singleton, elem_of_app, list_elem_of_singleton, Hs.
      split; (intros [H|H]; [by right|by left]).
    + apply NoDup_app. split; [done|]. split; [|apply NoDup_singleton].
      intros x Hx Hx'. apply list_elem_of_singleton in Hx'. subst x.
      apply Hin, Hs, Hx.
    + apply Forall_app. split; [done|]. by constructor.
Qed.

Lemma dedupe_clean (tags : list pystr) :
  Forall clean tags ->
  NoDup (dedupe tags ∅ []) /\ Forall clean (dedupe tags ∅ []).
Proof.
  intros H. apply dedupe_inv; [|constructor|constructor|exact H].
  intros t. split; [intros Ht; by apply not_elem_of_empty in Ht|intros Ht; inversion Ht].
Qed.

Lemma extract_fields_shape (performers_query studio_query : string)
    (find_date : pystr -> option pystr) (html_content : pyval) :
  let out := extract_fields performers_query studio_query find_date html_content in
  (fromstring html_content = None
   /\ fromstring (PStr (py_str html_content)) = None /\ out = ∅)
  \/ ((fromstring html_content <> None
       \/ fromstring (PStr (py_str html_content)) <> None)
      /\ well_shaped out).
Proof.
  intros out. subst out. unfold extract_fields.
  set (parsed := match fromstring html_content with
                 | Some doc => Some doc
                 | None => fromstring (PStr (py_str html_content))
                 end).
  assert (Hp : parsed = None ->
               fromstring html_content = None
               /\ fromstring (PStr (py_str html_content)) = None).
  { subst parsed. by destruct (fromstring html_content). }
  assert (Hq : forall doc, parsed = Some doc ->
               fromstring html_content <> None
               \/ fromstring (PStr (py_str html_content)) <> None).
  { subst parsed. intros doc. destruct (fromstring html_content); [by left|].
    intros ->. by right. }
  destruct parsed as [doc|]; [right|left; by destruct Hp].
  split; [by eapply Hq|]. clear Hp Hq.
  set (tags := stripped_nonempty _ ++ stripped_nonempty _).
  assert (Htags : Forall clean tags)
    by (apply Forall_app; split; apply stripped_nonempty_clean).
  destruct (dedupe_clean tags Htags) as [Hnd Hcl].
  match goal with
  | |- well_shaped (<[ _ := _ ]> (<[ _ := _ ]> ?m)) => set (withimage := m)
  end.
  assert (Him : exists v base, withimage = <["image" := v]> base
                /\ dom base = {[ "title_raw"; "title"; "details"; "date"; "performers"; "tags" ]}
                /\ base !! "performers"
                   = Some (str_list (stripped_nonempty
                        (list_or (xpath doc performers_query)
                           (xpath doc "//a[contains(@href,'/profile')]/text()"))))
                /\ base !! "tags" = Some (str_list (dedupe tags ∅ []))).
  { subst withimage.
    match goal with
    | |- context [match ?i with Some _ => _ | None => _ end = _] => destruct i as [[|c im]|]
    end; eexists _, _; (split; [reflexivity|]); (split; [|split; reflexivity]);
    rewrite !dom_insert_L, dom_empty_L; set_solver. }
  destruct Him as (v & base & -> & Hdom & Hperf & Htag).
  split; [|split].
  - rewrite !dom_insert_L, Hdom. unfold nine_keys. set_solver.
  - eexists. split; [|apply stripped_nonempty_clean].
    rewrite !lookup_insert_ne by done. exact Hperf.
  - eexists. split; [|split; [exact Hcl|exact Hnd]].
    rewrite !lookup_insert_ne by done. exact Htag.
Qed.

(** C10. For every HTML input the extractor of either file returns the empty
    mapping, and then both parse attempts failed, or a mapping with exactly
    the nine keys [title_raw], [title], [details], [date], [performers],
    [tags], [image], [studio], [code], in which [performers] and [tags] are
    lists of non-empty stripped strings and no tag occurs twice. *)
Theorem extract_gravure_fields_shape (html_content : pyval) :
  ((fromstring html_content = None
    /\ fromstring (PStr (py_str html_content)) = None
    /\ extract_gravure_fields html_content = ∅)
   \/ ((fromstring html_content <> None
        \/ fromstring (PStr (py_str html_content)) <> None)
       /\ well_shaped (extract_gravure_fields html_content)))
  /\ ((fromstring html_content = None
       /\ fromstring (PStr (py_str html_content)) = None
       /\ extract_gravure_fields_javlibrary html_content = ∅)
      \/ ((fromstring html_content <> None
           \/ fromstring (PStr (py_str html_content)) <> None)
          /\ well_shaped (extract_gravure_fields_javlibrary html_content))).
Proof. split; apply extract_fields_shape. Qed.

(** ** Matching *)

Lemma rep_sound {R} cls greedy lo hi (k : pystr -> pystr -> option R) acc s r :
  rep cls greedy lo hi k acc s = Some r ->
  exists p s', s = p ++ s'
    /\ Forall (fun c => cls c = true) p /\ (lo <= length p)%nat
    /\ k (rev acc ++ p) s' = Some r.
Proof.
  revert lo hi acc. induction s as [|c s IH]; intros lo hi acc H.
  - cbn in H. destruct lo; [|done].
    exists [], []. rewrite !app_nil_r. split_and!; done.
  - cbn [rep] in H.
    assert (Hstop : match lo with O => k (rev acc) (c :: s) | S _ => None end = Some r ->
                    exists p s', c :: s = p ++ s'
                      /\ Forall (fun c => cls c = true) p /\ (lo <= length p)%nat
                      /\ k (rev acc ++ p) s' = Some r).
    { destruct lo; [|done]. intros Hk. exists [], (c :: s).
      rewrite !app_nil_r. split_and!; done. }
    destruct (hi_allows hi && cls c) eqn:E; [|by apply Hstop].
    apply andb_true_iff in E as [_ Hc].
    assert (Hmore : rep cls greedy (pred lo) (pred <$> hi) k (c :: acc) s = Some r ->
                    exists p s', c :: s = p ++ s'
                      /\ Forall (fun c => cls c = true) p /\ (lo <= length p)%nat
                      /\ k (rev acc ++ p) s' = Some r).
    { intros Hm. apply IH in Hm as (p & s' & -> & Hp & Hlen & Hk).
      exists (c :: p), s'. split_and!.
      - done.
      - by constructor.
      - cbn. destruct lo; cbn in Hlen; [apply Nat.le_0_l|by apply le_n_S].
      - cbn [rev] in Hk. by rewrite <- app_assoc in Hk. }
    destruct greedy; unfold first_of in H.
    + destruct (rep cls true (pred lo) (pred <$> hi) k (c :: acc) s) eqn:Em.
      * apply Hmore. congruence.
      * by apply Hstop.
    + destruct (match lo with O => k (rev acc) (c :: s) | S _ => None end) eqn:Es.
      * apply Hstop. congruence.
      * by apply Hmore.
Qed.

Lemma with_piece_Some p r ps rest :
  with_piece p r = Some (ps, rest) ->
  exists ps', ps = p :: ps' /\ r = Some (ps', rest).
Proof.
  destruct r as [[ps' rest']|]; cbn; [|done]. intros [= <- <-]. by exists ps'.
Qed.

Lemma match_items_sound its at_bol s pieces rest :
  match_items its at_bol s = Some (pieces, rest) ->
  s = concat pieces ++ rest /\ Forall2 piece_ok its pieces.
Proof.
  revert at_bol s pieces rest.
  induction its as [|it its IH]; intros at_bol s pieces rest H.
  - cbn in H. injection H as <- <-. split; [done|constructor].
  - destruct it as [| |cls lo hi greedy]; cbn [match_items] in H.
    + destruct at_bol; [|done].
      apply with_piece_Some in H as (ps' & -> & H). apply IH in H as [-> H].
      split; [done|by constructor].
    + destruct (at_eol s); [|done].
      apply with_piece_Some in H as (ps' & -> & H). apply IH in H as [-> H].
      split; [done|by constructor].
    + apply rep_sound in H as (p & s' & -> & Hp & Hlen & H).
      apply with_piece_Some in H as (ps' & -> & H). apply IH in H as [-> H].
      split; [by rewrite app_assoc|by constructor].
Qed.

(** A pattern with an item that needs a character of a class matches only
    text that has one. *)
Lemma match_items_needs its at_bol s pieces rest cls lo hi greedy :
  match_items its at_bol s = Some (pieces, rest) ->
  Rep cls lo hi greedy ∈ its -> (1 <= lo)%nat ->
  exists c, c ∈ s /\ cls c = true.
Proof.
  intros H Hin Hlo. apply match_items_sound in H as [-> H].
  revert Hin. induction H as [|it p its ps Hp H IH]; intros Hin.
  - inversion Hin.
  - apply elem_of_cons in Hin as [<-|Hin].
    + destruct Hp as [Hp Hlen]. destruct p as [|c p]; [cbn in Hlen; lia|].
      exists c. split; [cbn; left|by inversion Hp].
    + destruct (IH Hin) as (c & Hc & Hcls). exists c. split; [|done].
      cbn [concat]. rewrite <- app_assoc. apply elem_of_app. by right.
Qed.

Lemma search_from_needs its at_bol skipped s cls lo hi greedy :
  Rep cls lo hi greedy ∈ its -> (1 <= lo)%nat ->
  Forall (fun c => cls c = false) s ->
  search_from its at_bol skipped s = None.
Proof.
  intros Hin Hlo. revert at_bol skipped.
  induction s as [|c s IH]; intros at_bol skipped Hs; cbn [search_from].
  - destruct (match_items its at_bol []) as [[ps rest]|] eqn:E; [|done].
    destruct (match_items_needs _ _ _ _ _ _ _ _ _ E Hin Hlo) as (c & Hc & _).
    inversion Hc.
  - destruct (match_items its at_bol (c :: s)) as [[ps rest]|] eqn:E.
    + destruct (match_items_needs _ _ _ _ _ _ _ _ _ E Hin Hlo) as (x & Hx & Hcls).
      rewrite Forall_forall in Hs. rewrite (Hs x Hx) in Hcls. done.
    + apply IH. by inversion Hs.
Qed.

(** Nothing is removed from a text that lacks a character the pattern needs. *)
Lemma re_sub_empty_needs its s cls lo hi greedy :
  Rep cls lo hi greedy ∈ its -> (1 <= lo)%nat ->
  Forall (fun c => cls c = false) s ->
  re_sub_empty its s = s.
Proof.
  intros Hin Hlo Hs. unfold re_sub_empty. cbn [sub_go].
  by rewrite (search_from_needs _ _ _ _ _ _ _ _ Hin Hlo Hs).
Qed.

(** A greedy repetition without upper bound takes the whole run in front of
    it when the rest of the pattern matches behind the run. *)
Lemma rep_greedy_run {R} cls lo (k : pystr -> pystr -> option R) acc p s r :
  Forall (fun c => cls c = true) p -> stops cls s -> (lo <= length p)%nat ->
  k (rev acc ++ p) s = Some r ->
  rep cls true lo None k acc (p ++ s) = Some r.
Proof.
  revert lo acc. induction p as [|c p IH]; intros lo acc Hp Hs Hlo Hk.
  - rewrite app_nil_r in Hk. cbn in Hlo. assert (lo = 0)%nat as -> by lia.
    destruct s as [|c s]; cbn; [done|]. cbn in Hs. by rewrite Hs.
  - inversion Hp as [|? ? Hc Hp']; subst. cbn [app rep hi_allows andb].
    rewrite Hc. cbn [fmap option_fmap option_map].
    rewrite (IH (pred lo) (c :: acc)); [done|done|done| |].
    + cbn in Hlo. lia.
    + cbn [rev]. by rewrite <- app_assoc.
Qed.

Lemma rep_one {R} cls (k : pystr -> pystr -> option R) acc c s r :
  cls c = true -> k (rev acc ++ [c]) s = Some r ->
  rep cls true 1 (Some 1%nat) k acc (c :: s) = Some r.
Proof.
  intros Hc Hk. cbn [rep hi_allows andb]. rewrite Hc.
  cbn [fmap option_fmap option_map pred].
  assert (rep cls true 0 (Some 0%nat) k (c :: acc) s = Some r) as ->; [|done].
  destruct s; cbn; done.
Qed.

Lemma match_run its at_bol cls lo p s ps rest :
  Forall (fun c => cls c = true) p -> stops cls s -> (lo <= length p)%nat ->
  match_items its (at_bol && is_empty p) s = Some (ps, rest) ->
  match_items (Rep cls lo None true :: its) at_bol (p ++ s) = Some (p :: ps, rest).
Proof.
  intros Hp Hs Hlo H. cbn [match_items].
  apply rep_greedy_run; [done|done|done|]. cbn [rev app]. by rewrite H.
Qed.

Lemma match_one its at_bol cls c s ps rest :
  cls c = true ->
  match_items its false s = Some (ps, rest) ->
  match_items (Rep cls 1 (Some 1%nat) true :: its) at_bol (c :: s)
  = Some ([c] :: ps, rest).
Proof.
  intros Hc H. cbn [match_items].
  apply rep_one; [done|]. cbn [rev app is_empty]. by rewrite andb_false_r, H.
Qed.

Lemma search_from_bol_false its skipped s :
  search_from (Bol :: its) false skipped s = None.
Proof.
  revert skipped. induction s as [|c s IH]; intros skipped; cbn; [done|apply IH].
Qed.

Lemma sub_go_bol_false fuel its s : sub_go fuel (Bol :: its) false s = s.
Proof. destruct fuel; [done|]. cbn [sub_go]. by rewrite search_from_bol_false. Qed.

(** The search passes over a stretch of text in which the pattern matches
    nowhere, and finds the match behind it. *)
Lemma search_from_skip its at_bol skipped body tail ps rest :
  (forall pre suf b, body = pre ++ suf -> suf <> [] ->
     match_items its b (suf ++ tail) = None) ->
  (forall b, match_items its b tail = Some (ps, rest)) ->
  search_from its at_bol skipped (body ++ tail) = Some (rev skipped ++ body, ps, rest).
Proof.
  revert at_bol skipped. induction body as [|c body IH]; intros at_bol skipped Hno Hyes.
  - cbn [app]. destruct tail; cbn [search_from]; rewrite Hyes; by rewrite app_nil_r.
  - cbn [app search_from].
    pose proof (Hno [] (c :: body) at_bol eq_refl ltac:(done)) as H0.
    cbn [app] in H0. rewrite H0.
    rewrite IH; [cbn [rev]; by rewrite <- app_assoc| |done].
    intros pre suf b -> Hsuf. by apply (Hno (c :: pre) suf b).
Qed.

(** ** Title normalization *)

Ltac class_lia :=
  unfold stops, is_code_char_paren, is_code_char, is_ascii_alpha, is_dash, is_blank,
    is_colon, is_space, is_dot, in_range in *;
  repeat first
    [ rewrite negb_true_iff in * | rewrite negb_false_iff in *
    | rewrite orb_true_iff in * | rewrite andb_true_iff in *
    | rewrite orb_false_iff in * | rewrite andb_false_iff in *
    | rewrite N.leb_le in * | rewrite N.eqb_eq in *
    | rewrite N.leb_gt in * | rewrite N.eqb_neq in * ];
  lia.

Ltac elem_here :=
  repeat first [apply list_elem_of_here | apply list_elem_of_further].

Ltac norm_app := repeat first [rewrite <- app_assoc | progress cbn [app]].

Lemma search_from_here its at_bol skipped s ps rest :
  match_items its at_bol s = Some (ps, rest) ->
  search_from its at_bol skipped s = Some (rev skipped, ps, rest).
Proof. intros H. destruct s; cbn [search_from]; by rewrite H. Qed.

Lemma sub_go_nil fuel its : sub_go fuel its false [] = [].
Proof.
  destruct fuel; [done|]. cbn [sub_go search_from].
  destruct (match_items its false []) as [[ps rest]|] eqn:E; [|done].
  apply match_items_sound in E as [E _].
  symmetry in E. apply app_eq_nil in E as [-> ->]. done.
Qed.

Lemma match_bol its s ps rest :
  match_items its true s = Some (ps, rest) ->
  match_items (Bol :: its) true s = Some ([] :: ps, rest).
Proof. intros H. cbn [match_items]. by rewrite H. Qed.

Lemma match_eol its at_bol ps rest :
  match_items its at_bol [] = Some (ps, rest) ->
  match_items (Eol :: its) at_bol [] = Some ([] :: ps, rest).
Proof. intros H. cbn [match_items at_eol]. by rewrite H. Qed.

(** The performer prefix: a name without a dash, one of the three dashes and
    blanks are removed from the front of the title. *)
Lemma performer_prefix_removed (name blanks rest : pystr) (sep : N) :
  name <> [] -> Forall (fun c => is_dash c = false) name -> is_dash sep = true ->
  Forall (fun c => is_blank c = true) blanks -> stops is_blank rest ->
  re_sub_empty PERFORMER_PREFIX (name ++ sep :: blanks ++ rest) = rest.
Proof.
  intros Hne Hname Hsep Hblanks Hrest.
  assert (Hm : match_items PERFORMER_PREFIX true (name ++ sep :: blanks ++ rest)
               = Some ([[]; name; []; [sep]; blanks], rest)).
  { unfold PERFORMER_PREFIX, plus, star, one. apply match_bol.
    apply match_run.
    - eapply Forall_impl; [exact Hname|]. intros c Hc. cbn beta. by rewrite Hc.
    - cbn. by rewrite Hsep.
    - destruct name; [done|cbn; lia].
    - apply (match_run _ _ _ _ []); [constructor| |done|].
      + cbn. class_lia.
      + apply match_one; [done|].
        rewrite (match_run _ _ _ _ blanks _ [] rest); try done. lia. }
  unfold re_sub_empty. cbn [sub_go].
  rewrite (search_from_here _ _ _ _ _ _ Hm).
  assert (is_empty (concat [[]; name; []; [sep]; blanks]) = false) as ->.
  { cbn. by destruct name. }
  cbn [rev app]. apply sub_go_bol_false.
Qed.

(** The code prefix: a code, a colon of either width and white space are
    removed from the front of the title. *)
Lemma code_prefix_removed (code spaces rest : pystr) (colon : N) :
  code <> [] -> Forall (fun c => is_code_char c = true) code ->
  is_colon colon = true ->
  Forall (fun c => is_space c = true) spaces -> stops is_space rest ->
  re_sub_empty CODE_PREFIX (code ++ colon :: spaces ++ rest) = rest.
Proof.
  intros Hne Hcode Hcolon Hspaces Hrest.
  assert (Hm : match_items CODE_PREFIX true (code ++ colon :: spaces ++ rest)
               = Some ([[]; code; [colon]; spaces], rest)).
  { unfold CODE_PREFIX, plus, star, one. apply match_bol.
    apply match_run.
    - done.
    - cbn. class_lia.
    - destruct code; [done|cbn; lia].
    - apply match_one; [done|].
      rewrite (match_run _ _ _ _ spaces _ [] rest); try done. lia. }
  unfold re_sub_empty. cbn [sub_go].
  rewrite (search_from_here _ _ _ _ _ _ Hm).
  assert (is_empty (concat [[]; code; [colon]; spaces]) = false) as ->.
  { cbn. by destruct code. }
  cbn [rev app]. apply sub_go_bol_false.
Qed.

Lemma stops_app cls (s t : pystr) : s <> [] -> stops cls s -> stops cls (s ++ t).
Proof. by destruct s. Qed.

Lemma stops_rev_app cls (s t : pystr) :
  t <> [] -> stops cls (rev t) -> stops cls (rev (s ++ t)).
Proof.
  intros Ht H. rewrite rev_app_distr. apply stops_app; [|done].
  intros E. apply Ht. by rewrite <- (rev_involutive t), E.
Qed.

Lemma stops_rev_suffix cls (s t : pystr) :
  t <> [] -> stops cls (rev (s ++ t)) -> stops cls (rev t).
Proof.
  intros Ht. rewrite rev_app_distr.
  destruct (rev t) eqn:E; [|done].
  exfalso. apply Ht. by rewrite <- (rev_involutive t), E.
Qed.

Lemma stops_Forall (P : N -> Prop) cls (l : pystr) :
  (forall c, P c -> cls c = false) -> Forall P l -> stops cls l.
Proof. intros HP Hl. destruct l as [|c l]; [done|]. inversion Hl. by apply HP. Qed.

Lemma stops_all_false cls (l : pystr) :
  l <> [] -> Forall (fun c => cls c = true) l -> stops cls l -> False.
Proof.
  intros Hne Hl Hs. destruct l as [|c l]; [done|]. inversion Hl; subst.
  cbn in Hs. congruence.
Qed.

Lemma strip_fixed (s : pystr) :
  stops is_space s -> stops is_space (rev s) -> strip s = s.
Proof.
  intros H1 H2. unfold strip. rewrite (lstrip_fixed s H1).
  unfold rstrip. rewrite (lstrip_fixed (rev s) H2). apply rev_involutive.
Qed.

Lemma strip_ends (t : pystr) :
  strip t = t -> stops is_space t /\ stops is_space (rev t).
Proof.
  intros H. rewrite <- H. split.
  - unfold strip. apply rstrip_keeps_head, lstrip_head.
  - unfold strip, rstrip. rewrite rev_involutive. apply lstrip_head.
Qed.

(** The code suffix: white space, a slash, white space and a code are removed
    from the end of a title that has no other slash. *)
Lemma code_suffix_removed (body sp1 sp2 code : pystr) :
  Forall (fun c => c <> 47) body -> stops is_space (rev body) ->
  Forall (fun c => is_space c = true) sp1 ->
  Forall (fun c => is_space c = true) sp2 ->
  code <> [] -> Forall (fun c => is_code_char_paren c = true) code ->
  re_sub_empty CODE_SUFFIX (body ++ sp1 ++ 47 :: sp2 ++ code) = body.
Proof.
  intros Hbody Hend Hsp1 Hsp2 Hne Hcode.
  assert (Hm : forall b, match_items CODE_SUFFIX b (sp1 ++ 47 :: sp2 ++ code)
               = Some ([sp1; [47]; sp2; code; []], [])).
  { intros b. unfold CODE_SUFFIX, plus, star, chr.
    apply match_run; [done|done|lia|].
    apply match_one; [done|].
    apply match_run; [done| |lia|].
    { eapply stops_Forall; [|exact Hcode]. intros c Hc. cbn beta in Hc. class_lia. }
    rewrite <- (app_nil_r code) at 1.
    apply match_run; [done|done| |].
    { destruct code; [done|cbn; lia]. }
    by apply match_eol. }
  assert (Hno : forall pre suf b, body = pre ++ suf -> suf <> [] ->
                match_items CODE_SUFFIX b (suf ++ sp1 ++ 47 :: sp2 ++ code) = None).
  { intros pre suf b -> Hsuf.
    destruct (match_items _ b _) as [[ps rest]|] eqn:E; [exfalso|done].
    apply match_items_sound in E as [E HF]. unfold CODE_SUFFIX, star, chr in HF.
    inversion HF as [|? p1 ? ? Hok1 HF1]; subst. cbn [piece_ok] in Hok1. destruct Hok1 as [Hp1 _].
    inversion HF1 as [|? p2 ? ? Hok2 HF2]; subst. cbn [piece_ok] in Hok2. destruct Hok2 as [Hp2 Hl2].
    destruct p2 as [|c2 p2]; [cbn in Hl2; lia|].
    inversion Hp2 as [|? ? Hc2 _]; subst. apply N.eqb_eq in Hc2. subst c2.
    cbn [concat] in E. rewrite <- !app_assoc in E.
    apply Forall_app in Hbody as [_ Hsuf47].
    assert (Hsufend : stops is_space (rev suf)) by by eapply stops_rev_suffix.
    assert (Hallsp : Forall (fun c => is_space c = true) suf -> False).
    { intros Hall. eapply (stops_all_false is_space (rev suf)); [|by apply List.Forall_rev|done].
      intros E'. apply Hsuf. by rewrite <- (rev_involutive suf), E'. }
    apply app_eq_app in E as [l [[-> El]|[-> El]]].
    - destruct l as [|x l].
      + rewrite app_nil_r in Hallsp. by apply Hallsp.
      + cbn in El. injection El as <- _.
        apply Forall_app in Hsuf47 as [_ H47]. by inversion H47.
    - apply Hallsp. by apply Forall_app in Hp1 as [Hp1 _]. }
  unfold re_sub_empty. cbn [sub_go].
  rewrite (search_from_skip _ _ _ _ _ _ _ Hno Hm).
  cbn [concat app is_empty rev].
  assert (is_empty (sp1 ++ 47 :: sp2 ++ code ++ []) = false) as -> by by destruct sp1.
  by rewrite sub_go_nil, app_nil_r.
Qed.

(** C8. Title normalization is the three removals in this order: the leading
    performer prefix (a name and one of the three dashes), then the trailing
    " / CODE", then the leading "CODE:" with a colon of either width. On a
    title made of a performer, a dash, a code, a colon, the scene title, a
    slash and a code, what is left is the scene title; so it is for
    "本田瞳 - LULU-255：Scene Title / LULU255". *)
Theorem normalize_title_order :
  (forall raw : pystr,
     normalize_title (Some raw)
     = if is_empty raw then None
       else nonempty (strip_code_prefix (strip_code_suffix
                        (strip_performer_prefix (strip raw)))))
  /\ (forall (name blanks code spaces title sp1 sp2 code2 : pystr) (sep colon : N),
        name <> [] -> stops is_space name ->
        Forall (fun c => is_dash c = false) name ->
        is_dash sep = true -> Forall (fun c => is_blank c = true) blanks ->
        code <> [] -> Forall (fun c => is_code_char c = true) code ->
        is_colon colon = true -> Forall (fun c => is_space c = true) spaces ->
        title <> [] -> strip title = title -> Forall (fun c => c <> 47) title ->
        Forall (fun c => is_space c = true) sp1 ->
        Forall (fun c => is_space c = true) sp2 ->
        code2 <> [] -> Forall (fun c => is_code_char_paren c = true) code2 ->
        normalize_title
          (Some (name ++ sep :: blanks ++ code ++ colon :: spaces
                 ++ title ++ sp1 ++ 47 :: sp2 ++ code2))
        = Some title).
Proof.
  split; [reflexivity|].
  intros name blanks code spaces title sp1 sp2 code2 sep colon
    Hname Hname0 Hnodash Hsep Hblanks Hcode Hcodec Hcolon Hspaces
    Htitle Hstrip H47 Hsp1 Hsp2 Hcode2 Hcode2c.
  destruct (strip_ends _ Hstrip) as [Ht0 Ht1].
  assert (Hc2end : stops is_space (rev code2)).
  { eapply stops_Forall; [|apply List.Forall_rev; exact Hcode2c].
    intros c Hc. cbn beta in Hc. class_lia. }
  assert (Hc0 : stops is_space code).
  { eapply stops_Forall; [|exact Hcodec]. intros c Hc. cbn beta in Hc. class_lia. }
  assert (Hcb : stops is_blank code).
  { eapply stops_Forall; [|exact Hcodec]. intros c Hc. cbn beta in Hc. class_lia. }
  set (body := code ++ colon :: spaces ++ title).
  set (rest1 := body ++ sp1 ++ 47 :: sp2 ++ code2).
  assert (Hraw : name ++ sep :: blanks ++ code ++ colon :: spaces
                 ++ title ++ sp1 ++ 47 :: sp2 ++ code2
                 = name ++ sep :: blanks ++ rest1).
  { subst rest1 body. by norm_app. }
  rewrite Hraw. unfold normalize_title.
  assert (is_empty (name ++ sep :: blanks ++ rest1) = false) as -> by by destruct name.
  assert (Hend1 : stops is_space (rev rest1)).
  { subst rest1. rewrite app_assoc.
    replace ((body ++ sp1) ++ 47 :: sp2 ++ code2)
      with (((body ++ sp1) ++ 47 :: sp2) ++ code2) by (by norm_app).
    by apply stops_rev_app. }
  rewrite (strip_fixed (name ++ sep :: blanks ++ rest1)).
  2: { by apply stops_app. }
  2: { replace (name ++ sep :: blanks ++ rest1)
         with ((name ++ sep :: blanks) ++ rest1) by (by norm_app).
       apply stops_rev_app; [|done]. subst rest1 body. by destruct code. }
  rewrite performer_prefix_removed; [|done|done|done|done|].
  2: { subst rest1 body. norm_app. by apply stops_app. }
  rewrite (strip_fixed rest1); [|subst rest1 body; norm_app; by apply stops_app|done].
  subst rest1. rewrite code_suffix_removed; [| | |done|done|done|done].
  2: { subst body. apply Forall_app. split.
       - eapply Forall_impl; [exact Hcodec|]. intros c Hc. cbn beta in Hc. class_lia.
       - constructor; [class_lia|]. apply Forall_app. split; [|done].
         eapply Forall_impl; [exact Hspaces|]. intros c Hc. cbn beta in Hc. class_lia. }
  2: { subst body.
       replace (code ++ colon :: spaces ++ title)
         with ((code ++ colon :: spaces) ++ title) by (by norm_app).
       by apply stops_rev_app. }
  rewrite (strip_fixed body).
  2: { subst body. by apply stops_app. }
  2: { subst body.
       replace (code ++ colon :: spaces ++ title)
         with ((code ++ colon :: spaces) ++ title) by (by norm_app).
       by apply stops_rev_app. }
  subst body. rewrite code_prefix_removed; [|done|done|done|done|done].
  rewrite Hstrip. unfold nonempty. by destruct title.
Qed.

(** C9 (amended). A normalized title that has none of the three dashes, no
    slash and no colon of either width is left unchanged by a second
    normalization; "Scene Title" is one. (A normalized title that still has a
    dash, a slash or a colon can lose a further prefix or suffix.) *)
Theorem normalize_title_fixed (x : option pystr) (t : pystr) :
  normalize_title x = Some t ->
  Forall (fun c => is_dash c = false /\ c <> 47 /\ is_colon c = false) t ->
  normalize_title (Some t) = Some t.
Proof.
  intros Hx Ht.
  assert (Hst : t <> [] /\ strip t = t).
  { unfold normalize_title in Hx. destruct x as [raw|]; [|done].
    destruct (is_empty raw); [done|]. unfold nonempty in Hx.
    match type of Hx with
    | (if is_empty (strip ?y) then _ else _) = _ =>
      destruct (strip y) as [|c r] eqn:E; [done|]; cbn in Hx;
      injection Hx as <-; split; [done|]; rewrite <- E; apply strip_idem
    end. }
  destruct Hst as [Hne Hstrip].
  unfold normalize_title.
  assert (is_empty t = false) as -> by by destruct t.
  rewrite Hstrip.
  rewrite (re_sub_empty_needs PERFORMER_PREFIX t is_dash 1 (Some 1%nat) true);
    [|unfold PERFORMER_PREFIX, one; elem_here|done|].
  2: { eapply Forall_impl; [exact Ht|]. by intros c (H & _ & _). }
  rewrite Hstrip.
  rewrite (re_sub_empty_needs CODE_SUFFIX t (N.eqb 47) 1 (Some 1%nat) true);
    [|unfold CODE_SUFFIX, chr; elem_here|done|].
  2: { eapply Forall_impl; [exact Ht|]. intros c (_ & H & _). cbn beta.
       apply N.eqb_neq. congruence. }
  rewrite Hstrip.
  rewrite (re_sub_empty_needs CODE_PREFIX t is_colon 1 (Some 1%nat) true);
    [|unfold CODE_PREFIX, one; elem_here|done|].
  2: { eapply Forall_impl; [exact Ht|]. by intros c (_ & _ & H). }
  rewrite Hstrip. unfold nonempty. by destruct t.
Qed.

(** ** Dates *)

Ltac date_lia :=
  unfold date_ltb in *;
  repeat first
    [ rewrite orb_true_iff in * | rewrite andb_true_iff in *
    | rewrite orb_false_iff in * | rewrite andb_false_iff in *
    | rewrite Z.ltb_lt in * | rewrite Z.eqb_eq in *
    | rewrite Z.ltb_ge in * | rewrite Z.eqb_neq in * ];
  lia.

Lemma date_ltb_irrefl (a : date) : date_ltb a a = false.
Proof. destruct a as [[y m] d]. date_lia. Qed.

Lemma date_ge_trans (a b c : date) :
  date_ltb a b = false -> date_ltb b c = false -> date_ltb a c = false.
Proof. destruct a as [[ya ma] da], b as [[yb mb] db], c as [[yc mc] dc]. date_lia. Qed.

Lemma date_ltb_false_weak (a b : date) : date_ltb a b = true -> date_ltb b a = false.
Proof. destruct a as [[ya ma] da], b as [[yb mb] db]. date_lia. Qed.

(** [min] returns a member of the list that no member precedes. *)
Lemma min_date_spec (d0 : date) (rest : list date) :
  min_date d0 rest ∈ d0 :: rest
  /\ forall d, d ∈ d0 :: rest -> date_ltb d (min_date d0 rest) = false.
Proof.
  unfold min_date. revert d0. induction rest as [|x rest IH]; intros d0.
  - cbn. split; [apply list_elem_of_here|].
    intros d Hd. apply list_elem_of_singleton in Hd. subst. apply date_ltb_irrefl.
  - cbn [fold_left]. destruct (date_ltb x d0) eqn:E.
    + destruct (IH x) as [Hin Hle]. split.
      * apply elem_of_cons in Hin as [->|Hin];
          [apply list_elem_of_further, list_elem_of_here|by do 2 apply list_elem_of_further].
      * intros d Hd. apply elem_of_cons in Hd as [->|Hd]; [|by apply Hle].
        eapply date_ge_trans; [|apply Hle, list_elem_of_here].
        by apply date_ltb_false_weak.
    + destruct (IH d0) as [Hin Hle]. split.
      * apply elem_of_cons in Hin as [->|Hin];
          [apply list_elem_of_here|by do 2 apply list_elem_of_further].
      * intros d Hd. apply elem_of_cons in Hd as [->|Hd]; [by apply Hle, list_elem_of_here|].
        apply elem_of_cons in Hd as [->|Hd].
        -- eapply date_ge_trans; [exact E|]. apply Hle, list_elem_of_here.
        -- by apply Hle, list_elem_of_further.
Qed.

Lemma datetime_new_valid y m d dt :
  datetime_new y m d = Some dt -> dt = (y, m, d) /\ valid_date y m d = true.
Proof. unfold datetime_new. destruct (valid_date y m d); [|done]. by intros [= <-]. Qed.

Lemma localized_dates_valid text : Forall valid (localized_dates text).
Proof.
  apply Forall_forall. intros dt H. unfold localized_dates in H.
  apply list_elem_of_omap in H as (pieces & _ & H).
  destruct (date_groups pieces) as [[y mo] d].
  apply datetime_new_valid in H as [-> H]. exact H.
Qed.

Lemma iso_dates_valid text : Forall valid (iso_dates text).
Proof.
  apply Forall_forall. intros dt H. unfold iso_dates in H.
  apply list_elem_of_omap in H as (iso & _ & H).
  unfold fromisoformat in H.
  repeat (destruct iso as [|? iso]; [done|]).
  destruct iso; [|done].
  match type of H with (if ?c then _ else _) = _ => destruct c; [|done] end.
  apply bind_Some in H as (y & _ & H).
  apply bind_Some in H as (m & _ & H).
  apply bind_Some in H as (d & _ & H).
  apply datetime_new_valid in H as [-> H]. exact H.
Qed.

Lemma range_check (f : Z -> bool) (lo hi : Z) :
  forallb f (map Z.of_nat (seq (Z.to_nat lo) (Z.to_nat (hi - lo + 1)))) = true ->
  (0 <= lo)%Z -> forall z, (lo <= z <= hi)%Z -> f z = true.
Proof.
  intros H Hlo z Hz. rewrite forallb_forall in H. apply H.
  apply in_map_iff. exists (Z.to_nat z). split; [lia|]. apply in_seq. lia.
Qed.

Lemma year_padded (y : Z) :
  (1 <= y <= 9999)%Z -> digits_of_width 4 (zero_pad 4 (str_of_Z y)) = true.
Proof.
  intros H.
  apply (range_check (fun y => digits_of_width 4 (zero_pad 4 (str_of_Z y))) 1 9999);
    [by vm_compute|lia|lia].
Qed.

Lemma year_four_digits (y : Z) :
  (1000 <= y <= 9999)%Z -> digits_of_width 4 (str_of_Z y) = true.
Proof.
  intros H.
  apply (range_check (fun y => digits_of_width 4 (str_of_Z y)) 1000 9999);
    [by vm_compute|lia|lia].
Qed.

Lemma two_digits (m : Z) :
  (1 <= m <= 31)%Z -> digits_of_width 2 (zero_pad 2 (str_of_Z m)) = true.
Proof.
  intros H.
  apply (range_check (fun m => digits_of_width 2 (zero_pad 2 (str_of_Z m))) 1 31);
    [by vm_compute|lia|lia].
Qed.

(** [strftime("%Y-%m-%d")] of a valid date is [YYYY-MM-DD], four digits, two
    and two, where the platform pads the year or the year has four digits. *)
Lemma strftime_ymd_shape (dt : date) :
  valid dt -> strftime_pads_year = true \/ (1000 <= fst (fst dt))%Z ->
  exists yyyy mm dd,
    strftime_ymd dt = yyyy ++ u8 "-" ++ mm ++ u8 "-" ++ dd
    /\ digits_of_width 4 yyyy = true
    /\ digits_of_width 2 mm = true /\ digits_of_width 2 dd = true.
Proof.
  destruct dt as [[y m] d]. cbn [valid fst]. intros Hv Hy.
  assert (Hr : (1 <= y <= 9999 /\ 1 <= m <= 12 /\ 1 <= d <= 31)%Z).
  { unfold valid_date, days_in_month in Hv.
    repeat (apply andb_true_iff in Hv as [Hv ?]).
    repeat match goal with H : (_ <=? _)%Z = true |- _ => apply Z.leb_le in H end.
    destruct (m =? 2)%Z; [destruct (is_leap y)|destruct (_ || _)%bool]; lia. }
  unfold strftime_ymd. eexists _, _, _. split; [reflexivity|].
  split_and!; [|apply two_digits; lia|apply two_digits; lia].
  destruct strftime_pads_year; [apply year_padded; lia|].
  destruct Hy as [Hy|Hy]; [done|]. apply year_four_digits. lia.
Qed.

Lemma find_earliest_date_in_text_dates (text : pystr) :
  Forall valid (localized_dates text ++ iso_dates text).
Proof. apply Forall_app. split; [apply localized_dates_valid|apply iso_dates_valid]. Qed.

(** X12. The Gravurefit extractor does what the date rule asks: its result is
    the earliest of the valid dates among the matches of the two notations,
    whatever their order in the text, and there is no result exactly when no
    match is a valid date. *)
Lemma find_earliest_date_in_text_spec (text : pystr) :
  let dates := localized_dates text ++ iso_dates text in
  Forall valid dates
  /\ match find_earliest_date_in_text text with
     | None => dates = []
     | Some s =>
       exists dt, dt ∈ dates /\ s = strftime_ymd dt
         /\ forall dt', dt' ∈ dates -> date_ltb dt' dt = false
     end.
Proof.
  intros dates. split.
  - apply Forall_app. split; [apply localized_dates_valid|apply iso_dates_valid].
  - unfold find_earliest_date_in_text. fold dates.
    destruct dates as [|d0 rest]; [done|].
    destruct (min_date_spec d0 rest) as [Hin Hle].
    exists (min_date d0 rest). by split_and!.
Qed.

(** The earliest date of a list does not depend on the order of the list. *)
Lemma min_date_order (d0 d1 : date) (rest rest' : list date) :
  d0 :: rest ≡ₚ d1 :: rest' -> min_date d0 rest = min_date d1 rest'.
Proof.
  intros Hp.
  destruct (min_date_spec d0 rest) as [Hin Hle].
  destruct (min_date_spec d1 rest') as [Hin' Hle'].
  rewrite Hp in Hin. rewrite <- Hp in Hin'.
  pose proof (Hle _ Hin') as H1. pose proof (Hle' _ Hin) as H2.
  destruct (min_date d0 rest) as [[ya ma] da], (min_date d1 rest') as [[yb mb] db].
  assert (ya = yb /\ ma = mb /\ da = db) as (-> & -> & ->) by date_lia. done.
Qed.

(** C3. The JavLibrary copy of the extractor returns a date that is no
    calendar date: its second loop appends every match of the ISO notation as
    it stands, so "2019-13-45" comes back as the earliest date, where the
    Gravurefit extractor skips the match and finds no date. The copy also
    prints a year below 1000 without its leading zeros. *)
Theorem find_earliest_date_from_text_keeps_invalid :
  find_earliest_date_from_text (u8 "2019-13-45") = Some (u8 "2019-13-45")
  /\ valid_date 2019 13 45 = false
  /\ find_earliest_date_in_text (u8 "2019-13-45") = None
  /\ find_earliest_date_from_text (u8 "0999-01-01") = Some (u8 "999-01-01").
Proof. split_and!; vm_compute; reflexivity. Qed.

(** ** The session and the orchestrator *)

Lemma print_session v w : session (print v w) = session w.
Proof. reflexivity. Qed.

Lemma save_raw_session b t fs w : session (save_raw b t fs w) = session w.
Proof. by destruct b. Qed.

Lemma save_raw_writable b t fs w : writable (save_raw b t fs w) = writable w.
Proof. by destruct b. Qed.

Lemma save_output_session b t r w : session (save_output b t r w) = session w.
Proof. by destruct b as [[|c b]|]. Qed.



(** The header of a fresh session goes out with the request, as the [Cookie]
    header next to the browser-like ones; without one there is no [Cookie]. *)
Lemma request_payload_cookie (url : pyval) (h : pystr) (timeout : Z) :
  h <> [] ->
  request_payload url (Some HEADERS_BROWSER_LIKE) (Some h) timeout
  = PDict [(u8 "cmd", PStr (u8 "request.get")); (u8 "url", url);
           (u8 "maxTimeout", PInt timeout);
           (u8 "headers", PDict (HEADERS_BROWSER_LIKE ++ [(u8 "Cookie", PStr h)]))].
Proof. destruct h as [|c h]; [done|]. intros _. vm_compute. reflexivity. Qed.

Lemma request_payload_no_cookie (url : pyval) (timeout : Z) :
  request_payload url (Some HEADERS_BROWSER_LIKE) None timeout
  = PDict [(u8 "cmd", PStr (u8 "request.get")); (u8 "url", url);
           (u8 "maxTimeout", PInt timeout);
           (u8 "headers", PDict HEADERS_BROWSER_LIKE)].
Proof. vm_compute. reflexivity. Qed.

(** Pruning keeps exactly the files not older than the retention window. *)
Lemma prune_lookup (dir : directory) (now : Q) (days : Z) (name : pystr)
    (mtime : Q) (obj : pyval) :
  prune dir now days !! name = Some (mtime, obj)
  <-> dir !! name = Some (mtime, obj)
      /\ (now - inject_Z (days * 86400) <= mtime)%Q.
Proof.
  unfold prune. rewrite map_lookup_filter_Some. cbn [fst snd].
  by rewrite Qle_bool_iff.
Qed.

(** X29. When [json.loads] fails, and when the fragment is an object without
    a usable [url] (none, null, empty, 0), [main] prints the empty object and
    returns, with exit status 0. *)
Lemma main_no_identifier (stdin : option pyval) (clk : clock) (w : world) :
  stdin = None
  \/ (exists d, stdin = Some (PDict d) /\ truthy (dict_get d "url") = false) ->
  run_gravurefit stdin clk w = Exits 0 (stdout w ++ [PDict []]).
Proof.
  intros [->|(d & -> & H)]; unfold run_gravurefit, main; [done|].
  rewrite py_get_dict, H. done.
Qed.

(** C1. Bad input is not always answered with [{}] and status 0.
    JavLibrary_python.py reads the fragment with no handler around
    [json.loads], so an unparseable standard input ends the run with an
    uncaught [JSONDecodeError]; and in both files a fragment that parses but
    is no object (a list, a number, null) ends it with an uncaught
    [AttributeError] at the first [FRAGMENT.get]. *)
Theorem bad_fragment_uncaught :
  (forall argv rest, run_javlibrary argv None rest = Uncaught JSONDecodeError)
  /\ (forall argv rest,
        run_javlibrary argv (Some (PList [])) rest = Uncaught AttributeError)
  /\ (forall clk w,
        run_gravurefit (Some (PList [])) clk w = Uncaught AttributeError).
Proof. by split_and!. Qed.

(** ** What a run prints and writes *)

Lemma save_raw_stdout b t fs w : stdout (save_raw b t fs w) = stdout w.
Proof. by destruct b. Qed.

Lemma save_raw_out_dir b t fs w : out_dir (save_raw b t fs w) = out_dir w.
Proof. by destruct b. Qed.

Lemma save_output_stdout b t r w : stdout (save_output b t r w) = stdout w.
Proof. by destruct b as [[|c b]|]. Qed.

Lemma save_output_raw_dir b t r w : raw_dir (save_output b t r w) = raw_dir w.
Proof. by destruct b as [[|c b]|]. Qed.

Lemma save_output_writable b t r w : writable (save_output b t r w) = writable w.
Proof. by destruct b as [[|c b]|]. Qed.

Lemma save_session_stdout w now cs :
  stdout (save_flaresolverr_session w now cs) = stdout w.
Proof. unfold save_flaresolverr_session. by destruct (writable w). Qed.

Lemma save_session_raw_dir w now cs :
  raw_dir (save_flaresolverr_session w now cs) = raw_dir w.
Proof. unfold save_flaresolverr_session. by destruct (writable w). Qed.

Lemma save_session_out_dir w now cs :
  out_dir (save_flaresolverr_session w now cs) = out_dir w.
Proof. unfold save_flaresolverr_session. by destruct (writable w). Qed.

Lemma save_session_writable w now cs :
  writable (save_flaresolverr_session w now cs) = writable w.
Proof. unfold save_flaresolverr_session. by destruct (writable w) eqn:E. Qed.

(** The cookies step of [main], lines 373-379. *)
Lemma cookies_step_frame (fl_cookies : pyval) (now : Q) (w : world) :
  let w' := if truthy fl_cookies then save_flaresolverr_session w now fl_cookies else w in
  stdout w' = stdout w /\ raw_dir w' = raw_dir w /\ out_dir w' = out_dir w
  /\ writable w' = writable w.
Proof.
  cbn zeta. destruct (truthy fl_cookies); [|done].
  rewrite save_session_stdout, save_session_raw_dir, save_session_out_dir,
    save_session_writable. by split_and!.
Qed.

Lemma printed_one (w w' : world) (v : pyval) :
  stdout w' = stdout w ++ [v] -> printed w w' = [v].
Proof. unfold printed. intros ->. by rewrite drop_app_length. Qed.

(** The two list fields of the record are lists, page or no page. *)
Lemma list_field (parsed : gmap string pyval) (k : string) :
  parsed = ∅ \/ (exists l, parsed !! k = Some (str_list l)) ->
  exists l, py_or (field parsed k) (PList []) = PList l.
Proof.
  unfold field. intros [->|(l & ->)].
  - rewrite lookup_empty. by exists [].
  - cbn [default str_list]. unfold py_or. destruct (truthy _); eauto.
Qed.

Lemma extracted_list_fields (html_content : pyval) :
  (exists l, py_or (field (extract_gravure_fields html_content) "performers") (PList [])
             = PList l)
  /\ (exists l, py_or (field (extract_gravure_fields html_content) "tags") (PList [])
                = PList l).
Proof.
  unfold extract_gravure_fields.
  destruct (extract_fields_shape
              "//table//th[contains(text(),'女優')]/following-sibling::td//a/text()"
              "//table//th[contains(text(),'メーカー')]/following-sibling::td//text()"
              find_earliest_date_in_text html_content)
    as [(_ & _ & ->)|(_ & _ & (ps & Hp & _) & (ts & Ht & _))].
  - split; apply list_field; by left.
  - split; apply list_field; right; eauto.
Qed.

(** X1. A run of [main] that returns has printed exactly one JSON object: the
    empty object, or the record of the ten keys [code], [title], [date],
    [performers], [tags], [image], [studio], [details], [url],
    [_flaresolverr_raw], in which [url] is the URL of the fragment and
    [performers] and [tags] are lists, page or no page. A run that ends with
    an exception has printed nothing. *)
Theorem main_prints_one_record (stdin : option pyval) (clk : clock) (w : world) :
  match main stdin clk w with
  | (Raise _, w') => stdout w' = stdout w
  | (Ok _, w') =>
    stdout w' = stdout w ++ [PDict []]
    \/ exists FRAGMENT url code title date performers tags image studio details answer,
         stdin = Some FRAGMENT /\ py_get FRAGMENT "url" = Ok url
         /\ truthy url = true
         /\ stdout w' = stdout w ++ [scene_record code title date performers tags
                                       image studio details url answer]
  end.
Proof.
  unfold main. destruct stdin as [FRAGMENT|]; [|by left].
  destruct (py_get FRAGMENT "url") as [SCENE_URL|] eqn:Hurl; [|done].
  destruct (truthy SCENE_URL) eqn:Ht; cbn [negb]; [|by left].
  destruct (fresh_cookie_header _ (at_check clk)) as [cookie_header|]; [|done].
  right.
  set (fs := fetch_via_flaresolverr _ _ _ _ _).
  set (parsed := if ok fs && truthy (html fs) then _ else _).
  assert (Hl : forall k, k = "performers" \/ k = "tags" ->
                 exists l, py_or (field parsed k) (PList []) = PList l).
  { intros k Hk. subst parsed. destruct (ok fs && truthy (html fs)).
    - destruct (extracted_list_fields (html fs)) as [Hp Hg].
      by destruct Hk as [->| ->].
    - apply list_field. by left. }
  destruct (Hl "performers") as [ps Hps]; [by left|].
  destruct (Hl "tags") as [ts Hts]; [by right|].
  exists FRAGMENT, SCENE_URL, (field parsed "code"), (field parsed "title"),
    (field parsed "date"), ps, ts, (field parsed "image"), (field parsed "studio"),
    (field parsed "details"), (raw fs).
  split_and!; [done..|].
  cbn [print stdout]. rewrite save_output_stdout.
  destruct (cookies_step_frame (py_or (cookies fs) (PList []))
              (at_save clk)
              (save_raw (raw_basename_of fs SCENE_URL) (at_raw_write clk) fs
                 (set_out_dir
                    (prune (out_dir (set_raw_dir
                       (prune (raw_dir w) (at_prune_raws clk) OUTPUT_RETENTION_DAYS) w))
                       (at_prune_outputs clk) OUTPUT_RETENTION_DAYS)
                    (set_raw_dir
                       (prune (raw_dir w) (at_prune_raws clk) OUTPUT_RETENTION_DAYS) w))))
    as (-> & _).
  rewrite save_raw_stdout. cbn [stdout set_out_dir set_raw_dir].
  unfold result_record, scene_record. by rewrite Hps, Hts.
Qed.

(** The world a run of [main] leaves after a fetch, part by part. *)
Lemma main_after_fetch (FRAGMENT url : pyval) (cookie_header : option pystr)
    (clk : clock) (w : world) :
  py_get FRAGMENT "url" = Ok url -> truthy url = true ->
  fresh_cookie_header (load_flaresolverr_session (session w)) (at_check clk)
  = Ok cookie_header ->
  let fs := main_fetch url cookie_header in
  let stem := raw_basename_of fs url in
  let result := main_result url fs in
  let raws := prune (raw_dir w) (at_prune_raws clk) OUTPUT_RETENTION_DAYS in
  let outs := prune (out_dir w) (at_prune_outputs clk) OUTPUT_RETENTION_DAYS in
  let w' := snd (main (Some FRAGMENT) clk w) in
  fst (main (Some FRAGMENT) clk w) = Ok ()
  /\ stdout w' = stdout w ++ [result]
  /\ raw_dir w'
     = match stem with
       | Some b =>
         save_json raws (writable w) (b ++ u8 "_flaresolverr_raw.json")
           (at_raw_write clk) (raw fs)
       | None => raws
       end
  /\ out_dir w'
     = match stem with
       | Some ((_ :: _) as b) =>
         save_json outs (writable w) (b ++ u8 ".json") (at_output_write clk) result
       | _ => outs
       end
  /\ session w'
     = (if truthy (py_or (cookies fs) (PList [])) && writable w
        then Holds (session_payload (at_save clk) (py_or (cookies fs) (PList [])))
        else session w)
  /\ writable w' = writable w.
Proof.
  intros Hurl Ht Hc. cbn zeta. unfold main. rewrite Hurl, Ht. cbn [negb].
  cbn [session set_out_dir set_raw_dir]. rewrite Hc. cbn [fst snd].
  fold (main_fetch url cookie_header).
  set (fs := main_fetch url cookie_header).
  fold (main_result url fs).
  set (w1 := set_out_dir _ (set_raw_dir _ w)).
  set (w2 := save_raw _ _ fs w1).
  destruct (cookies_step_frame (py_or (cookies fs) (PList [])) (at_save clk) w2)
    as (Hs & Hr & Ho & Hw).
  cbn zeta in Hs, Hr, Ho, Hw. subst w2.
  rewrite save_raw_stdout in Hs. rewrite save_raw_out_dir in Ho.
  rewrite save_raw_writable in Hw.
  cbn [stdout out_dir writable set_out_dir set_raw_dir] in Hs, Ho, Hw.
  split_and!.
  - done.
  - cbn [print stdout]. by rewrite save_output_stdout, Hs.
  - cbn [print raw_dir]. rewrite save_output_raw_dir, Hr.
    unfold save_raw. by destruct (raw_basename_of _ _).
  - cbn [print out_dir]. unfold save_output.
    destruct (raw_basename_of _ _) as [[|c b]|].
    + by rewrite Ho.
    + cbn [out_dir set_out_dir]. by rewrite Ho, Hw.
    + by rewrite Ho.
  - rewrite print_session, save_output_session.
    destruct (truthy (py_or (cookies fs) (PList []))); cbn [andb].
    + unfold save_flaresolverr_session. rewrite save_raw_writable.
      subst w1. cbn [writable set_out_dir set_raw_dir].
      destruct (writable w) eqn:E; [done|]. by rewrite save_raw_session.
    + by rewrite save_raw_session.
  - cbn [print writable]. by rewrite save_output_writable, Hw.
Qed.

(** X2. What [main] prints depends on the fragment, the session file, the
    proxy and the clock of the freshness test only: the files under [raw/]
    and [outputs/], whether they can be written, and the times of pruning and
    writing change neither how the run ends nor what it prints. *)
Theorem main_output_ignores_debug_files (stdin : option pyval)
    (clk1 clk2 : clock) (w1 w2 : world) :
  session w1 = session w2 -> at_check clk1 = at_check clk2 ->
  fst (main stdin clk1 w1) = fst (main stdin clk2 w2)
  /\ printed w1 (snd (main stdin clk1 w1)) = printed w2 (snd (main stdin clk2 w2)).
Proof.
  intros Hs Hc. destruct stdin as [FRAGMENT|].
  2:{ split; [done|]. cbn [main snd]. by rewrite !(printed_one _ _ (PDict [])). }
  destruct (py_get FRAGMENT "url") as [url|e] eqn:Hurl.
  2:{ unfold main. rewrite Hurl. cbn [fst snd]. split; [done|].
      unfold printed. by rewrite !drop_all. }
  destruct (truthy url) eqn:Ht.
  2:{ unfold main. rewrite Hurl, Ht. cbn [negb fst snd]. split; [done|].
      by rewrite !(printed_one _ _ (PDict [])). }
  destruct (fresh_cookie_header (load_flaresolverr_session (session w1)) (at_check clk1))
    as [cookie_header|e] eqn:Hf.
  - destruct (main_after_fetch FRAGMENT url cookie_header clk1 w1)
      as (-> & Hp1 & _); [done..|].
    rewrite Hs, Hc in Hf.
    destruct (main_after_fetch FRAGMENT url cookie_header clk2 w2)
      as (-> & Hp2 & _); [done..|].
    split; [done|]. by rewrite (printed_one _ _ _ Hp1), (printed_one _ _ _ Hp2).
  - unfold main. rewrite Hurl, Ht. cbn [negb session set_out_dir set_raw_dir].
    rewrite Hf. rewrite Hs, Hc in Hf. rewrite Hf. cbn [fst snd]. split; [done|].
    unfold printed. cbn [stdout set_out_dir set_raw_dir]. by rewrite !drop_all.
Qed.

Lemma not_elem_of_rev (x : N) (l : pystr) : x ∉ l -> x ∉ rev l.
Proof. rewrite !list_elem_of_In. intros H Hr. apply H. by apply in_rev. Qed.

Lemma split_go_no_sep (sep : N) (cur s : pystr) :
  sep ∉ cur -> Forall (fun p => sep ∉ p) (split_go sep cur s).
Proof.
  revert cur. induction s as [|c s IH]; intros cur Hcur; cbn [split_go].
  - constructor; [|constructor]. by apply not_elem_of_rev.
  - destruct (c =? sep) eqn:E.
    + constructor; [by apply not_elem_of_rev|]. apply IH. apply not_elem_of_nil.
    + apply IH. apply N.eqb_neq in E. rewrite not_elem_of_cons. split; [congruence|done].
Qed.

(** A segment of a path is not empty and has no slash. *)
Lemma path_segments_spec (s p : pystr) : p ∈ path_segments s -> p <> [] /\ 47 ∉ p.
Proof.
  unfold path_segments, split. rewrite list_elem_of_filter. intros [Hne Hin].
  split; [done|].
  pose proof (split_go_no_sep 47 [] s (not_elem_of_nil _)) as H.
  rewrite Forall_forall in H. by apply H.
Qed.

(** The stem of the debug files is not empty and has no slash. *)
Lemma raw_basename_stem (fs : FetchResult) (url : pyval) (b : pystr) :
  raw_basename_of fs url = Some b -> b <> [] /\ 47 ∉ b.
Proof.
  unfold raw_basename_of.
  destruct (match raw fs with PDict rd => _ | _ => _ end) as [raw_url|]; [|done].
  destruct (if truthy raw_url then raw_url else url) as [| | | |u| |]; try done.
  intros [= <-]. destruct (last (path_segments u)) as [seg|] eqn:E; cbn [default].
  - apply path_segments_spec with u. apply last_Some in E as [l ->].
    apply elem_of_app. right. apply list_elem_of_here.
  - split; [done|]. apply (bool_decide_unpack _). by vm_compute.
Qed.

(** The two debug directories after a run. *)
Lemma main_dirs (stdin : option pyval) (clk : clock) (w : world) :
  let w' := snd (main stdin clk w) in
  let raws := prune (raw_dir w) (at_prune_raws clk) OUTPUT_RETENTION_DAYS in
  let outs := prune (out_dir w) (at_prune_outputs clk) OUTPUT_RETENTION_DAYS in
  (raw_dir w' = raw_dir w /\ out_dir w' = out_dir w)
  \/ (raw_dir w' = raws /\ out_dir w' = outs)
  \/ (exists stem url cookie_header,
        stem <> [] /\ (47 ∉ stem)
        /\ stdout w' = stdout w ++ [main_result url (main_fetch url cookie_header)]
        /\ raw_dir w'
           = <[stem ++ u8 "_flaresolverr_raw.json"
               := (at_raw_write clk, raw (main_fetch url cookie_header))]> raws
        /\ out_dir w'
           = <[stem ++ u8 ".json"
               := (at_output_write clk,
                   main_result url (main_fetch url cookie_header))]> outs).
Proof.
  cbn zeta. destruct stdin as [FRAGMENT|]; [|by left].
  destruct (py_get FRAGMENT "url") as [url|e] eqn:Hurl.
  2:{ left. unfold main. by rewrite Hurl. }
  destruct (truthy url) eqn:Ht.
  2:{ left. unfold main. by rewrite Hurl, Ht. }
  destruct (fresh_cookie_header (load_flaresolverr_session (session w)) (at_check clk))
    as [cookie_header|e] eqn:Hf.
  2:{ right. left. unfold main. rewrite Hurl, Ht.
      cbn [negb session set_out_dir set_raw_dir]. by rewrite Hf. }
  right.
  destruct (main_after_fetch FRAGMENT url cookie_header clk w)
    as (_ & Hp & Hr & Ho & _); [done..|].
  rewrite Hr, Ho.
  destruct (raw_basename_of (main_fetch url cookie_header) url) as [b|] eqn:Hb;
    [|by left].
  destruct (raw_basename_stem _ _ _ Hb) as [Hne Hsl].
  destruct b as [|c b]; [done|]. unfold save_json.
  destruct (writable w); [|by left].
  right. exists (c :: b), url, cookie_header. by split_and!.
Qed.


(** X4. A run of [main] never removes a file of [raw/] or [outputs/] that
    was modified within the retention window: such a file is still there
    after the run, as it was or rewritten by this run. *)
Theorem main_keeps_recent_files (stdin : option pyval) (clk : clock) (w : world)
    (name : pystr) (mtime : Q) (obj : pyval) :
  let w' := snd (main stdin clk w) in
  (raw_dir w !! name = Some (mtime, obj) ->
   (cutoff (at_prune_raws clk) <= mtime)%Q ->
   raw_dir w' !! name = Some (mtime, obj)
   \/ exists answer, raw_dir w' !! name = Some (at_raw_write clk, answer))
  /\ (out_dir w !! name = Some (mtime, obj) ->
      (cutoff (at_prune_outputs clk) <= mtime)%Q ->
      out_dir w' !! name = Some (mtime, obj)
      \/ exists record, out_dir w' !! name = Some (at_output_write clk, record)).
Proof.
  cbn zeta. unfold cutoff.
  destruct (main_dirs stdin clk w)
    as [[-> ->]|[[-> ->]|(stem & url & cookie_header & _ & _ & _ & -> & ->)]].
  - split; intros; by left.
  - split; intros; left; by apply prune_lookup.
  - split; intros Hl Hc.
    + destruct (decide (stem ++ u8 "_flaresolverr_raw.json" = name)) as [<-|Hn].
      * right. eexists. apply lookup_insert_eq.
      * left. rewrite lookup_insert_ne by done. by apply prune_lookup.
    + destruct (decide (stem ++ u8 ".json" = name)) as [<-|Hn].
      * right. eexists. apply lookup_insert_eq.
      * left. rewrite lookup_insert_ne by done. by apply prune_lookup.
Qed.

(** ** The session file between runs *)








(** ** Malformed cookie lists *)

Lemma cookie_parts_non_dict (cs : list pyval) (acc : list pystr) :
  if forallb is_dict cs
  then exists parts, cookie_parts cs acc = Ok parts
  else cookie_parts cs acc = Raise AttributeError.
Proof.
  revert acc. induction cs as [|c cs IH]; intros acc; cbn [forallb cookie_parts].
  { eauto. }
  destruct c as [| | | | | |d]; cbn [is_dict andb]; try done.
  rewrite !py_get_dict. cbn [mbind res_bind].
  destruct (truthy _ && negb _); apply IH.
Qed.

(** X9. [build_cookie_header_from_list] raises on a value it cannot walk: a
    [TypeError] when the cookies are not iterable (null, a number, a
    boolean), an [AttributeError] at [c.get] when an entry is not an object
    (an entry of a list, a character of a non-empty string, a key of a
    non-empty object). On a list of objects, and on an empty string or
    object, it returns. *)
Theorem build_cookie_header_errors (cookies : pyval) :
  match py_iter cookies with
  | Raise _ => build_cookie_header_from_list cookies = Raise TypeError
  | Ok entries =>
    if forallb is_dict entries
    then exists header, build_cookie_header_from_list cookies = Ok header
    else build_cookie_header_from_list cookies = Raise AttributeError
  end.
Proof.
  unfold build_cookie_header_from_list.
  destruct (py_iter cookies) as [entries|e] eqn:E; cbn [mbind res_bind].
  - pose proof (cookie_parts_non_dict entries []) as H.
    destruct (forallb is_dict entries).
    + destruct H as [parts ->]. cbn [mbind res_bind]. eauto.
    + by rewrite H.
  - destruct cookies; cbn [py_iter] in E; congruence.
Qed.

(** ** More on titles *)

Lemma part_of_refl (s : pystr) : part_of s s.
Proof. exists [], []. by rewrite app_nil_r. Qed.

Lemma part_of_trans (a b c : pystr) : part_of a b -> part_of b c -> part_of a c.
Proof.
  intros (x & y & ->) (x' & y' & ->). exists (x' ++ x), (y ++ y').
  by rewrite <- !app_assoc.
Qed.

Lemma strip_part_of (s : pystr) : part_of (strip s) s.
Proof.
  destruct (lstrip_split s) as (w & Hw & _).
  destruct (rstrip_split (lstrip s)) as (w' & Hw' & _).
  exists w, w'. unfold strip. by rewrite <- Hw', <- Hw.
Qed.

Lemma lstrip_blank (s : pystr) : Forall (fun c => is_space c = true) s -> lstrip s = [].
Proof.
  induction 1 as [|c s Hc _ IH]; [done|]. cbn [lstrip]. by rewrite Hc.
Qed.

Lemma strip_blank (s : pystr) : Forall (fun c => is_space c = true) s -> strip s = [].
Proof. intros H. unfold strip. by rewrite (lstrip_blank s H). Qed.

Lemma search_from_sound its at_bol skipped s before pieces rest :
  search_from its at_bol skipped s = Some (before, pieces, rest) ->
  rev skipped ++ s = before ++ concat pieces ++ rest
  /\ Forall2 piece_ok its pieces
  /\ exists b s', match_items its b s' = Some (pieces, rest).
Proof.
  revert at_bol skipped. induction s as [|c s IH]; intros at_bol skipped;
    cbn [search_from].
  - destruct (match_items its at_bol []) as [[ps r]|] eqn:E; [|done].
    intros [= <- <- <-]. destruct (match_items_sound _ _ _ _ _ E) as [Hs Hp].
    split_and!; [by rewrite <- Hs|done|eauto].
  - destruct (match_items its at_bol (c :: s)) as [[ps r]|] eqn:E.
    + intros [= <- <- <-]. destruct (match_items_sound _ _ _ _ _ E) as [Hs Hp].
      split_and!; [by rewrite <- Hs|done|eauto].
    + intros H. apply IH in H as (H & Hp & Hm). split_and!; [|done..].
      rewrite <- H. cbn [rev]. by rewrite <- app_assoc.
Qed.

Lemma at_eol_true (s : pystr) : at_eol s = true -> s = [] \/ s = [10].
Proof.
  unfold at_eol. intros H. repeat case_match; subst; try done; first [by left|by right].
Qed.

(** A pattern that ends with [$] matches up to the end of the text or up to
    a last newline. *)
Lemma match_items_ends_at_eol its at_bol s pieces rest :
  last its = Some Eol ->
  match_items its at_bol s = Some (pieces, rest) -> rest = [] \/ rest = [10].
Proof.
  revert at_bol s pieces. induction its as [|it its IH]; intros at_bol s pieces Hl H;
    [done|].
  assert (Hnext : its <> [] -> last its = Some Eol).
  { intros Hne. destruct its; [done|]. exact Hl. }
  destruct it as [| |cls lo hi greedy]; cbn [match_items] in H.
  - destruct at_bol; [|done]. apply with_piece_Some in H as (ps' & -> & H).
    destruct its as [|it' its']; [done|]. eapply IH; [by apply Hnext|exact H].
  - destruct (at_eol s) eqn:E; [|done].
    apply with_piece_Some in H as (ps' & -> & H).
    destruct its as [|it' its'].
    + cbn in H. injection H as <- <-. by apply at_eol_true.
    + eapply IH; [by apply Hnext|exact H].
  - apply rep_sound in H as (p & s' & -> & _ & _ & H).
    apply with_piece_Some in H as (ps' & -> & H).
    destruct its as [|it' its']; [done|]. eapply IH; [by apply Hnext|exact H].
Qed.

Lemma search_from_unfold its at_bol skipped s :
  search_from its at_bol skipped s
  = match match_items its at_bol s with
    | Some (pieces, rest) => Some (rev skipped, pieces, rest)
    | None =>
      match s with
      | c :: s' => search_from its false (c :: skipped) s'
      | [] => None
      end
    end.
Proof. by destruct s. Qed.

(** Removing the matches of a pattern anchored at the start removes a
    prefix of the text. *)
Lemma sub_bol_suffix its (s : pystr) :
  exists a, s = a ++ re_sub_empty (Bol :: its) s.
Proof.
  unfold re_sub_empty. cbn [sub_go]. rewrite search_from_unfold.
  destruct (match_items (Bol :: its) true s) as [[pieces rest]|] eqn:E.
  - destruct (match_items_sound _ _ _ _ _ E) as [Hs _]. cbn [rev app].
    destruct (concat pieces) as [|c m] eqn:Ec; cbn [is_empty].
    + cbn [app] in Hs. subst rest.
      exists []. destruct s as [|c s]; [done|]. by rewrite sub_go_bol_false.
    + exists (c :: m). by rewrite sub_go_bol_false.
  - exists []. destruct s as [|c s]; [done|]. by rewrite search_from_bol_false.
Qed.

(** Removing the code suffix from a text that does not end in white space
    removes a suffix of the text. *)
Lemma sub_code_suffix_prefix (s : pystr) :
  stops is_space (rev s) -> exists b, s = re_sub_empty CODE_SUFFIX s ++ b.
Proof.
  intros Hend. unfold re_sub_empty. cbn [sub_go].
  destruct (search_from CODE_SUFFIX true [] s) as [[[before pieces] rest]|] eqn:E.
  2:{ exists []. by rewrite app_nil_r. }
  apply search_from_sound in E as (Hs & Hp & b & s' & Hm). cbn [rev app] in Hs.
  apply match_items_ends_at_eol in Hm; [|done].
  assert (Hne : is_empty (concat pieces) = false).
  { unfold CODE_SUFFIX in Hp.
    inversion Hp as [|? p0 ? ? _ Hp1]; subst.
    inversion Hp1 as [|? p1 ? ? Hslash _]; subst.
    cbn [piece_ok chr] in Hslash. destruct Hslash as [_ Hlen].
    destruct p1; [cbn in Hlen; lia|]. by destruct p0. }
  rewrite Hne. destruct Hm as [->| ->].
  - rewrite sub_go_nil. exists (concat pieces). by rewrite !app_nil_r in *.
  - exfalso. rewrite Hs in Hend. rewrite !app_assoc in Hend.
    rewrite rev_app_distr in Hend. cbn in Hend. done.
Qed.

(** X10. A title that is absent, empty or made of white space only has no
    normalized form. *)
Theorem normalize_title_blank (raw : pystr) :
  Forall (fun c => is_space c = true) raw ->
  normalize_title (Some raw) = None /\ normalize_title None = None.
Proof.
  intros H. split; [|done]. unfold normalize_title.
  destruct (is_empty raw); [done|]. by rewrite (strip_blank raw H).
Qed.

(** X11. A normalized title is not empty, starts and ends with a character
    that is not white space, and occurs in the raw title as one piece:
    normalization only cuts text off at the two ends, it rewrites nothing. *)
Theorem normalize_title_part_of_raw (raw t : pystr) :
  normalize_title (Some raw) = Some t ->
  clean t /\ stops is_space t /\ stops is_space (rev t) /\ part_of t raw.
Proof.
  unfold normalize_title. destruct (is_empty raw); [done|].
  set (t0 := strip raw).
  set (t1 := strip (re_sub_empty PERFORMER_PREFIX t0)).
  set (t2 := strip (re_sub_empty CODE_SUFFIX t1)).
  set (t3 := strip (re_sub_empty CODE_PREFIX t2)).
  unfold nonempty. destruct (is_empty t3) eqn:E; [done|]. intros [= <-].
  assert (Hclean : strip t3 = t3) by apply strip_idem.
  destruct (strip_ends t3 Hclean) as [Hl Hr].
  split_and!; [|done..|].
  { split; [by destruct t3|done]. }
  assert (H0 : part_of t0 raw) by apply strip_part_of.
  assert (H1 : part_of t1 t0).
  { eapply part_of_trans; [apply strip_part_of|].
    destruct (sub_bol_suffix
                [plus (fun c => negb (is_dash c)); star is_blank; one is_dash;
                 star is_blank] t0) as [a Ha].
    exists a, []. by rewrite app_nil_r. }
  assert (H2 : part_of t2 t1).
  { eapply part_of_trans; [apply strip_part_of|].
    destruct (sub_code_suffix_prefix t1) as [b Hb].
    { apply (strip_ends t1). apply strip_idem. }
    by exists [], b. }
  assert (H3 : part_of t3 t2).
  { eapply part_of_trans; [apply strip_part_of|].
    destruct (sub_bol_suffix [plus is_code_char; one is_colon; star is_space] t2)
      as [a Ha].
    exists a, []. by rewrite app_nil_r. }
  exact (part_of_trans _ _ _ H3 (part_of_trans _ _ _ H2 (part_of_trans _ _ _ H1 H0))).
Qed.

(** ** More on dates *)

Lemma re_finditer_needs its s cls lo hi greedy :
  Rep cls lo hi greedy ∈ its -> (1 <= lo)%nat ->
  Forall (fun c => cls c = false) s ->
  re_finditer its s = [].
Proof.
  intros Hin Hlo Hs. unfold re_finditer. cbn [finditer_go].
  by rewrite (search_from_needs _ _ _ _ _ _ _ _ Hin Hlo Hs).
Qed.

(** X13. A text without a digit has no date, and neither has a text with
    neither the year sign of the localized notation nor a hyphen: both date
    finders return [None] on it. *)
Theorem no_date_without_marks (text : pystr) :
  Forall (fun c => is_digit c = false) text
  \/ Forall (fun c => c <> 24180 /\ c <> 45) text ->
  find_earliest_date_in_text text = None
  /\ find_earliest_date_from_text text = None.
Proof.
  intros H.
  assert (Hd : re_finditer DATE_REGEX text = [] /\ re_finditer ISO_REGEX text = []).
  { destruct H as [H|H].
    - split; apply (re_finditer_needs _ _ is_digit 4 (Some 4%nat) true);
        [unfold DATE_REGEX, between; elem_here|lia|done
        |unfold ISO_REGEX, between; elem_here|lia|done].
    - split.
      + apply (re_finditer_needs _ _ (N.eqb 24180) 1 (Some 1%nat) true);
          [unfold DATE_REGEX, chr; elem_here|lia|].
        eapply Forall_impl; [exact H|]. intros c [Hc _]. apply N.eqb_neq. congruence.
      + apply (re_finditer_needs _ _ (N.eqb 45) 1 (Some 1%nat) true);
          [unfold ISO_REGEX, chr; elem_here|lia|].
        eapply Forall_impl; [exact H|]. intros c [_ Hc]. apply N.eqb_neq. congruence. }
  destruct Hd as [Hl Hi].
  unfold find_earliest_date_in_text, find_earliest_date_from_text, localized_dates,
    iso_dates, iso_matches.
  rewrite Hl, Hi. split; [done|]. by destruct (is_empty text).
Qed.

Lemma reads_back_4 (s : pystr) (z : Z) :
  reads_back 4 s z = true ->
  exists a b c d, s = [a; b; c; d] /\ ascii_digits [a; b; c; d] = Some z.
Proof.
  unfold reads_back. intros H. apply andb_true_iff in H as [Hl H].
  apply Nat.eqb_eq in Hl.
  destruct s as [|a [|b [|c [|d [|? ?]]]]]; try done.
  exists a, b, c, d. split; [done|].
  destruct (ascii_digits [a; b; c; d]) as [z'|]; [|done].
  apply Z.eqb_eq in H. by subst.
Qed.

Lemma reads_back_2 (s : pystr) (z : Z) :
  reads_back 2 s z = true ->
  exists a b, s = [a; b] /\ ascii_digits [a; b] = Some z.
Proof.
  unfold reads_back. intros H. apply andb_true_iff in H as [Hl H].
  apply Nat.eqb_eq in Hl.
  destruct s as [|a [|b [|? ?]]]; try done.
  exists a, b. split; [done|].
  destruct (ascii_digits [a; b]) as [z'|]; [|done].
  apply Z.eqb_eq in H. by subst.
Qed.

Lemma year_reads_back (y : Z) :
  (1 <= y <= 9999)%Z -> reads_back 4 (zero_pad 4 (str_of_Z y)) y = true.
Proof.
  intros H.
  apply (range_check (fun y => reads_back 4 (zero_pad 4 (str_of_Z y)) y) 1 9999);
    [by vm_compute|lia|lia].
Qed.

Lemma long_year_reads_back (y : Z) :
  (1000 <= y <= 9999)%Z -> reads_back 4 (str_of_Z y) y = true.
Proof.
  intros H.
  apply (range_check (fun y => reads_back 4 (str_of_Z y) y) 1000 9999);
    [by vm_compute|lia|lia].
Qed.

Lemma day_reads_back (m : Z) :
  (1 <= m <= 31)%Z -> reads_back 2 (zero_pad 2 (str_of_Z m)) m = true.
Proof.
  intros H.
  apply (range_check (fun m => reads_back 2 (zero_pad 2 (str_of_Z m)) m) 1 31);
    [by vm_compute|lia|lia].
Qed.

Lemma valid_date_ranges (y m d : Z) :
  valid_date y m d = true -> (1 <= y <= 9999 /\ 1 <= m <= 12 /\ 1 <= d <= 31)%Z.
Proof.
  intros Hv. unfold valid_date, days_in_month in Hv.
  repeat (apply andb_true_iff in Hv as [Hv ?]).
  repeat match goal with H : (_ <=? _)%Z = true |- _ => apply Z.leb_le in H end.
  destruct (m =? 2)%Z; [destruct (is_leap y)|destruct (_ || _)%bool]; lia.
Qed.

(** X14. The date the Gravurefit extractor prints reads back as the date it
    was made from: [datetime.fromisoformat] of [strftime("%Y-%m-%d")] of a
    valid date is that date, where the platform pads the year to four digits
    or the year has four digits. *)
Theorem printed_date_reads_back (dt : date) :
  valid dt -> strftime_pads_year = true \/ (1000 <= year_of dt)%Z ->
  fromisoformat (strftime_ymd dt) = Some dt.
Proof.
  destruct dt as [[y m] d]. cbn [valid year_of fst]. intros Hv Hy.
  destruct (valid_date_ranges y m d Hv) as (Hyr & Hmr & Hdr).
  unfold strftime_ymd. set (Y := if strftime_pads_year then _ else _).
  assert (HY : exists a b c e, Y = [a; b; c; e] /\ ascii_digits [a; b; c; e] = Some y).
  { apply reads_back_4. subst Y.
    destruct strftime_pads_year; [apply year_reads_back; lia|].
    destruct Hy as [Hy|Hy]; [done|]. apply long_year_reads_back. lia. }
  destruct HY as (y1 & y2 & y3 & y4 & HY & HYv).
  destruct (reads_back_2 _ _ (day_reads_back m ltac:(lia))) as (m1 & m2 & HM & HMv).
  destruct (reads_back_2 _ _ (day_reads_back d ltac:(lia))) as (d1 & d2 & HD & HDv).
  rewrite HY, HM, HD.
  change (u8 "-") with [45]. cbn [app]. unfold fromisoformat.
  rewrite N.eqb_refl. cbn [andb]. rewrite HYv, HMv, HDv. cbn [mbind option_bind].
  unfold datetime_new. by rewrite Hv.
Qed.

Lemma finditer_go_sound fuel its at_bol s :
  Forall (Forall2 piece_ok its) (finditer_go fuel its at_bol s).
Proof.
  revert at_bol s. induction fuel as [|fuel IH]; intros at_bol s; cbn [finditer_go];
    [constructor|].
  destruct (search_from its at_bol [] s) as [[[before pieces] rest]|] eqn:E;
    [|constructor].
  apply search_from_sound in E as (_ & Hp & _).
  destruct (is_empty (concat pieces)); [destruct rest|]; constructor; done.
Qed.

Lemma fromisoformat_length (iso : pystr) (dt : date) :
  fromisoformat iso = Some dt -> length iso = 10%nat.
Proof.
  unfold fromisoformat. do 10 (destruct iso as [|? iso]; [done|]). by destruct iso.
Qed.

Lemma ascii_digits_int (s : pystr) (z : Z) : ascii_digits s = Some z -> z = int_of_digits s.
Proof. unfold ascii_digits. destruct (forallb _ s); [|done]. by intros [= <-]. Qed.

(** The three numbers of a match of the ISO pattern that is a date. *)
Lemma iso_match_fields (pieces : list pystr) (dt : date) :
  Forall2 piece_ok ISO_REGEX pieces -> fromisoformat (concat pieces) = Some dt ->
  dt = (int_of_digits (pieces_span pieces 0 1),
        int_of_digits (pieces_span pieces 2 1),
        int_of_digits (pieces_span pieces 4 1)).
Proof.
  intros Hp H. pose proof (fromisoformat_length _ _ H) as Hlen.
  unfold ISO_REGEX in Hp.
  inversion Hp as [|? p0 ? l0 H0 Hp0]; subst.
  inversion Hp0 as [|? p1 ? l1 H1 Hp1]; subst.
  inversion Hp1 as [|? p2 ? l2 H2 Hp2]; subst.
  inversion Hp2 as [|? p3 ? l3 H3 Hp3]; subst.
  inversion Hp3 as [|? p4 ? l4 H4 Hp4]; subst.
  inversion Hp4; subst.
  cbn [piece_ok between chr] in H0, H1, H2, H3, H4.
  destruct H0 as [_ L0], H1 as [_ L1], H2 as [_ L2], H3 as [_ L3], H4 as [_ L4].
  cbn [concat] in H, Hlen. rewrite !length_app in Hlen. cbn [length] in Hlen.
  destruct p0 as [|a0 [|a1 [|a2 [|a3 [|? ?]]]]]; cbn [length] in *; try lia.
  destruct p1 as [|b0 [|? ?]]; cbn [length] in *; try lia.
  destruct p2 as [|c0 [|c1 [|? ?]]]; cbn [length] in *; try lia.
  destruct p3 as [|d0 [|? ?]]; cbn [length] in *; try lia.
  destruct p4 as [|e0 [|e1 [|? ?]]]; cbn [length] in *; try lia.
  cbn [app] in H. unfold fromisoformat in H.
  destruct ((b0 =? 45) && (d0 =? 45)); [|done].
  apply bind_Some in H as (y & Hy & H).
  apply bind_Some in H as (m & Hm & H).
  apply bind_Some in H as (d & Hd & H).
  apply datetime_new_valid in H as [-> _].
  apply ascii_digits_int in Hy, Hm, Hd. subst.
  unfold pieces_span. cbn [drop take concat app]. done.
Qed.

Lemma omap_pointwise {A B} (f g : A -> option B) (l : list A) :
  (forall x, f x = g x) -> omap f l = omap g l.
Proof.
  intros H. induction l as [|x l IH]; [done|]. cbn [omap list_omap].
  rewrite H. fold (omap f l) (omap g l). by rewrite IH.
Qed.

Lemma iso_dates_all (L : list (list pystr)) :
  Forall (Forall2 piece_ok ISO_REGEX) L ->
  Forall (fun iso => is_Some (fromisoformat iso)) (map (fun pieces => concat pieces) L) ->
  omap fromisoformat (map (fun pieces => concat pieces) L)
  = map (fun pieces =>
           let '(yy, mm, dd) := iso_fields pieces in
           (int_of_digits yy, int_of_digits mm, int_of_digits dd)) L.
Proof.
  induction 1 as [|pieces L Hp _ IH]; [done|]. cbn [map]. intros H.
  inversion H as [|? ? [dt Hdt] Hrest]; subst. cbn [omap list_omap]. rewrite Hdt.
  cbn [iso_fields]. rewrite (iso_match_fields pieces dt Hp Hdt) at 1.
  f_equal. by apply IH.
Qed.

Lemma zero_pad_full (w : nat) (s : pystr) : length s = w -> zero_pad w s = s.
Proof. intros <-. unfold zero_pad. by rewrite Nat.sub_diag. Qed.

(** The tuple formatting of the JavLibrary copy and [strftime] print the
    earliest date of a list the same way. *)
Lemma earliest_formats_agree (dates : list date) :
  Forall valid dates ->
  strftime_pads_year = false \/ Forall (fun dt => (1000 <= year_of dt)%Z) dates ->
  match dates with
  | [] => None
  | d0 :: rest =>
    let '(y, m, d) := min_date d0 rest in
    Some (str_of_Z y ++ u8 "-" ++ zero_pad 2 (str_of_Z m) ++ u8 "-"
          ++ zero_pad 2 (str_of_Z d))
  end
  = match dates with
    | [] => None
    | d0 :: rest => Some (strftime_ymd (min_date d0 rest))
    end.
Proof.
  intros Hv Hyear. destruct dates as [|d0 rest]; [done|].
  destruct (min_date_spec d0 rest) as [Hin _].
  rewrite Forall_forall in Hv. pose proof (Hv _ Hin) as Hmin.
  destruct (min_date d0 rest) as [[y m] d] eqn:E. f_equal.
  unfold strftime_ymd. destruct strftime_pads_year; [|done].
  destruct Hyear as [Hyear|Hyear]; [done|].
  rewrite Forall_forall in Hyear. pose proof (Hyear _ Hin) as Hy.
  cbn [year_of fst] in Hy. cbn [valid] in Hmin.
  destruct (valid_date_ranges y m d Hmin) as (Hyr & _).
  rewrite (zero_pad_full 4 (str_of_Z y)); [done|].
  pose proof (year_four_digits y ltac:(lia)) as Hr. unfold digits_of_width in Hr.
  apply andb_true_iff in Hr as [Hr _]. by apply Nat.eqb_eq in Hr.
Qed.

(** X15. The two date finders agree wherever the JavLibrary copy is not
    wrong: on a text in which every match of the ISO notation is a calendar
    date in ASCII digits, [find_earliest_date_from_text] returns what
    [find_earliest_date_in_text] returns, provided the platform's [strftime]
    does not pad the year or every date has a year of four digits. *)
Theorem date_finders_agree (text : pystr) :
  Forall (fun iso => is_Some (fromisoformat iso)) (iso_matches text) ->
  strftime_pads_year = false
  \/ Forall (fun dt => (1000 <= year_of dt)%Z) (localized_dates text ++ iso_dates text) ->
  find_earliest_date_from_text text = find_earliest_date_in_text text.
Proof.
  intros Hiso Hyear.
  unfold find_earliest_date_from_text, find_earliest_date_in_text.
  destruct text as [|c text]; [by vm_compute|]. cbn [is_empty].
  set (text' := c :: text) in *.
  assert (Hl : omap (fun pieces =>
                       let '(y, mo, d) := date_groups pieces in
                       if strptime_accepts y (int_of_digits mo) (int_of_digits d)
                       then Some (int_of_digits y, int_of_digits mo, int_of_digits d)
                       else None)
                    (re_finditer DATE_REGEX text')
               = localized_dates text').
  { apply omap_pointwise. intros pieces. by destruct (date_groups pieces) as [[y mo] d]. }
  assert (Hi : map (fun pieces =>
                      let '(yy, mm, dd) := iso_fields pieces in
                      (int_of_digits yy, int_of_digits mm, int_of_digits dd))
                   (re_finditer ISO_REGEX text')
               = iso_dates text').
  { symmetry. apply iso_dates_all; [apply finditer_go_sound|exact Hiso]. }
  rewrite Hl, Hi.
  apply earliest_formats_agree; [apply find_earliest_date_in_text_dates|exact Hyear].
Qed.

(** ** More on the fetch client *)

Lemma dict_lookup_app (d1 d2 : pydict) (k : pystr) :
  dict_lookup (d1 ++ d2) k
  = match dict_lookup d1 k with Some v => Some v | None => dict_lookup d2 k end.
Proof.
  induction d1 as [|[k' v] d1 IH]; [done|]. cbn [app dict_lookup].
  by destruct (pystr_eqb k' k).
Qed.

Lemma pystr_eqb_refl (a : pystr) : pystr_eqb a a = true.
Proof. by apply pystr_eqb_eq. Qed.

Lemma pystr_eqb_ne (a b : pystr) : a <> b -> pystr_eqb a b = false.
Proof.
  intros H. destruct (pystr_eqb a b) eqn:E; [|done]. by apply pystr_eqb_eq in E.
Qed.

(** X16. The request to the proxy always carries [cmd], [url] and
    [maxTimeout], and a [headers] object exactly when there is a header to
    send. The headers sent are the headers given, plus [Cookie] with the
    cookie header when that is not empty; a [Cookie] header that was given is
    never replaced. *)
Theorem request_headers_spec (url : pyval) (headers : option pydict)
    (cookie_header : option pystr) (timeout : Z) :
  let given := default [] headers in
  exists sent : pydict,
    request_payload url headers cookie_header timeout
    = PDict ([(u8 "cmd", PStr (u8 "request.get")); (u8 "url", url);
              (u8 "maxTimeout", PInt timeout)]
             ++ if is_empty sent then [] else [(u8 "headers", PDict sent)])
    /\ (forall k, k <> u8 "Cookie" -> dict_lookup sent k = dict_lookup given k)
    /\ dict_lookup sent (u8 "Cookie")
       = match dict_lookup given (u8 "Cookie"), cookie_header with
         | Some v, _ => Some v
         | None, Some (c :: cs) => Some (PStr (c :: cs))
         | None, _ => None
         end.
Proof.
  cbn zeta. unfold request_payload.
  set (safe := match headers with Some h => if is_empty h then [] else h | None => [] end).
  assert (Hsafe : safe = default [] headers).
  { subst safe. destruct headers as [[|kv h]|]; done. }
  rewrite <- Hsafe. clearbody safe. clear Hsafe.
  set (sent := match cookie_header with Some c => _ | None => safe end).
  exists sent. split.
  { destruct (is_empty sent); [|done]. by rewrite app_nil_r. }
  subst sent. remember (dict_lookup safe (u8 "Cookie")) as given_cookie eqn:E.
  symmetry in E.
  destruct cookie_header as [[|c cs]|]; cbn [is_empty negb andb].
  - split; [done|]. rewrite E. by destruct given_cookie.
  - destruct given_cookie as [v|]; unfold option_list; cbn [option_rect is_empty].
    + split; [done|]. by rewrite E.
    + split.
      * intros k Hk. rewrite dict_lookup_app. destruct (dict_lookup safe k); [done|].
        cbn [dict_lookup]. rewrite pystr_eqb_ne; [done|congruence].
      * rewrite dict_lookup_app, E. cbn [dict_lookup]. by rewrite pystr_eqb_refl.
  - split; [done|]. rewrite E. by destruct given_cookie.
Qed.

Lemma py_or_default (dflt a b : pyval) :
  default_or_truthy dflt b -> default_or_truthy dflt (py_or a b).
Proof. unfold py_or. destruct (truthy a) eqn:E; [by right|done]. Qed.

Lemma probe_solution_defaults (data : pyval) (d : pydict) :
  default_or_truthy (PList []) (snd (fst (probe_solution data d)))
  /\ default_or_truthy PNone (snd (probe_solution data d)).
Proof.
  unfold probe_solution.
  destruct (py_or (dict_get d "solution") _) as [| | | |s| |sd]; cbn [fst snd];
    try (split; by left).
  destruct (dict_get sd "response"); cbn [fst snd];
    split; repeat apply py_or_default; by left.
Qed.

Lemma probe_response_defaults (d : pydict) (found : pyval * pyval * pyval) :
  default_or_truthy (PList []) (snd (fst found)) ->
  default_or_truthy PNone (snd found) ->
  default_or_truthy (PList []) (snd (fst (probe_response d found)))
  /\ default_or_truthy PNone (snd (probe_response d found)).
Proof.
  destruct found as [[h c] s]. cbn [fst snd]. intros Hc Hs. unfold probe_response.
  destruct (negb (truthy h)); [|done].
  destruct (dict_get d "response"); cbn [fst snd]; try done.
  split; by apply py_or_default.
Qed.

(** X17. Whatever the proxy does, the result of [fetch_via_flaresolverr]
    has [cookies] equal to the empty list or truthy and [status] equal to
    [None] or truthy (a status of 0 or an empty cookie list in the answer
    does not get through), and [ok] is true only when the proxy answered with
    a JSON object, which is then kept as [raw], and the html recovered from
    it is truthy. *)
Theorem fetch_result_invariants (url : pyval) (flaresolverr_url : pystr)
    (headers : option pydict) (cookie_header : option pystr) (timeout : Z) :
  let r := fetch_via_flaresolverr url flaresolverr_url headers cookie_header timeout in
  default_or_truthy (PList []) (cookies r)
  /\ default_or_truthy PNone (status r)
  /\ (ok r = true ->
      truthy (html r) = true
      /\ exists text d,
           requests_post flaresolverr_url
             (request_payload url headers cookie_header timeout)
           = PostBody text (Some (PDict d))
           /\ raw r = PDict d).
Proof.
  cbn zeta. unfold fetch_via_flaresolverr.
  destruct (requests_post _ _) as [message|text [data|]]; cbn [ok cookies status];
    try (split_and!; [by left|by left|done]).
  unfold shape_fallback.
  destruct data as [| | | | | |d]; cbn [ok cookies status];
    try (split_and!; [by left|by left|done]).
  pose proof (probe_solution_defaults (PDict d) d) as [Hc Hs].
  pose proof (probe_response_defaults d _ Hc Hs) as [Hc' Hs'].
  destruct (probe_response d (probe_solution (PDict d) d)) as [[h c] s].
  cbn [fst snd ok cookies status html raw] in *. split_and!; [done..|].
  intros Hok. split; [done|]. by exists text, d.
Qed.

(** ** More on the field extractor *)

Lemma extract_fields_image (performers_query studio_query : string)
    (find_date : pystr -> option pystr) (html_content : pyval) (img : pyval) :
  extract_fields performers_query studio_query find_date html_content !! "image"
  = Some img ->
  img = PNone \/ exists src, src <> [] /\ img = PStr (absolute_image src).
Proof.
  unfold extract_fields.
  destruct (match fromstring html_content with
            | Some doc => Some doc
            | None => fromstring (PStr (py_str html_content))
            end) as [doc|]; [|by rewrite lookup_empty].
  rewrite !lookup_insert_ne by done.
  match goal with
  | |- context [match ?i with Some _ => _ | None => _ end !! _] =>
    destruct i as [[|c src]|]
  end; rewrite lookup_insert_eq; intros [= <-]; [by left| |by left].
  right. by exists (c :: src).
Qed.

Lemma literal_head (lit : string) (c : N) :
  head (u8 lit) = Some c -> exists tail, u8 lit = c :: tail.
Proof. destruct (u8 lit) as [|x tail]; [done|]. intros [= ->]. by exists tail. Qed.

Lemma absolute_image_no_slash (src : pystr) :
  src <> [] -> absolute_image src <> [] /\ startswith (u8 "/") (absolute_image src) = false.
Proof.
  intros Hne. unfold absolute_image.
  assert (Hslash : u8 "/" = [47]) by (by vm_compute).
  destruct (startswith (u8 "//") src) eqn:E2.
  { destruct (literal_head "https:" 104) as [tail ->]; [by vm_compute|].
    by rewrite Hslash. }
  destruct (startswith (u8 "/") src) eqn:E1; [|by destruct src].
  unfold BASE_SITE.
  destruct (literal_head "https://www.gravurefit.com" 104) as [tail ->];
    [by vm_compute|].
  by rewrite Hslash.
Qed.

(** X18. The [image] of an extracted record, in either file, is null or an
    absolute URL: a [src] that starts with "//" gets "https:" in front, one
    that starts with a single "/" gets the site in front, any other is kept;
    so the image is never empty and never starts with a slash. *)
Theorem extracted_image_absolute (html_content img : pyval) :
  extract_gravure_fields html_content !! "image" = Some img
  \/ extract_gravure_fields_javlibrary html_content !! "image" = Some img ->
  img = PNone
  \/ exists src,
       src <> [] /\ img = PStr (absolute_image src)
       /\ absolute_image src <> []
       /\ startswith (u8 "/") (absolute_image src) = false.
Proof.
  intros H.
  assert (H' : img = PNone \/ exists src, src <> [] /\ img = PStr (absolute_image src)).
  { destruct H as [H|H]; eapply extract_fields_image; exact H. }
  destruct H' as [->|(src & Hne & ->)]; [by left|right].
  exists src. destruct (absolute_image_no_slash src Hne). by split_and!.
Qed.

Lemma split_go_all_empty (sep : N) (cur s : pystr) :
  Forall (fun p => p = []) (split_go sep cur s)
  <-> cur = [] /\ Forall (fun c => c = sep) s.
Proof.
  revert cur. induction s as [|c s IH]; intros cur; cbn [split_go].
  - rewrite Forall_singleton. split.
    + intros H. split; [|constructor]. destruct cur as [|x cur]; [done|].
      cbn [rev] in H. by destruct (rev cur).
    + by intros [-> _].
  - destruct (c =? sep) eqn:E.
    + apply N.eqb_eq in E. subst c. rewrite Forall_cons, IH, Forall_cons. split.
      * intros (H & _ & Hs). split_and!; [|done..].
        destruct cur as [|x cur]; [done|]. cbn [rev] in H. by destruct (rev cur).
      * by intros (-> & _ & Hs).
    + apply N.eqb_neq in E. rewrite IH, Forall_cons. split; [by intros [? _]|].
      by intros (_ & ? & _).
Qed.

Lemma path_segments_nil (s : pystr) :
  path_segments s = [] <-> Forall (fun c => c = 47) s.
Proof.
  unfold path_segments, split. split.
  - intros H. apply (split_go_all_empty 47 [] s). apply Forall_forall. intros p Hp.
    destruct p as [|c p]; [done|]. exfalso.
    assert (Hin : c :: p ∈ filter (fun p => p <> []) (split_go 47 [] s))
      by (by apply list_elem_of_filter).
    rewrite H in Hin. inversion Hin.
  - intros H.
    assert (He : Forall (fun p => p = []) (split_go 47 [] s))
      by (by apply split_go_all_empty).
    induction He as [|p l -> _ IH]; [done|]. by rewrite filter_cons_False by auto.
Qed.

(** X19. A canonical URL without a hyphen has no code pattern: the code is
    then its last non-empty path segment in upper case, and there is no code
    exactly when the URL has no such segment, that is when it is empty or
    made of slashes only. *)
Theorem code_of_url_without_hyphen (canon : pystr) :
  45 ∉ canon ->
  code_of_url canon = upper <$> last (path_segments canon)
  /\ (code_of_url canon = None <-> Forall (fun c => c = 47) canon).
Proof.
  intros Hno.
  assert (Hs : re_search CODE_REGEX canon = None).
  { unfold re_search.
    rewrite (search_from_needs CODE_REGEX true [] canon (N.eqb 45) 1 (Some 1%nat) true);
      [done|unfold CODE_REGEX, chr; elem_here|lia|].
    apply Forall_forall. intros c Hc. apply N.eqb_neq. intros <-. done. }
  assert (Hc : code_of_url canon = upper <$> last (path_segments canon)).
  { unfold code_of_url. rewrite Hs. by destruct (last (path_segments canon)). }
  split; [done|]. rewrite Hc, <- path_segments_nil.
  rewrite fmap_None. apply last_None.
Qed.

(** A lazy repetition stops at the first place where the rest of the
    pattern matches. *)
Lemma rep_lazy_first {R} cls (k : pystr -> pystr -> option R) acc p s r :
  Forall (fun c => cls c = true) p ->
  (forall p1 p2, p = p1 ++ p2 -> p2 <> [] -> k (rev acc ++ p1) (p2 ++ s) = None) ->
  k (rev acc ++ p) s = Some r ->
  rep cls false 0 None k acc (p ++ s) = Some r.
Proof.
  intros Hp. revert acc. induction Hp as [|c p Hc Hp IH]; intros acc Hnone Hk.
  - rewrite app_nil_r in Hk. cbn [app]. destruct s as [|c s]; cbn [rep]; [done|].
    rewrite Hk. by destruct (hi_allows None && cls c).
  - pose proof (Hnone [] (c :: p) eq_refl ltac:(done)) as H0.
    rewrite app_nil_r in H0. cbn [app] in H0.
    cbn [app rep hi_allows andb]. rewrite Hc, H0.
    cbn [first_of]. apply IH.
    + intros p1 p2 -> Hne. cbn [rev]. rewrite <- app_assoc. cbn [app].
      by apply (Hnone (c :: p1) p2).
    + cbn [rev]. by rewrite <- app_assoc.
Qed.

Lemma match_lazy_star its at_bol cls p s ps rest :
  Forall (fun c => cls c = true) p ->
  (forall p1 p2, p = p1 ++ p2 -> p2 <> [] ->
     match_items its (at_bol && is_empty p1) (p2 ++ s) = None) ->
  match_items its (at_bol && is_empty p) s = Some (ps, rest) ->
  match_items (Rep cls 0 None false :: its) at_bol (p ++ s) = Some (p :: ps, rest).
Proof.
  intros Hp Hnone Hm. cbn [match_items]. apply rep_lazy_first; [done| |].
  - intros p1 p2 Hsplit Hne. cbn [rev app]. by rewrite (Hnone p1 p2).
  - cbn [rev app]. by rewrite Hm.
Qed.

(** A greedy repetition with an upper bound takes a whole run that is no
    longer than the bound. *)
Lemma rep_greedy_bounded {R} cls lo hi (k : pystr -> pystr -> option R) acc p s r :
  Forall (fun c => cls c = true) p -> stops cls s ->
  (lo <= length p <= hi)%nat ->
  k (rev acc ++ p) s = Some r ->
  rep cls true lo (Some hi) k acc (p ++ s) = Some r.
Proof.
  intros Hp Hs. revert lo hi acc. induction Hp as [|c p Hc Hp IH]; intros lo hi acc Hl Hk.
  - rewrite app_nil_r in Hk. cbn [length] in Hl. assert (lo = 0%nat) as -> by lia.
    cbn [app]. destruct s as [|c s]; cbn [rep]; [done|].
    cbn [stops] in Hs. rewrite Hs, andb_false_r. done.
  - cbn [length] in Hl. destruct hi as [|hi]; [lia|].
    cbn [app rep hi_allows andb]. rewrite Hc. cbn [fmap option_fmap option_map pred].
    rewrite (IH (pred lo) hi (c :: acc)); [done|lia|].
    cbn [rev]. by rewrite <- app_assoc.
Qed.

(** Every text starts with a longest run of a class. *)
Lemma longest_run cls (s : pystr) :
  exists p r, s = p ++ r /\ Forall (fun c => cls c = true) p /\ stops cls r.
Proof.
  induction s as [|c s (p & r & -> & Hp & Hr)].
  - by exists [], [].
  - destruct (cls c) eqn:E.
    + exists (c :: p), r. split_and!; [done|by constructor|done].
    + by exists [], (c :: p ++ r).
Qed.

(** Letters and a hyphen do not start inside a stretch that has no hyphen
    and ends with something else than a letter. *)
Lemma no_code_across (suf tail q tail' : pystr) :
  suf <> [] -> 45 ∉ suf -> stops is_ascii_alpha (rev suf) ->
  Forall (fun c => is_ascii_alpha c = true) q ->
  suf ++ tail = q ++ 45 :: tail' -> False.
Proof.
  revert q. induction suf as [|c suf IH]; intros q Hne Hno Hend Hq Heq; [done|].
  apply not_elem_of_cons in Hno as [Hc Hno].
  destruct q as [|a q]; cbn [app] in Heq; injection Heq as -> Heq; [done|].
  inversion Hq as [|? ? Ha Hq']; subst.
  destruct suf as [|c' suf].
  - cbn in Hend. congruence.
  - apply (IH q); try done. apply (stops_rev_suffix _ [a] (c' :: suf)); done.
Qed.

(** The part of the code pattern behind the lazy [.*?]. *)
Lemma code_body_matches (b : bool) (letters digits post : pystr) :
  Forall (fun c => is_ascii_alpha c = true) letters -> (3 <= length letters <= 6)%nat ->
  Forall (fun c => is_digit c = true) digits -> (2 <= length digits <= 6)%nat ->
  stops is_digit post ->
  exists dots rest,
    match_items [between is_ascii_alpha 3 6; chr 45; between is_digit 2 6; star is_dot]
      b (letters ++ 45 :: digits ++ post)
    = Some ([letters; [45]; digits; dots], rest).
Proof.
  intros Hl Hll Hd Hdl Hpost.
  destruct (longest_run is_dot post) as (dots & rest & -> & Hdots & Hrest).
  exists dots, rest. unfold between, chr, star.
  cbn [match_items]. apply rep_greedy_bounded; [done| |done|].
  { cbn [stops]. done. }
  cbn [rev app with_piece]. cbn [match_items].
  rewrite (rep_one (N.eqb 45) _ [] 45 (digits ++ dots ++ rest)
             ([[45]; digits; dots], rest)); [done|done|].
  cbn [rev app]. cbn [match_items].
  rewrite (rep_greedy_bounded is_digit 2 6 _ [] digits (dots ++ rest)
             ([digits; dots], rest)); [done|done|done|done|].
  cbn [rev app]. cbn [match_items].
  rewrite (rep_greedy_run is_dot 0 _ [] dots rest ([dots], rest));
    [done|done|done|lia|]. done.
Qed.

Lemma code_body_needs_hyphen (b : bool) (suf tail : pystr) :
  suf <> [] -> 45 ∉ suf -> stops is_ascii_alpha (rev suf) ->
  match_items [between is_ascii_alpha 3 6; chr 45; between is_digit 2 6; star is_dot]
    b (suf ++ tail)
  = None.
Proof.
  intros Hne Hno Hend.
  destruct (match_items _ b (suf ++ tail)) as [[pieces rest]|] eqn:E; [|done].
  exfalso. apply match_items_sound in E as [Hs Hp].
  inversion Hp as [|? q ? ? Hq Hp1]; subst.
  inversion Hp1 as [|? h ? ? Hh _]; subst.
  cbn [piece_ok between chr] in Hq, Hh. destruct Hq as [Hq _], Hh as [Hh Hlen].
  destruct h as [|x h]; [cbn in Hlen; lia|].
  inversion Hh as [|? ? Hx _]; subst. apply N.eqb_eq in Hx. subst x.
  cbn [concat] in Hs. rewrite <- !app_assoc in Hs. cbn [app] in Hs.
  by eapply (no_code_across suf tail q).
Qed.

(** X21. The code of a canonical URL is the first run of three to six
    letters, a hyphen and two to six digits in it, in upper case: in a URL
    that goes on one line, has no hyphen before that run and something else
    than a letter right in front of it. *)
Theorem code_of_url_first_code (pre letters digits post : pystr) :
  Forall (fun c => is_dot c = true) pre -> 45 ∉ pre ->
  stops is_ascii_alpha (rev pre) ->
  Forall (fun c => is_ascii_alpha c = true) letters -> (3 <= length letters <= 6)%nat ->
  Forall (fun c => is_digit c = true) digits -> (2 <= length digits <= 6)%nat ->
  stops is_digit post ->
  code_of_url (pre ++ letters ++ 45 :: digits ++ post)
  = Some (upper (letters ++ 45 :: digits)).
Proof.
  intros Hpre Hno Hend Hl Hll Hd Hdl Hpost.
  destruct (code_body_matches (true && is_empty pre) letters digits post)
    as (dots & rest & Hm); [done..|].
  assert (Hs : match_items CODE_REGEX true (pre ++ letters ++ 45 :: digits ++ post)
               = Some ([pre; letters; [45]; digits; dots], rest)).
  { unfold CODE_REGEX, lazy_star. apply match_lazy_star; [done| |done].
    intros p1 p2 -> Hne. apply code_body_needs_hyphen; [done| |].
    - intros H. apply Hno. apply elem_of_app. by right.
    - by apply (stops_rev_suffix _ p1 p2). }
  unfold code_of_url, re_search.
  rewrite (search_from_here _ _ _ _ _ _ Hs).
  unfold pieces_span. cbn [drop take concat]. by rewrite app_nil_r.
Qed.

(** ** Tags without repetition *)

Lemma dedupe_spec (tags : list pystr) (seen : gset pystr) (acc : list pystr) :
  (forall t, t ∈ seen <-> t ∈ acc) ->
  exists new,
    dedupe tags seen acc = acc ++ new
    /\ NoDup new
    /\ (forall t, t ∈ new <-> t ∈ tags /\ t ∉ acc)
    /\ new `sublist_of` tags
    /\ (NoDup tags -> (forall t, t ∈ tags -> t ∉ acc) -> new = tags).
Proof.
  revert seen acc. induction tags as [|t tags IH]; intros seen acc Hs.
  { exists []. rewrite app_nil_r. split_and!; try done.
    - constructor.
    - intros t. split; [intros H; inversion H|intros [H _]; inversion H]. }
  cbn [dedupe]. destruct (decide (t ∈ seen)) as [Hin|Hin].
  - destruct (IH seen acc Hs) as (new & -> & Hnd & Hel & Hsub & Hid).
    exists new. split_and!; try done.
    + intros x. rewrite Hel, elem_of_cons. split; [intros [? ?]; by split; [right|]|].
      intros [[->|?] Hx]; [|done]. exfalso. apply Hx. by apply Hs.
    + by apply sublist_cons.
    + intros _ Hfresh. exfalso. apply (Hfresh t); [left|by apply Hs].
  - assert (Hs' : forall x, x ∈ ({[t]} ∪ seen : gset pystr) <-> x ∈ acc ++ [t]).
    { intros x. rewrite elem_of_union, elem_of_singleton, elem_of_app,
        list_elem_of_singleton, Hs.
      split; (intros [H|H]; [by right|by left]). }
    destruct (IH _ _ Hs') as (new & -> & Hnd & Hel & Hsub & Hid).
    assert (Hacc : t ∉ acc) by (intros H; by apply Hin, Hs).
    exists (t :: new). rewrite <- app_assoc. split_and!; try done.
    + constructor; [|done]. intros H. apply Hel in H as [_ H]. apply H.
      apply elem_of_app. right. left.
    + intros x. rewrite !elem_of_cons, Hel, elem_of_app, list_elem_of_singleton.
      split.
      * intros [->|[Hx Hn]]; [by split; [left|]|]. split; [by right|].
        intros Hxa. apply Hn. by left.
      * intros [[->|Hx] Hn]; [by left|].
        destruct (decide (x = t)) as [->|Hne]; [by left|right].
        split; [done|]. intros [?|?]; done.
    + by apply sublist_skip.
    + intros Hnd' Hfresh. apply NoDup_cons in Hnd' as [Ht Hnd']. f_equal.
      apply Hid; [done|]. intros x Hx. rewrite elem_of_app, list_elem_of_singleton.
      intros [Hxa| ->]; [|done]. apply (Hfresh x); [by right|done].
Qed.

Lemma dedupe_app (l1 l2 : list pystr) (seen : gset pystr) (acc : list pystr) :
  (forall t, t ∈ seen <-> t ∈ acc) ->
  exists seen',
    dedupe (l1 ++ l2) seen acc = dedupe l2 seen' (dedupe l1 seen acc)
    /\ forall t, t ∈ seen' <-> t ∈ dedupe l1 seen acc.
Proof.
  revert seen acc. induction l1 as [|t l1 IH]; intros seen acc Hs.
  { by exists seen. }
  cbn [app dedupe]. destruct (decide (t ∈ seen)) as [Hin|Hin]; [by apply IH|].
  apply IH. intros x. rewrite elem_of_union, elem_of_singleton, elem_of_app,
    list_elem_of_singleton, Hs.
  split; (intros [H|H]; [by right|by left]).
Qed.

(** X20. The loop that removes repeated tags keeps the first occurrence of
    every tag, in the order of the page: its result has no repetition and
    the same members as the input, it is the input with elements left out,
    it is the input itself when nothing is repeated, and tags that come later
    on the page only extend it at the end. *)
Theorem dedupe_first_occurrences (tags later : list pystr) :
  let result := dedupe tags ∅ [] in
  NoDup result
  /\ (forall t, t ∈ result <-> t ∈ tags)
  /\ result `sublist_of` tags
  /\ (NoDup tags -> result = tags)
  /\ result `prefix_of` dedupe (tags ++ later) ∅ [].
Proof.
  cbn zeta.
  assert (H0 : forall t : pystr, t ∈ (∅ : gset pystr) <-> t ∈ @nil pystr).
  { intros t. split; [intros H; by apply not_elem_of_empty in H|intros H; inversion H]. }
  destruct (dedupe_spec tags ∅ [] H0) as (new & Hd & Hnd & Hel & Hsub & Hid).
  cbn [app] in Hd. rewrite Hd. split_and!; try done.
  - intros t. rewrite Hel. split; [by intros [? _]|]. intros H. split; [done|].
    intros H'. inversion H'.
  - intros H. apply Hid; [done|]. intros t _ H'. inversion H'.
  - destruct (dedupe_app tags later ∅ [] H0) as (seen' & -> & Hs').
    destruct (dedupe_spec later seen' _ Hs') as (new' & -> & _).
    rewrite Hd. by exists new'.
Qed.

(** ** The helpers of JavLibrary_python.py *)

(** Replacing every match by itself changes nothing. *)
Lemma sub_fn_go_same fuel its (repl : pystr -> pystr) at_bol s :
  (forall m, repl m = m) -> sub_fn_go fuel its repl at_bol s = s.
Proof.
  intros Hrepl. revert at_bol s. induction fuel as [|fuel IH]; intros at_bol s;
    cbn [sub_fn_go]; [done|].
  destruct (search_from its at_bol [] s) as [[[before pieces] rest]|] eqn:E; [|done].
  apply search_from_sound in E as (Hs & _ & _). cbn [rev app] in Hs.
  rewrite !Hrepl. destruct (concat pieces) as [|c m]; cbn [is_empty].
  - cbn [app] in Hs |- *. destruct rest as [|c rest]; [done|].
    by rewrite IH.
  - by rewrite IH.
Qed.

Lemma search_from_one cls at_bol skipped pre c rest :
  Forall (fun x => cls x = false) pre -> cls c = true ->
  search_from [one cls] at_bol skipped (pre ++ c :: rest)
  = Some (rev skipped ++ pre, [[c]], rest).
Proof.
  intros Hpre Hc. apply search_from_skip.
  - intros p1 p2 b -> Hne. apply Forall_app in Hpre as [_ Hp2].
    destruct p2 as [|x p2]; [done|]. inversion Hp2 as [|? ? Hx _]; subst.
    unfold one. cbn [app match_items rep hi_allows andb]. by rewrite Hx.
  - intros b. unfold one. by apply match_one.
Qed.

Lemma filter_all_true {A} (f : A -> bool) (l : list A) :
  Forall (fun x => f x = true) l -> List.filter f l = l.
Proof. induction 1 as [|x l Hx _ IH]; [done|]. cbn. by rewrite Hx, IH. Qed.

(** Removing the matches of a pattern of one character of a class keeps
    the characters outside the class. *)
Lemma sub_go_one_filter cls fuel at_bol (s : pystr) :
  (length s < fuel)%nat ->
  sub_go fuel [one cls] at_bol s = List.filter (fun c => negb (cls c)) s.
Proof.
  revert at_bol s. induction fuel as [|fuel IH]; intros at_bol s Hlen; [lia|].
  destruct (longest_run (fun c => negb (cls c)) s) as (pre & r & -> & Hpre & Hr).
  assert (Hpre' : Forall (fun x => cls x = false) pre).
  { eapply Forall_impl; [exact Hpre|]. intros x Hx. by apply negb_true_iff. }
  cbn [sub_go]. destruct r as [|c rest].
  - rewrite app_nil_r.
    rewrite (search_from_needs [one cls] at_bol [] pre cls 1 (Some 1%nat) true);
      [|unfold one; elem_here|lia|done].
    by rewrite filter_all_true.
  - cbn [stops] in Hr. apply negb_false_iff in Hr.
    rewrite (search_from_one cls at_bol [] pre c rest Hpre' Hr).
    cbn [concat app is_empty rev]. rewrite IH.
    + rewrite List.filter_app. cbn [List.filter]. rewrite Hr. cbn [negb].
      by rewrite (filter_all_true _ pre Hpre).
    + rewrite length_app in Hlen. cbn [length] in Hlen. lia.
Qed.

(** X22. With the table of banned words empty, as it is in this file,
    [regexreplace] removes the square brackets and the double quotes of a
    text and changes nothing else; so its result has none of them, and a
    second pass changes nothing. *)
Theorem regexreplace_removes_brackets (s : pystr) :
  regexreplace s = List.filter (fun c => negb (is_bracket_or_quote c)) s
  /\ Forall (fun c => is_bracket_or_quote c = false) (regexreplace s)
  /\ regexreplace (regexreplace s) = regexreplace s.
Proof.
  assert (H : forall t, regexreplace t
                        = List.filter (fun c => negb (is_bracket_or_quote c)) t).
  { intros t. unfold regexreplace, re_sub_fn, re_sub_empty.
    rewrite sub_fn_go_same by done.
    apply sub_go_one_filter. lia. }
  assert (Hno : Forall (fun c => is_bracket_or_quote c = false) (regexreplace s)).
  { rewrite H. apply List.Forall_forall. intros c Hc.
    apply List.filter_In in Hc as [_ Hc]. by apply negb_true_iff. }
  split_and!; [apply H|exact Hno|].
  rewrite (H (regexreplace s)). apply filter_all_true.
  eapply Forall_impl; [exact Hno|]. intros c Hc. by rewrite Hc.
Qed.

Lemma split_go_run (sep : N) (cur a rest : pystr) :
  sep ∉ a -> split_go sep cur (a ++ rest) = split_go sep (rev a ++ cur) rest.
Proof.
  revert cur. induction a as [|c a IH]; intros cur Hno; [done|].
  apply not_elem_of_cons in Hno as [Hc Hno]. cbn [app split_go].
  assert ((c =? sep) = false) as -> by (apply N.eqb_neq; congruence).
  rewrite IH by done. cbn [rev]. by rewrite <- app_assoc.
Qed.

(** Splitting what was joined gives the parts back. *)
Lemma split_join (sep : N) (parts : list pystr) :
  parts <> [] -> Forall (fun p => sep ∉ p) parts ->
  split sep (join [sep] parts) = parts.
Proof.
  unfold split. intros Hne Hno. induction Hno as [|p parts Hp Hparts IH]; [done|].
  destruct parts as [|p' parts].
  - cbn [join]. pose proof (split_go_run sep [] p [] Hp) as H.
    rewrite app_nil_r in H. rewrite H.
    cbn [split_go]. by rewrite app_nil_r, rev_involutive.
  - change (join [sep] (p :: p' :: parts)) with (p ++ [sep] ++ join [sep] (p' :: parts)).
    rewrite (split_go_run sep [] p _ Hp). cbn [app split_go]. rewrite N.eqb_refl.
    rewrite app_nil_r, rev_involutive. f_equal. by apply IH.
Qed.

Lemma join_has_sep (sep : N) (p q : pystr) (parts : list pystr) :
  sep ∈ join [sep] (p :: q :: parts).
Proof.
  change (join [sep] (p :: q :: parts)) with (p ++ [sep] ++ join [sep] (q :: parts)).
  apply elem_of_app. right. apply list_elem_of_here.
Qed.

(** The strings [getxpath] makes of the nodes of a query. *)
Lemma getxpath_single (q : pystr) (tree : pystr -> res (list xnode)) (l : list pystr) :
  q <> [] -> 124 ∉ q ->
  getxpath (Some q) tree = Ok (Some l) ->
  exists nodes, tree q = Ok nodes
    /\ l = filter (fun x => x <> [])
              (map (fun x_res =>
                      match x_res with
                      | XElement text_content => strip text_content
                      | XText s => strip s
                      end) nodes).
Proof.
  intros Hne Hno. unfold getxpath. destruct q as [|c q]; [done|].
  rewrite bool_decide_eq_false_2 by done.
  destruct (tree (c :: q)) as [nodes|e]; [|done].
  cbn [mbind res_bind mret res_ret]. intros [= <-]. by exists nodes.
Qed.

(** X23. [getxpath] returns [None] exactly for a query that is [None] or
    empty; the strings it returns otherwise are stripped and not empty,
    whether they come from text nodes or from elements. *)
Theorem getxpath_clean (query : option pystr) (tree : pystr -> res (list xnode)) :
  (getxpath query tree = Ok None <-> query = None \/ query = Some [])
  /\ forall l, getxpath query tree = Ok (Some l) -> Forall clean l.
Proof.
  unfold getxpath. destruct query as [[|c q]|].
  - split; [split; [by right|done]|done].
  - set (found := if bool_decide _ then _ else _).
    destruct found as [nodes|e]; cbn [mbind res_bind mret res_ret].
    + split; [split; [done|by intros [?|?]]|].
      intros l [= <-]. apply Forall_forall. intros x Hx.
      apply list_elem_of_filter in Hx as [Hne Hx]. split; [done|].
      apply list_elem_of_fmap in Hx as (node & -> & _).
      destruct node; apply strip_idem.
    + split; [split; [done|by intros [?|?]]|done].
  - split; [split; [by left|done]|done].
Qed.

Lemma mapM_res_all {A B} (f : A -> res B) (l : list A) (out : list B) :
  Forall2 (fun x y => f x = Ok y) l out -> mapM_res f l = Ok out.
Proof.
  induction 1 as [|x y l out Hx _ IH]; [done|]. cbn [mapM_res].
  by rewrite Hx, IH.
Qed.

(** X24. A query that joins two or more queries with "|" is answered one
    query at a time: [getxpath] returns the results of the parts, in the
    order of the parts, one after the other. *)
Theorem getxpath_union (queries : list pystr) (results : list (list pystr))
    (tree : pystr -> res (list xnode)) :
  (2 <= length queries)%nat ->
  Forall (fun q => q <> [] /\ 124 ∉ q) queries ->
  Forall2 (fun q l => getxpath (Some q) tree = Ok (Some l)) queries results ->
  getxpath (Some (join [124] queries)) tree = Ok (Some (concat results)).
Proof.
  intros Hlen Hq Hres.
  set (text := fun x_res => match x_res with
                            | XElement text_content => strip text_content
                            | XText s => strip s
                            end).
  assert (Hnodes : exists nodes,
             Forall2 (fun q ns => tree q = Ok ns) queries nodes
             /\ results = map (fun ns => filter (fun x => x <> []) (map text ns)) nodes).
  { clear Hlen. induction Hres as [|q l queries results Hql _ IH].
    - by exists [].
    - inversion Hq as [|? ? [Hne Hno] Hq']; subst.
      destruct (getxpath_single q tree l Hne Hno Hql) as (ns & Hns & ->).
      destruct (IH Hq') as (nodes & Hall & ->).
      exists (ns :: nodes). split; [by constructor|done]. }
  destruct Hnodes as (nodes & Hall & ->).
  destruct queries as [|p [|q queries]]; cbn [length] in Hlen; [lia|lia|].
  unfold getxpath.
  destruct (join [124] (p :: q :: queries)) as [|c joined] eqn:Ej.
  { pose proof (join_has_sep 124 p q queries) as Hin. rewrite Ej in Hin. inversion Hin. }
  rewrite <- Ej. rewrite bool_decide_eq_true_2 by apply join_has_sep.
  rewrite split_join; [|done|].
  2:{ eapply Forall_impl; [exact Hq|]. by intros x [_ ?]. }
  rewrite (mapM_res_all tree _ nodes Hall). cbn [mbind res_bind mret res_ret].
  do 2 f_equal. fold text.
  clear. induction nodes as [|ns nodes IH]; [done|].
  cbn [concat map]. rewrite map_app, filter_app. f_equal. exact IH.
Qed.

(** ** The Gravurefit branch of JavLibrary_python.py *)

Lemma fetch_unreachable (message : pystr) (url : pyval) (endpoint : pystr)
    (headers : option pydict) (cookie_header : option pystr) (timeout : Z) :
  (forall endpoint payload, requests_post endpoint payload = PostRaises message) ->
  fetch_via_flaresolverr url endpoint headers cookie_header timeout
  = {| ok := false; status := PNone; html := PNone; cookies := PList [];
       raw := PDict [(u8 "error", PStr message)] |}.
Proof. intros H. unfold fetch_via_flaresolverr. by rewrite H. Qed.




(** ** [bypass_protection] *)

Lemma bypass_sites_success (url url_domain : pystr) (times : nat -> Q * Q)
    (sites : list pystr) (i : nat) (cloudflare : bool) (w : world)
    (site : pystr) (r : ResponseHTML) (flag : bool) (w' : world) :
  bypass_sites url url_domain sites i times cloudflare w = (Ok (Some (site, r)), flag, w') ->
  site ∈ sites
  /\ rh_url r = py_replace url_domain site url
  /\ is_200 (rh_status_code r) = true
  /\ rh_content r = rh_html r
  /\ cloudflare_marks (rh_html r) = Ok false.
Proof.
  revert i cloudflare w. induction sites as [|s sites IH]; intros i cloudflare w;
    cbn [bypass_sites]; [intros [=]|].
  destruct (jav_cookie_header _ _) as [cookie_header|e]; [|intros [=]].
  set (fs_res := fetch_via_flaresolverr _ _ _ _ _).
  cbn [rh_html rh_status_code].
  destruct (cloudflare_marks (py_or (html fs_res) (PStr []))) as [[|]|e] eqn:Em;
    [| |intros [=]].
  - intros H. apply IH in H as (Hin & H). split; [by right|done].
  - destruct (is_200 (py_or (status fs_res) _)) eqn:E2; cbn [negb].
    + intros [= <- <- _ _]. cbn [rh_url rh_status_code rh_content rh_html].
      split_and!; [by left|done..].
    + intros H. apply IH in H as (Hin & H). split; [by right|done].
Qed.

(** X27. When [bypass_protection] returns a site, it is one of the three
    JavLibrary sites, the page was asked for at the URL with the domain
    replaced by that site, its status is 200, and neither of the two
    Cloudflare marks is in its html; [content] and [html] of the response
    are the same value. *)
Theorem bypass_protection_success (url : pystr) (times : nat -> Q * Q) (w : world)
    (site : pystr) (r : ResponseHTML) (flag : bool) (w' : world) :
  bypass_protection url times w = (Ok (Some (site, r)), flag, w') ->
  site ∈ SITE_JAVLIB
  /\ (exists netloc,
        urlparse_netloc url = Ok netloc
        /\ rh_url r = py_replace (remove_www_com 0 netloc) site url)
  /\ is_200 (rh_status_code r) = true
  /\ rh_content r = rh_html r
  /\ str_in CAPTCHA_MARK (rh_html r) = Ok false
  /\ str_in BROWSER_CHECK_MARK (rh_html r) = Ok false.
Proof.
  unfold bypass_protection. destruct (urlparse_netloc url) as [netloc|e]; [|intros [=]].
  intros H. apply bypass_sites_success in H as (Hin & Hu & H2 & Hc & Hm).
  split_and!; [done|by exists netloc|done|done| |].
  - unfold cloudflare_marks in Hm. by destruct (str_in CAPTCHA_MARK _) as [[|]|].
  - unfold cloudflare_marks in Hm. by destruct (str_in CAPTCHA_MARK _) as [[|]|].
Qed.

Lemma bypass_sites_unreachable (message : pystr) (url url_domain : pystr)
    (times : nat -> Q * Q) (sites : list pystr) (i : nat) (cloudflare : bool)
    (w : world) :
  (forall endpoint payload, requests_post endpoint payload = PostRaises message) ->
  bypass_sites url url_domain sites i times cloudflare w = (Ok None, cloudflare, w).
Proof.
  intros Hp. revert i. induction sites as [|s sites IH]; intros i;
    cbn [bypass_sites]; [done|].
  destruct (jav_cookie_header _ _) as [cookie_header|e]; [|done].
  rewrite (fetch_unreachable message) by done.
  cbn [html status cookies ok py_or truthy is_empty negb rh_html rh_status_code].
  assert (cloudflare_marks (PStr []) = Ok false) as -> by (by vm_compute).
  cbn [is_200 Z.eqb negb]. apply IH.
Qed.

(** X28. When the proxy cannot be reached, [bypass_protection] goes
    through the sites, finds none and returns the pair of [None]s; it
    raises nothing, the Cloudflare flag stays down and the session file is
    left alone. *)
Theorem bypass_protection_proxy_unreachable (url netloc : pystr)
    (times : nat -> Q * Q) (w : world) (message : pystr) :
  urlparse_netloc url = Ok netloc ->
  (forall endpoint payload, requests_post endpoint payload = PostRaises message) ->
  bypass_protection url times w = (Ok None, false, w).
Proof.
  intros Hn Hp. unfold bypass_protection. rewrite Hn.
  by apply (bypass_sites_unreachable message).
Qed.

End Scraper.

(** * Runs in a concrete environment *)

Lemma Forall_of_forallb (P : N -> Prop) (f : N -> bool) (l : pystr) :
  (forall c, f c = true -> P c) -> forallb f l = true -> Forall P l.
Proof.
  intros Hf. induction l as [|c l IH]; cbn; [constructor|].
  intros H. apply andb_true_iff in H as [Hc Hl]. constructor; [by apply Hf|by apply IH].
Qed.



Lemma fetch_shape_invariant_witness :
  let r1 := fetch_via_flaresolverr (two_proxies (u8 "<html/>")) scene_url DEFAULT_URL
              None None 60000 in
  let r2 := fetch_via_flaresolverr (two_proxies (u8 "<html/>")) scene_url other_endpoint
              None None 60000 in
  ok r1 = ok r2
  /\ ok r1 = negb (is_empty (u8 "<html/>"))
  /\ (u8 "<html/>" <> [] -> html r1 = PStr (u8 "<html/>") /\ html r2 = PStr (u8 "<html/>")).
Proof.
  apply (fetch_shape_invariant (two_proxies (u8 "<html/>")) (u8 "<html/>")
           scene_url scene_url DEFAULT_URL other_endpoint None None None None
           60000 60000 (u8 "(the JSON text)") (u8 "(the JSON text)")).
  - vm_compute. reflexivity.
  - vm_compute. reflexivity.
Defined.

(** C2, counterexample: on the empty string the two shapes do not give the
    same html; the first gives none, the second the empty string. *)
Lemma fetch_shape_empty_html_differs :
  let r1 := fetch_via_flaresolverr (two_proxies []) scene_url DEFAULT_URL
              None None 60000 in
  let r2 := fetch_via_flaresolverr (two_proxies []) scene_url other_endpoint
              None None 60000 in
  html r1 = PNone /\ html r2 = PStr [] /\ ~ (html r1 = PStr [] /\ html r2 = PStr []).
Proof.
  vm_compute. split_and!; [reflexivity|reflexivity|]. intros [H _]. discriminate H.
Qed.



Lemma normalize_title_order_witness :
  normalize_title (Some (u8 "本田瞳 - LULU-255：Scene Title / LULU255"))
  = Some (u8 "Scene Title").
Proof.
  change (u8 "本田瞳 - LULU-255：Scene Title / LULU255")
    with (u8 "本田瞳 " ++ 45 :: u8 " " ++ u8 "LULU-255" ++ 65306 :: [] ++
          u8 "Scene Title" ++ u8 " " ++ 47 :: u8 " " ++ u8 "LULU255").
  apply (proj2 normalize_title_order);
    try (vm_compute; first [reflexivity | discriminate]);
    vm_compute; repeat (constructor; [first [reflexivity | discriminate]|]);
    constructor.
Defined.

(** C9, counterexample: "B - C" is a normalized title, and normalizing it
    again gives "C". *)
Lemma normalize_title_not_idempotent :
  normalize_title (Some (u8 "A - B - C")) = Some (u8 "B - C")
  /\ normalize_title (Some (u8 "B - C")) = Some (u8 "C")
  /\ normalize_title (Some (u8 "B - C")) <> Some (u8 "B - C").
Proof. vm_compute. split_and!; [reflexivity|reflexivity|discriminate]. Qed.

Lemma normalize_title_fixed_witness :
  normalize_title (Some (u8 "Scene Title")) = Some (u8 "Scene Title").
Proof.
  apply (normalize_title_fixed (Some (u8 "Scene Title")) (u8 "Scene Title")).
  - vm_compute. reflexivity.
  - apply (Forall_of_forallb _
             (fun c => negb (is_dash c) && negb (c =? 47) && negb (is_colon c))).
    + intros c H. apply andb_true_iff in H as [H H3].
      apply andb_true_iff in H as [H1 H2].
      apply negb_true_iff in H1, H2, H3. apply N.eqb_neq in H2. done.
    + vm_compute. reflexivity.
Defined.


(** ** Two whole runs *)

Local Abbreviation sample_main requests_post :=
  (main sample_repr requests_post sample_uni_digit true sample_uni_upper
     sample_int_of_str page sample_fromstring sample_xpath sample_tostring
     DEFAULT_URL 60000 3600 (u8 "Mozilla/5.0") 10).

(** The proxy answers with a page: the record has the code, the title, the
    earliest date, the tags without repetition and the absolute image URL;
    the session is rewritten with the new cookies, and the two debug files are
    there. *)
Example main_page_run :
  let answer :=
    PDict [(u8 "solution",
            PDict [(u8 "url", scene_url); (u8 "status", PInt 200);
                   (u8 "response", PStr (u8 "<html>(the page)</html>"));
                   (u8 "cookies",
                    PList [PDict [(u8 "name", PStr (u8 "cf_clearance"));
                                  (u8 "value", PStr (u8 "xyz"))]])])] in
  let record :=
    PDict [(u8 "code", PStr (u8 "LULU-255"));
           (u8 "title", PStr (u8 "Scene Title"));
           (u8 "date", PStr (u8 "2019-03-01"));
           (u8 "performers", PList []);
           (u8 "tags", PList [PStr (u8 "A"); PStr (u8 "B"); PStr (u8 "C")]);
           (u8 "image", PStr (u8 "https://img.gravurefit.com/lulu-255.jpg"));
           (u8 "studio", PNone);
           (u8 "details", PNone);
           (u8 "url", scene_url);
           (u8 "_flaresolverr_raw", answer)] in
  let '(outcome, w) :=
    sample_main (proxy_answers answer) (Some (PDict [(u8 "url", scene_url)]))
      sample_clock sample_world in
  outcome = Ok ()
  /\ stdout w = [record]
  /\ session w
     = Holds (PDict [(u8 "timestamp", PInt 2003);
                     (u8 "cookies",
                      PList [PDict [(u8 "name", PStr (u8 "cf_clearance"));
                                    (u8 "value", PStr (u8 "xyz"))]])])
  /\ raw_dir w !! u8 "lulu-255_flaresolverr_raw.json" = Some (2003%Q, answer)
  /\ out_dir w !! u8 "lulu-255.json" = Some (2004%Q, record).
Proof. vm_compute. split_and!; reflexivity. Qed.

(** The proxy is down: every content field is null, the URL is still there,
    and the session stays as it was. *)
Example main_proxy_down_run :
  let '(outcome, w) :=
    sample_main proxy_down (Some (PDict [(u8 "url", scene_url)]))
      sample_clock sample_world in
  outcome = Ok ()
  /\ stdout w
     = [PDict [(u8 "code", PNone); (u8 "title", PNone); (u8 "date", PNone);
               (u8 "performers", PList []); (u8 "tags", PList []);
               (u8 "image", PNone); (u8 "studio", PNone); (u8 "details", PNone);
               (u8 "url", scene_url);
               (u8 "_flaresolverr_raw",
                PDict [(u8 "error", PStr (u8 "Connection refused"))])]]
  /\ session w = Holds (PDict saved_session).
Proof. vm_compute. split_and!; reflexivity. Qed.

(** ** The further properties at concrete inputs *)

Lemma main_output_ignores_debug_files_witness :
  let fragment := Some (PDict [(u8 "url", scene_url)]) in
  fst (sample_main proxy_down fragment sample_clock sample_world)
  = fst (sample_main proxy_down fragment late_clock read_only_world)
  /\ printed sample_world (snd (sample_main proxy_down fragment sample_clock sample_world))
     = printed read_only_world
         (snd (sample_main proxy_down fragment late_clock read_only_world)).
Proof.
  exact (main_output_ignores_debug_files sample_repr proxy_down sample_uni_digit true
           sample_uni_upper sample_int_of_str page sample_fromstring sample_xpath
           sample_tostring DEFAULT_URL 60000 3600 (u8 "Mozilla/5.0") 10
           (Some (PDict [(u8 "url", scene_url)])) sample_clock late_clock
           sample_world read_only_world eq_refl eq_refl).
Defined.





Lemma main_no_identifier_witness :
  run_gravurefit sample_repr proxy_down sample_uni_digit true sample_uni_upper
    sample_int_of_str page sample_fromstring sample_xpath sample_tostring
    DEFAULT_URL 60000 3600 (u8 "Mozilla/5.0") 10
    (Some (PDict [(u8 "url", PStr [])])) sample_clock sample_world
  = Exits 0 (stdout sample_world ++ [PDict []]).
Proof.
  apply (main_no_identifier sample_repr proxy_down sample_uni_digit true
           sample_uni_upper sample_int_of_str page sample_fromstring sample_xpath
           sample_tostring DEFAULT_URL 60000 3600 (u8 "Mozilla/5.0") 10
           (Some (PDict [(u8 "url", PStr [])])) sample_clock sample_world).
  right. exists [(u8 "url", PStr [])]. split; [reflexivity|]. vm_compute. reflexivity.
Defined.

Lemma normalize_title_blank_witness :
  normalize_title (Some [32; 9; 12288; 10]) = None /\ normalize_title None = None.
Proof.
  apply (normalize_title_blank [32; 9; 12288; 10]).
  repeat (constructor; [reflexivity|]). constructor.
Defined.

Lemma normalize_title_part_of_raw_witness :
  clean (u8 "Scene Title") /\ stops is_space (u8 "Scene Title")
  /\ stops is_space (rev (u8 "Scene Title"))
  /\ part_of (u8 "Scene Title") (u8 " 本田瞳 - LULU-255：Scene Title / LULU255 ").
Proof.
  apply (normalize_title_part_of_raw (u8 " 本田瞳 - LULU-255：Scene Title / LULU255 ")
           (u8 "Scene Title")).
  vm_compute. reflexivity.
Defined.

Lemma no_date_without_marks_witness :
  find_earliest_date_in_text sample_uni_digit true (u8 "発売日 未定") = None
  /\ find_earliest_date_from_text sample_uni_digit (u8 "発売日 未定") = None.
Proof.
  apply (no_date_without_marks sample_uni_digit true (u8 "発売日 未定")).
  left. apply (Forall_of_forallb _ (fun c => negb (is_digit sample_uni_digit c))).
  - intros c H. by apply negb_true_iff.
  - vm_compute. reflexivity.
Defined.

Lemma printed_date_reads_back_witness :
  fromisoformat sample_uni_digit (strftime_ymd true (2019, 3, 1)%Z) = Some (2019, 3, 1)%Z
  /\ fromisoformat sample_uni_digit (strftime_ymd false (2019, 3, 1)%Z)
     = Some (2019, 3, 1)%Z.
Proof.
  split.
  - apply (printed_date_reads_back sample_uni_digit true (2019, 3, 1)%Z);
      [reflexivity|left; reflexivity].
  - apply (printed_date_reads_back sample_uni_digit false (2019, 3, 1)%Z);
      [reflexivity|right; vm_compute; discriminate].
Defined.

Lemma date_finders_agree_witness :
  find_earliest_date_from_text sample_uni_digit
    (u8 "配信開始日 2019-05-01 発売日 2019年3月1日")
  = find_earliest_date_in_text sample_uni_digit false
      (u8 "配信開始日 2019-05-01 発売日 2019年3月1日").
Proof.
  apply (date_finders_agree sample_uni_digit false
           (u8 "配信開始日 2019-05-01 発売日 2019年3月1日")).
  - assert (iso_matches sample_uni_digit (u8 "配信開始日 2019-05-01 発売日 2019年3月1日")
            = [u8 "2019-05-01"]) as -> by (vm_compute; reflexivity).
    constructor; [|constructor]. exists (2019, 5, 1)%Z. vm_compute. reflexivity.
  - left. reflexivity.
Defined.

Lemma extracted_image_absolute_witness :
  PStr (u8 "https://img.gravurefit.com/lulu-255.jpg") = PNone
  \/ exists src,
       src <> []
       /\ PStr (u8 "https://img.gravurefit.com/lulu-255.jpg") = PStr (absolute_image src)
       /\ absolute_image src <> []
       /\ startswith (u8 "/") (absolute_image src) = false.
Proof.
  apply (extracted_image_absolute sample_repr sample_uni_digit true sample_uni_upper
           page sample_fromstring sample_xpath sample_tostring
           (PStr (u8 "<html>(the page)</html>"))).
  left. vm_compute. reflexivity.
Defined.

Lemma code_of_url_without_hyphen_witness :
  code_of_url sample_uni_digit sample_uni_upper (u8 "https://www.gravurefit.com/videos/abc123/")
  = upper sample_uni_upper
      <$> last (path_segments (u8 "https://www.gravurefit.com/videos/abc123/"))
  /\ (code_of_url sample_uni_digit sample_uni_upper
        (u8 "https://www.gravurefit.com/videos/abc123/") = None
      <-> Forall (fun c => c = 47) (u8 "https://www.gravurefit.com/videos/abc123/")).
Proof.
  apply (code_of_url_without_hyphen sample_uni_digit sample_uni_upper
           (u8 "https://www.gravurefit.com/videos/abc123/")).
  apply (bool_decide_unpack _). vm_compute. exact I.
Defined.

Lemma code_of_url_first_code_witness :
  code_of_url sample_uni_digit sample_uni_upper
    (u8 "https://www.gravurefit.com/videos/" ++ u8 "lulu" ++ 45 :: u8 "255" ++ u8 "/")
  = Some (upper sample_uni_upper (u8 "lulu" ++ 45 :: u8 "255")).
Proof.
  apply (code_of_url_first_code sample_uni_digit sample_uni_upper
           (u8 "https://www.gravurefit.com/videos/") (u8 "lulu") (u8 "255") (u8 "/")).
  - apply (Forall_of_forallb _ is_dot); [done|vm_compute; reflexivity].
  - apply (bool_decide_unpack _). vm_compute. exact I.
  - vm_compute. reflexivity.
  - apply (Forall_of_forallb _ is_ascii_alpha); [done|vm_compute; reflexivity].
  - vm_compute. lia.
  - apply (Forall_of_forallb _ (is_digit sample_uni_digit)); [done|vm_compute; reflexivity].
  - vm_compute. lia.
  - vm_compute. reflexivity.
Defined.

Lemma getxpath_union_witness :
  getxpath (Some (join [124] [u8 "//h3/a"; u8 "//h3/b"])) sample_tree
  = Ok (Some (concat [[u8 "ABC-123 Title"]; [u8 "Maker"]])).
Proof.
  apply (getxpath_union [u8 "//h3/a"; u8 "//h3/b"] [[u8 "ABC-123 Title"]; [u8 "Maker"]]
           sample_tree).
  - vm_compute. lia.
  - repeat (constructor;
            [split; [vm_compute; discriminate
                    |apply (bool_decide_unpack _); vm_compute; exact I]|]).
    constructor.
  - repeat (constructor; [vm_compute; reflexivity|]). constructor.
Defined.


Lemma bypass_protection_success_witness :
  u8 "javlibrary" ∈ SITE_JAVLIB
  /\ (exists netloc,
        sample_netloc javlibrary_url = Ok netloc
        /\ rh_url javlibrary_response
           = py_replace (remove_www_com 0 netloc) (u8 "javlibrary") javlibrary_url)
  /\ is_200 (rh_status_code javlibrary_response) = true
  /\ rh_content javlibrary_response = rh_html javlibrary_response
  /\ str_in CAPTCHA_MARK (rh_html javlibrary_response) = Ok false
  /\ str_in BROWSER_CHECK_MARK (rh_html javlibrary_response) = Ok false.
Proof.
  apply (bypass_protection_success sample_repr (proxy_answers plain_answer)
           sample_int_of_str DEFAULT_URL sample_netloc javlibrary_url sample_times
           sample_world (u8 "javlibrary") javlibrary_response false sample_world).
  vm_compute. reflexivity.
Defined.

Lemma bypass_protection_proxy_unreachable_witness :
  bypass_protection sample_repr proxy_down sample_int_of_str DEFAULT_URL sample_netloc
    javlibrary_url sample_times sample_world
  = (Ok None, false, sample_world).
Proof.
  apply (bypass_protection_proxy_unreachable sample_repr proxy_down sample_int_of_str
           DEFAULT_URL sample_netloc javlibrary_url (u8 "www.javlibrary.com")
           sample_times sample_world (u8 "Connection refused")).
  - reflexivity.
  - intros endpoint payload. reflexivity.
Defined.
